(** * DHTNEW: a shallow embedding of the DHT temperature and humidity driver

    The development follows [dhtnew.cpp] (version 0.3.2).  The driver talks
    to the sensor over one data line; its three methods [_readSensor],
    [_read] and [read] are embedded as computations in a small state monad
    whose state is the [DHTNEW] object together with the hardware it drives.

    The header [dhtnew.h] is not part of the sources at hand, so what it
    declares is taken as a parameter:
    - the floating-point arithmetic of the fields [_humidity], [_temperature]
      and of the offsets (class [Arith], with an exact and two IEEE 754
      instances);
    - the macros [F_CPU], [DHTLIB_BIT_THRESHOLD] and [DHTLIB_INVALID_VALUE]
      (class [Macros]);
    - the status codes, which the code only compares with each other and
      which are therefore an enumeration. *)

From Stdlib Require Import ZArith List Bool Lia QArith.
From Stdlib Require Import Floats.SpecFloat.
Import ListNotations.
Local Open Scope Z_scope.

(** ** Status codes *)

Inductive Status : Type :=
| DHTLIB_OK
| DHTLIB_ERROR_CHECKSUM
| DHTLIB_ERROR_BIT_SHIFT
| DHTLIB_ERROR_SENSOR_NOT_READY
| DHTLIB_ERROR_TIMEOUT_A
| DHTLIB_ERROR_TIMEOUT_B
| DHTLIB_ERROR_TIMEOUT_C
| DHTLIB_ERROR_TIMEOUT_D.

Definition status_eqb (a b : Status) : bool :=
  match a, b with
  | DHTLIB_OK, DHTLIB_OK
  | DHTLIB_ERROR_CHECKSUM, DHTLIB_ERROR_CHECKSUM
  | DHTLIB_ERROR_BIT_SHIFT, DHTLIB_ERROR_BIT_SHIFT
  | DHTLIB_ERROR_SENSOR_NOT_READY, DHTLIB_ERROR_SENSOR_NOT_READY
  | DHTLIB_ERROR_TIMEOUT_A, DHTLIB_ERROR_TIMEOUT_A
  | DHTLIB_ERROR_TIMEOUT_B, DHTLIB_ERROR_TIMEOUT_B
  | DHTLIB_ERROR_TIMEOUT_C, DHTLIB_ERROR_TIMEOUT_C
  | DHTLIB_ERROR_TIMEOUT_D, DHTLIB_ERROR_TIMEOUT_D => true
  | _, _ => false
  end.

(** ** The numbers of the driver *)

(** [(_bits[0] * 256 + _bits[1]) * 0.1] is computed in [double] and stored in
    a [float] field; sums with the offsets and the comparisons of
    [constrain] are [float] operations.  The three laws are the only facts
    about the order that the driver relies on: they concern the two bounds
    [0] and [100] of [constrain]. *)
Class Arith : Type := {
  double : Type;
  float : Type;
  int_to_double : Z -> double;
  lit_0_1 : double;
  dmul : double -> double -> double;
  dadd : double -> double -> double;
  double_to_float : double -> float;
  int_to_float : Z -> float;
  fadd : float -> float -> float;
  fneg : float -> float;
  fltb : float -> float -> bool;
  fltb_0_0 : fltb (int_to_float 0) (int_to_float 0) = false;
  fltb_100_100 : fltb (int_to_float 100) (int_to_float 100) = false;
  fltb_100_0 : fltb (int_to_float 100) (int_to_float 0) = false
}.

(** Arduino's [constrain(amt, low, high)] macro:
    [((amt)<(low)?(low):((amt)>(high)?(high):(amt)))]. *)
Definition constrain `{Arith} (amt low high : float) : float :=
  if fltb amt low then low else if fltb high amt then high else amt.

(** Macros that the build and the absent header provide. *)
Class Macros `{Arith} : Type := {
  F_CPU : Z;
  DHTLIB_BIT_THRESHOLD : Z;
  DHTLIB_INVALID_VALUE : float
}.

Definition DHTLIB_DHT11_WAKEUP : Z := 18.
Definition DHTLIB_DHT_WAKEUP : Z := 1.
Definition DHTLIB_DHT11_READ_DELAY : Z := 1000.
Definition DHTLIB_DHT22_READ_DELAY : Z := 2000.

(** Wrap-around of the unsigned types. *)
Definition u8 (z : Z) : Z := z mod 2 ^ 8.
Definition u16 (z : Z) : Z := z mod 2 ^ 16.
Definition u32 (z : Z) : Z := z mod 2 ^ 32.

(** ** The hardware *)

Inductive Level : Type := LOW | HIGH.
Inductive PinMode : Type := OUTPUT | INPUT_PULLUP.

Definition level_eqb (a b : Level) : bool :=
  match a, b with
  | LOW, LOW | HIGH, HIGH => true
  | _, _ => false
  end.

(** Every call of a platform primitive is recorded. *)
Inductive Event : Type :=
| EvPinMode (pin : Z) (m : PinMode)
| EvDigitalWrite (pin : Z) (l : Level)
| EvDigitalRead (pin : Z) (l : Level)
| EvDelayMicroseconds (us : Z)
| EvYield
| EvNoInterrupts
| EvInterrupts
| EvMicros (t : Z)
| EvMillis (t : Z).

(** The world outside the driver: what the k-th [digitalRead], the k-th
    [micros()] and the k-th [millis()] answer, how many of each were made so
    far, and the calls made so far, the latest first. *)
Record World : Type := mkWorld {
  line : nat -> Level;
  n_line : nat;
  micros_clock : nat -> Z;
  n_micros : nat;
  millis_clock : nat -> Z;
  n_millis : nat;
  trace : list Event
}.

Definition log (e : Event) (w : World) : World :=
  mkWorld (line w) (n_line w) (micros_clock w) (n_micros w)
          (millis_clock w) (n_millis w) (e :: trace w).

(** A statement either falls through with a value, or leaves the enclosing
    method by [return rv].  [OutOfFuel] is the model's own outcome for a loop
    that was given too few iterations. *)
Inductive Res (A : Type) : Type :=
| Value (a : A)
| Return (rv : Status)
| OutOfFuel.
Arguments Value {A} a.
Arguments Return {A} rv.
Arguments OutOfFuel {A}.

Section Driver.

Context {AR : Arith}.

(** ** The object *)

Record DHTNEW : Type := mkDHTNEW {
  _dataPin : Z;
  _wakeupDelay : Z;
  _type : Z;
  _humOffset : float;
  _tempOffset : float;
  _humidity : float;
  _temperature : float;
  _lastRead : Z;
  _waitForRead : bool;
  _suppressError : bool;
  _readDelay : Z;
  _bits : list Z
}.

Definition set_dataPin (v : Z) (o : DHTNEW) : DHTNEW :=
  mkDHTNEW v (_wakeupDelay o) (_type o) (_humOffset o) (_tempOffset o)
    (_humidity o) (_temperature o) (_lastRead o) (_waitForRead o)
    (_suppressError o) (_readDelay o) (_bits o).
Definition set_wakeupDelay (v : Z) (o : DHTNEW) : DHTNEW :=
  mkDHTNEW (_dataPin o) v (_type o) (_humOffset o) (_tempOffset o)
    (_humidity o) (_temperature o) (_lastRead o) (_waitForRead o)
    (_suppressError o) (_readDelay o) (_bits o).
Definition set_type (v : Z) (o : DHTNEW) : DHTNEW :=
  mkDHTNEW (_dataPin o) (_wakeupDelay o) v (_humOffset o) (_tempOffset o)
    (_humidity o) (_temperature o) (_lastRead o) (_waitForRead o)
    (_suppressError o) (_readDelay o) (_bits o).
Definition set_humOffset (v : float) (o : DHTNEW) : DHTNEW :=
  mkDHTNEW (_dataPin o) (_wakeupDelay o) (_type o) v (_tempOffset o)
    (_humidity o) (_temperature o) (_lastRead o) (_waitForRead o)
    (_suppressError o) (_readDelay o) (_bits o).
Definition set_tempOffset (v : float) (o : DHTNEW) : DHTNEW :=
  mkDHTNEW (_dataPin o) (_wakeupDelay o) (_type o) (_humOffset o) v
    (_humidity o) (_temperature o) (_lastRead o) (_waitForRead o)
    (_suppressError o) (_readDelay o) (_bits o).
Definition set_humidity (v : float) (o : DHTNEW) : DHTNEW :=
  mkDHTNEW (_dataPin o) (_wakeupDelay o) (_type o) (_humOffset o)
    (_tempOffset o) v (_temperature o) (_lastRead o) (_waitForRead o)
    (_suppressError o) (_readDelay o) (_bits o).
Definition set_temperature (v : float) (o : DHTNEW) : DHTNEW :=
  mkDHTNEW (_dataPin o) (_wakeupDelay o) (_type o) (_humOffset o)
    (_tempOffset o) (_humidity o) v (_lastRead o) (_waitForRead o)
    (_suppressError o) (_readDelay o) (_bits o).
Definition set_lastRead (v : Z) (o : DHTNEW) : DHTNEW :=
  mkDHTNEW (_dataPin o) (_wakeupDelay o) (_type o) (_humOffset o)
    (_tempOffset o) (_humidity o) (_temperature o) v (_waitForRead o)
    (_suppressError o) (_readDelay o) (_bits o).
Definition set_waitForRead (v : bool) (o : DHTNEW) : DHTNEW :=
  mkDHTNEW (_dataPin o) (_wakeupDelay o) (_type o) (_humOffset o)
    (_tempOffset o) (_humidity o) (_temperature o) (_lastRead o) v
    (_suppressError o) (_readDelay o) (_bits o).
Definition set_suppressError (v : bool) (o : DHTNEW) : DHTNEW :=
  mkDHTNEW (_dataPin o) (_wakeupDelay o) (_type o) (_humOffset o)
    (_tempOffset o) (_humidity o) (_temperature o) (_lastRead o)
    (_waitForRead o) v (_readDelay o) (_bits o).
Definition set_readDelay (v : Z) (o : DHTNEW) : DHTNEW :=
  mkDHTNEW (_dataPin o) (_wakeupDelay o) (_type o) (_humOffset o)
    (_tempOffset o) (_humidity o) (_temperature o) (_lastRead o)
    (_waitForRead o) (_suppressError o) v (_bits o).
Definition set_bits (v : list Z) (o : DHTNEW) : DHTNEW :=
  mkDHTNEW (_dataPin o) (_wakeupDelay o) (_type o) (_humOffset o)
    (_tempOffset o) (_humidity o) (_temperature o) (_lastRead o)
    (_waitForRead o) (_suppressError o) (_readDelay o) v.

(** [_bits[i]] and [_bits[i] = v].  The driver only ever indexes the five
    bytes of the buffer. *)
Definition byte_at (i : Z) (bits : list Z) : Z := nth (Z.to_nat i) bits 0.

Fixpoint store_at (i : nat) (v : Z) (bits : list Z) : list Z :=
  match bits, i with
  | [], _ => []
  | _ :: tl, O => v :: tl
  | b :: tl, S i' => b :: store_at i' v tl
  end.

(** ** The monad of the methods *)

Record Sys : Type := mkSys { this : DHTNEW; world : World }.

Definition M (A : Type) : Type := Sys -> Res A * Sys.

Definition ret {A} (a : A) : M A := fun s => (Value a, s).
Definition return_ {A} (rv : Status) : M A := fun s => (Return rv, s).
Definition out_of_fuel {A} : M A := fun s => (OutOfFuel, s).

Definition bind {A B} (m : M A) (f : A -> M B) : M B :=
  fun s =>
    match m s with
    | (Value a, s') => f a s'
    | (Return rv, s') => (Return rv, s')
    | (OutOfFuel, s') => (OutOfFuel, s')
    end.

(** A method body: its [return rv] is the value of the call. *)
Definition method (body : M Status) : M Status :=
  fun s =>
    match body s with
    | (Return rv, s') => (Value rv, s')
    | r => r
    end.

Definition field {A} (f : DHTNEW -> A) : M A := fun s => (Value (f (this s)), s).
Definition assign (upd : DHTNEW -> DHTNEW) : M unit :=
  fun s => (Value tt, mkSys (upd (this s)) (world s)).
Definition platform {A} (f : World -> A * World) : M A :=
  fun s => let (a, w) := f (world s) in (Value a, mkSys (this s) w).

End Driver.

Declare Scope dht_scope.
Delimit Scope dht_scope with dht.
Notation "x <- m ;; k" := (bind m (fun x => k))
  (at level 61, m at next level, right associativity) : dht_scope.
Notation "m ;; k" := (bind m (fun _ => k))
  (at level 61, right associativity) : dht_scope.

Local Open Scope dht_scope.

Section Methods.

Context {AR : Arith} {MC : Macros}.

(** ** Platform primitives *)

Definition pinMode (pin : Z) (m : PinMode) : M unit :=
  platform (fun w => (tt, log (EvPinMode pin m) w)).

Definition digitalWrite (pin : Z) (l : Level) : M unit :=
  platform (fun w => (tt, log (EvDigitalWrite pin l) w)).

Definition digitalRead (pin : Z) : M Level :=
  platform (fun w =>
    let l := line w (n_line w) in
    (l, mkWorld (line w) (S (n_line w)) (micros_clock w) (n_micros w)
          (millis_clock w) (n_millis w) (EvDigitalRead pin l :: trace w))).

Definition delayMicroseconds (us : Z) : M unit :=
  platform (fun w => (tt, log (EvDelayMicroseconds us) w)).

Definition yield : M unit := platform (fun w => (tt, log EvYield w)).
Definition noInterrupts : M unit := platform (fun w => (tt, log EvNoInterrupts w)).
Definition interrupts : M unit := platform (fun w => (tt, log EvInterrupts w)).

(** [micros()] and [millis()] are 32-bit unsigned clocks. *)
Definition micros : M Z :=
  platform (fun w =>
    let t := u32 (micros_clock w (n_micros w)) in
    (t, mkWorld (line w) (n_line w) (micros_clock w) (S (n_micros w))
          (millis_clock w) (n_millis w) (EvMicros t :: trace w))).

Definition millis : M Z :=
  platform (fun w =>
    let t := u32 (millis_clock w (n_millis w)) in
    (t, mkWorld (line w) (n_line w) (micros_clock w) (n_micros w)
          (millis_clock w) (S (n_millis w)) (EvMillis t :: trace w))).

(** ** [_readSensor] *)

(** [#define DHTLIB_TIMEOUT (F_CPU/40000)], assigned to a [uint16_t]. *)
Definition DHTLIB_TIMEOUT : Z := u16 (Z.quot F_CPU 40000).

(** A [uint16_t] counter that is decremented before it is compared with 0
    leaves its loop after at most 2^16 rounds. *)
Definition uint16_rounds : nat := Z.to_nat (2 ^ 16).

(** [while (digitalRead(_dataPin) == lvl) { if (--loopCnt == 0) expired; }]
    where [expired] is [return err] or, in the last loop, [break]. *)
Fixpoint busy_wait (fuel : nat) (lvl : Level) (expired : M unit) (loopCnt : Z)
  : M unit :=
  match fuel with
  | O => out_of_fuel
  | S fuel' =>
      pin <- field _dataPin ;;
      l <- digitalRead pin ;;
      if level_eqb l lvl then
        let loopCnt' := u16 (loopCnt - 1) in
        if loopCnt' =? 0 then expired
        else busy_wait fuel' lvl expired loopCnt'
      else ret tt
  end.

Definition wait_while (lvl : Level) (expired : M unit) : M unit :=
  busy_wait uint16_rounds lvl expired DHTLIB_TIMEOUT.

(** [for (uint8_t i = 0; i < 5; i++) _bits[i] = 0;] *)
Definition empty_buffer : M unit :=
  assign (fun o => set_bits (store_at 0 0 (_bits o)) o) ;;
  assign (fun o => set_bits (store_at 1 0 (_bits o)) o) ;;
  assign (fun o => set_bits (store_at 2 0 (_bits o)) o) ;;
  assign (fun o => set_bits (store_at 3 0 (_bits o)) o) ;;
  assign (fun o => set_bits (store_at 4 0 (_bits o)) o).

(** The loop [for (uint8_t i = 40; i != 0; i--)] with its locals [mask] and
    [idx]. *)
Fixpoint read_bits (i : nat) (mask idx : Z) : M unit :=
  match i with
  | O => ret tt
  | S i' =>
      wait_while LOW (return_ DHTLIB_ERROR_TIMEOUT_C) ;;
      t <- micros ;;
      wait_while HIGH (return_ DHTLIB_ERROR_TIMEOUT_D) ;;
      t' <- micros ;;
      (if u32 (t' - t) >? u32 DHTLIB_BIT_THRESHOLD
       then assign (fun o =>
              set_bits (store_at (Z.to_nat idx)
                          (Z.lor (byte_at idx (_bits o)) mask) (_bits o)) o)
       else ret tt) ;;
      let mask' := Z.shiftr mask 1 in
      if mask' =? 0
      then read_bits i' 128 (u8 (idx + 1))
      else read_bits i' mask' idx
  end.

(** The first half of [_readSensor]: the buffer is emptied, the wake-up
    pulse is sent, the line is handed to the sensor and the interrupts are
    switched off. *)
Definition wake_up : M unit :=
  empty_buffer ;;
  yield ;;
  pin <- field _dataPin ;;
  pinMode pin OUTPUT ;;
  digitalWrite pin LOW ;;
  wakeup <- field _wakeupDelay ;;
  delayMicroseconds (u32 (wakeup * 1100)) ;;
  pinMode pin INPUT_PULLUP ;;
  noInterrupts.

(** The second half: the acknowledge of the sensor, the 40 bits and the low
    phase that follows them. *)
Definition receive_frame : M unit :=
  wait_while HIGH (return_ DHTLIB_ERROR_SENSOR_NOT_READY) ;;
  wait_while LOW (return_ DHTLIB_ERROR_TIMEOUT_A) ;;
  wait_while HIGH (return_ DHTLIB_ERROR_TIMEOUT_B) ;;
  read_bits 40 128 0 ;;
  wait_while LOW (ret tt).

(** Everything of [_readSensor] up to its final test. *)
Definition sample_frame : M unit := wake_up ;; receive_frame.

Definition _readSensor : M Status :=
  method (
    sample_frame ;;
    bits <- field _bits ;;
    if negb (Z.land (byte_at 0 bits) 128 =? 0)
    then return_ DHTLIB_ERROR_BIT_SHIFT
    else return_ DHTLIB_OK).

(** ** [_read] *)

Definition _read : M Status :=
  method (
    rv <- _readSensor ;;
    interrupts ;;
    pin <- field _dataPin ;;
    pinMode pin OUTPUT ;;
    digitalWrite pin HIGH ;;
    now <- millis ;;
    assign (set_lastRead now) ;;
    (if negb (status_eqb rv DHTLIB_OK)
     then
       suppress <- field _suppressError ;;
       (if Bool.eqb suppress false
        then assign (set_humidity DHTLIB_INVALID_VALUE) ;;
             assign (set_temperature DHTLIB_INVALID_VALUE)
        else ret tt) ;;
       return_ rv
     else ret tt) ;;
    ty <- field _type ;;
    (if ty =? 22
     then
       assign (fun o =>
         set_humidity
           (double_to_float
              (dmul (int_to_double (byte_at 0 (_bits o) * 256 + byte_at 1 (_bits o)))
                    lit_0_1)) o) ;;
       assign (fun o =>
         set_temperature
           (double_to_float
              (dmul (int_to_double
                       (Z.land (byte_at 2 (_bits o)) 127 * 256 + byte_at 3 (_bits o)))
                    lit_0_1)) o)
     else
       assign (fun o =>
         set_humidity
           (double_to_float
              (dadd (int_to_double (byte_at 0 (_bits o)))
                    (dmul (int_to_double (byte_at 1 (_bits o))) lit_0_1))) o) ;;
       assign (fun o =>
         set_temperature
           (double_to_float
              (dadd (int_to_double (byte_at 2 (_bits o)))
                    (dmul (int_to_double (byte_at 3 (_bits o))) lit_0_1))) o)) ;;
    bits <- field _bits ;;
    (if negb (Z.land (byte_at 2 bits) 128 =? 0)
     then assign (fun o => set_temperature (fneg (_temperature o)) o)
     else ret tt) ;;
    assign (fun o =>
      set_humidity
        (constrain (fadd (_humidity o) (_humOffset o))
                   (int_to_float 0) (int_to_float 100)) o) ;;
    assign (fun o => set_temperature (fadd (_temperature o) (_tempOffset o)) o) ;;
    bits <- field _bits ;;
    let sum := u8 (byte_at 0 bits + byte_at 1 bits + byte_at 2 bits + byte_at 3 bits) in
    if negb (byte_at 4 bits =? sum)
    then return_ DHTLIB_ERROR_CHECKSUM
    else return_ DHTLIB_OK).

(** ** [read] *)

(** [while (millis() - _lastRead < _readDelay)
       { if (!_waitForRead) return DHTLIB_OK; yield(); }]
    The loop ends when the clock says so; [fuel] bounds the number of times
    the condition is evaluated. *)
Fixpoint wait_for_read (fuel : nat) : M unit :=
  match fuel with
  | O => out_of_fuel
  | S fuel' =>
      now <- millis ;;
      last <- field _lastRead ;;
      delay <- field _readDelay ;;
      if u32 (now - last) <? delay
      then
        wait <- field _waitForRead ;;
        (if negb wait then return_ DHTLIB_OK else ret tt) ;;
        yield ;;
        wait_for_read fuel'
      else ret tt
  end.

Definition read (fuel : nat) : M Status :=
  method (
    delay <- field _readDelay ;;
    (if delay =? 0
     then
       assign (set_readDelay DHTLIB_DHT22_READ_DELAY) ;;
       ty <- field _type ;;
       if ty =? 11 then assign (set_readDelay DHTLIB_DHT11_READ_DELAY) else ret tt
     else ret tt) ;;
    ty <- field _type ;;
    (if negb (ty =? 0)
     then
       wait_for_read fuel ;;
       rv <- _read ;;
       return_ rv
     else ret tt) ;;
    assign (set_type 22) ;;
    assign (set_wakeupDelay DHTLIB_DHT_WAKEUP) ;;
    rv <- _read ;;
    (if status_eqb rv DHTLIB_OK then return_ rv else ret tt) ;;
    assign (set_type 11) ;;
    assign (set_wakeupDelay DHTLIB_DHT11_WAKEUP) ;;
    rv <- _read ;;
    (if status_eqb rv DHTLIB_OK then return_ rv else ret tt) ;;
    assign (set_type 0) ;;
    return_ rv).

(** ** The other public methods *)

(** A method without a result: a [return] inside it ends it. *)
Definition procedure (body : M unit) : M unit :=
  fun s =>
    match body s with
    | (Return _, s') => (Value tt, s')
    | r => r
    end.

Definition setType (type : Z) : M unit :=
  procedure (
    if (type =? 0) || (type =? 11) || (type =? 22)
    then assign (set_type type)
    else ret tt).

Definition powerUp (fuel : nat) : M unit :=
  procedure (
    pin <- field _dataPin ;;
    digitalWrite pin HIGH ;;
    _ <- read fuel ;;
    ret tt).

Definition powerDown : M unit :=
  procedure (
    pin <- field _dataPin ;;
    digitalWrite pin LOW).

End Methods.

(** ** The vocabulary of the specification *)

Section Specification.

Context {AR : Arith} {MC : Macros}.

(** The raw humidity of a frame, per variant. *)
Definition spec_humidity (variant : Z) (frame : list Z) : float :=
  if variant =? 22
  then double_to_float
         (dmul (int_to_double (byte_at 0 frame * 256 + byte_at 1 frame)) lit_0_1)
  else double_to_float
         (dadd (int_to_double (byte_at 0 frame))
               (dmul (int_to_double (byte_at 1 frame)) lit_0_1)).

(** The magnitude of the temperature of a frame, per variant. *)
Definition spec_magnitude (variant : Z) (frame : list Z) : float :=
  if variant =? 22
  then double_to_float
         (dmul (int_to_double (Z.land (byte_at 2 frame) 127 * 256 + byte_at 3 frame))
               lit_0_1)
  else double_to_float
         (dadd (int_to_double (byte_at 2 frame))
               (dmul (int_to_double (byte_at 3 frame)) lit_0_1)).

(** The raw temperature: the magnitude, negated when bit 7 of byte 2 is
    set. *)
Definition spec_temperature (variant : Z) (frame : list Z) : float :=
  if Z.testbit (byte_at 2 frame) 7
  then fneg (spec_magnitude variant frame)
  else spec_magnitude variant frame.

(** Byte 4 is the sum of the bytes 0 to 3, truncated to 8 bits. *)
Definition checksum_ok (frame : list Z) : bool :=
  byte_at 4 frame =?
    (byte_at 0 frame + byte_at 1 frame + byte_at 2 frame + byte_at 3 frame) mod 256.

(** A value is a number when the order of the floats knows it: it is below
    or above some value.  Of an IEEE 754 NaN every comparison is false, so a
    NaN is no number. *)
Definition is_number (x : float) : Prop :=
  exists y, fltb x y = true \/ fltb y x = true.

(** A value lies in [[0, 100]] when it is a number that is neither below 0
    nor above 100. *)
Definition in_0_100 (x : float) : Prop :=
  is_number x /\
  fltb x (int_to_float 0) = false /\ fltb (int_to_float 100) x = false.

(** The calls that sample the line, and the calls that drive it. *)
Definition poll_event (e : Event) : bool :=
  match e with
  | EvDigitalRead _ _ | EvMicros _ => true
  | _ => false
  end.

Definition pin_event (e : Event) : bool :=
  match e with
  | EvPinMode _ _ | EvDigitalWrite _ _ | EvDigitalRead _ _ => true
  | _ => false
  end.

(** The wake-up pulses of a trace, the latest first. *)
Fixpoint wakeup_pulses (tr : list Event) : list Z :=
  match tr with
  | [] => []
  | EvDelayMicroseconds us :: tl => us :: wakeup_pulses tl
  | _ :: tl => wakeup_pulses tl
  end.

(** The world after [_read] has released the line and taken the time:
    [interrupts(); pinMode(OUTPUT); digitalWrite(HIGH); millis()]. *)
Definition released (pin : Z) (w : World) : World :=
  mkWorld (line w) (n_line w) (micros_clock w) (n_micros w)
          (millis_clock w) (S (n_millis w))
          (EvMillis (u32 (millis_clock w (n_millis w)))
             :: EvDigitalWrite pin HIGH :: EvPinMode pin OUTPUT
             :: EvInterrupts :: trace w).

(** The buffer after [_readSensor] has emptied it. *)
Definition emptied (bits : list Z) : list Z :=
  store_at 4 0 (store_at 3 0 (store_at 2 0 (store_at 1 0 (store_at 0 0 bits)))).

(** The world when [_readSensor] starts to poll: the wake-up pulse is sent
    and the interrupts are off. *)
Definition woken (pin wakeup : Z) (w : World) : World :=
  mkWorld (line w) (n_line w) (micros_clock w) (n_micros w)
          (millis_clock w) (n_millis w)
          (EvNoInterrupts :: EvPinMode pin INPUT_PULLUP
             :: EvDelayMicroseconds (u32 (wakeup * 1100))
             :: EvDigitalWrite pin LOW :: EvPinMode pin OUTPUT
             :: EvYield :: trace w).

(** The state in which [_readSensor] starts to poll. *)
Definition polling_start (s : Sys) : Sys :=
  mkSys (set_bits (emptied (_bits (this s))) (this s))
        (woken (_dataPin (this s)) (_wakeupDelay (this s)) (world s)).

(** The time that [_read] stores in [_lastRead]. *)
Definition time_of_read (s : Sys) : Z :=
  u32 (millis_clock (world s) (n_millis (world s))).

(** The object after a transport that failed: the time is stored, and the
    values are invalid unless errors are suppressed. *)
Definition invalidated (now : Z) (o : DHTNEW) : DHTNEW :=
  if _suppressError o
  then set_lastRead now o
  else set_temperature DHTLIB_INVALID_VALUE
         (set_humidity DHTLIB_INVALID_VALUE (set_lastRead now o)).

(** The object after a transport that succeeded: the time is stored, the
    humidity is the raw humidity plus its offset, constrained to 0..100, and
    the temperature is the raw temperature plus its offset. *)
Definition interpreted (now : Z) (o : DHTNEW) : DHTNEW :=
  set_temperature
    (fadd (spec_temperature (_type o) (_bits o)) (_tempOffset o))
    (set_humidity
       (constrain (fadd (spec_humidity (_type o) (_bits o)) (_humOffset o))
                  (int_to_float 0) (int_to_float 100))
       (set_lastRead now o)).

(** The variants. *)
Definition Unknown : Z := 0.
Definition VariantA : Z := 11.
Definition VariantB : Z := 22.

(** The failures of the transport. *)
Definition is_timeout (rv : Status) : bool :=
  match rv with
  | DHTLIB_ERROR_SENSOR_NOT_READY
  | DHTLIB_ERROR_TIMEOUT_A | DHTLIB_ERROR_TIMEOUT_B
  | DHTLIB_ERROR_TIMEOUT_C | DHTLIB_ERROR_TIMEOUT_D => true
  | _ => false
  end.

(** An outcome of the transport: a value, or a [return] with a timeout. *)
Definition comes_through {A} (r : Res A) : Prop :=
  match r with
  | Value _ => True
  | Return rv => is_timeout rv = true
  | OutOfFuel => False
  end.

(** A computation respects a relation between the state before and the
    state after when it never runs out of fuel, leaves its method with a
    timeout only, and relates the two states whatever its outcome. *)
Definition respects {A} (R : Sys -> Sys -> Prop) (m : M A) : Prop :=
  forall s, comes_through (fst (m s)) /\ R s (snd (m s)).

Definition byte (b : Z) : Prop := 0 <= b < 256.

(** The counter of a busy-wait reaches 0 after [rounds] decrements. *)
Definition rounds (loopCnt : Z) : Z := if loopCnt =? 0 then 2 ^ 16 else loopCnt.

(** What polling the line may change: the buffer, the number of answers
    taken from the line and from the microsecond clock, and the trace, which
    grows by polls only. *)
Record polled (s s' : Sys) : Prop := mkPolled {
  polled_this : this s' = set_bits (_bits (this s')) (this s);
  polled_length : length (_bits (this s')) = length (_bits (this s));
  polled_bytes : Forall byte (_bits (this s)) -> Forall byte (_bits (this s'));
  polled_line : line (world s') = line (world s);
  polled_micros : micros_clock (world s') = micros_clock (world s);
  polled_millis : millis_clock (world s') = millis_clock (world s);
  polled_n_millis : n_millis (world s') = n_millis (world s);
  polled_trace : exists evs, trace (world s') = evs ++ trace (world s)
                             /\ forallb poll_event evs = true
}.

(** Modelled from the spec: the member initialisers of the header [dhtnew.h],
    which is absent.  The variant starts Unknown, the offsets are zero, and
    neither waiting nor error suppression is switched on.  The five bytes of
    [_bits] have no initialiser. *)
Definition header_defaults (bits : list Z) : DHTNEW :=
  mkDHTNEW 0 0 0 (int_to_float 0) (int_to_float 0) (int_to_float 0)
           (int_to_float 0) 0 false false 0 bits.

(** The constructor [DHTNEW::DHTNEW(uint8_t pin)], on top of the member
    initialisers. *)
Definition construct (pin : Z) (bits : list Z) : M unit :=
  assign (fun _ => header_defaults bits) ;;
  assign (set_dataPin pin) ;;
  pinMode pin OUTPUT ;;
  digitalWrite pin HIGH ;;
  assign (set_readDelay 0).

(** A sequence of [read()] calls on one object, each in whatever world it
    finds, with the status of each call. *)
Inductive reads : DHTNEW -> list Status -> DHTNEW -> Prop :=
| reads_nil : forall o, reads o [] o
| reads_cons : forall o fuel w rv o1 w1 rvs o2,
    read fuel (mkSys o w) = (Value rv, mkSys o1 w1) ->
    reads o1 rvs o2 ->
    reads o (rv :: rvs) o2.

(** The variant is one of the three that [setType] accepts. *)
Definition known_variant (o : DHTNEW) : Prop :=
  _type o = VariantA \/ _type o = VariantB.

(** The settings of an object: everything but the values, the time of the
    last read and the buffer. *)
Definition config (o : DHTNEW) : Z * Z * Z * float * float * bool * bool * Z :=
  (_dataPin o, _wakeupDelay o, _type o, _humOffset o, _tempOffset o,
   _waitForRead o, _suppressError o, _readDelay o).

(** The object after the first statement of [read]: a read delay of 0 is
    replaced by the delay of the variant that the object has at that
    moment. *)
Definition delay_set (o : DHTNEW) : DHTNEW :=
  if _readDelay o =? 0
  then set_readDelay (if _type o =? 11 then DHTLIB_DHT11_READ_DELAY
                      else DHTLIB_DHT22_READ_DELAY) o
  else o.

(** The object at the first and at the second attempt of the detection. *)
Definition detect_B (o : DHTNEW) : DHTNEW :=
  set_wakeupDelay DHTLIB_DHT_WAKEUP (set_type 22 o).
Definition detect_A (o : DHTNEW) : DHTNEW :=
  set_wakeupDelay DHTLIB_DHT11_WAKEUP (set_type 11 o).

(** The world after one call of [millis()]. *)
Definition clock_read (w : World) : World :=
  mkWorld (line w) (n_line w) (micros_clock w) (n_micros w)
          (millis_clock w) (S (n_millis w))
          (EvMillis (u32 (millis_clock w (n_millis w))) :: trace w).

(** The time since the last read, as [read] computes it on entry. *)
Definition elapsed (o : DHTNEW) (w : World) : Z :=
  u32 (u32 (millis_clock w (n_millis w)) - _lastRead o).

(** The gate of [read] is open when the read delay, as the first statement
    of [read] leaves it, has elapsed. *)
Definition gate_open (o : DHTNEW) (w : World) : Prop :=
  (elapsed o w <? _readDelay (delay_set o)) = false.

(** The state in which a [read] with a concrete variant and an open gate
    calls [_read]. *)
Definition attempt_state (o : DHTNEW) (w : World) : Sys :=
  mkSys (delay_set o) (clock_read w).

(** The world after [powerUp] has set the line high. *)
Definition powered (pin : Z) (w : World) : World := log (EvDigitalWrite pin HIGH) w.

(** The events that the gate of [read] adds while it waits. *)
Definition wait_event (e : Event) : bool :=
  match e with
  | EvMillis _ | EvYield => true
  | _ => false
  end.

(** The reading of the variant's description that makes a failed reading
    reset a determined variant: whenever a [read()] on an object of a
    concrete variant fails, the variant is Unknown afterwards. *)
Definition failed_read_resets (o : DHTNEW) : Prop :=
  forall rv o', reads o [rv] o' -> rv <> DHTLIB_OK -> _type o' = Unknown.

(** The reading of the checksum rule that makes it a rule about [read()]
    on every object, here on one whose variant is Unknown: the first
    transport of such a [read()] starts from the object with the settings of
    VariantB, and whenever it succeeds with a frame, [read()] returns
    [DHTLIB_OK] or [DHTLIB_ERROR_CHECKSUM] as the checksum of that frame
    says. *)
Definition checksum_decides_read (o : DHTNEW) (w : World) : Prop :=
  forall fuel s1,
    _type o = Unknown ->
    _readSensor (mkSys (detect_B (delay_set o)) w) = (Value DHTLIB_OK, s1) ->
    fst (read fuel (mkSys o w)) =
      Value (if checksum_ok (_bits (this s1))
             then DHTLIB_OK else DHTLIB_ERROR_CHECKSUM).

End Specification.

(** ** Two arithmetics *)

(** Exact arithmetic on rationals in lowest terms: what the formulas of the
    driver denote when no rounding takes place. *)
Definition exact_arith : Arith :=
  {| double := Q;
     float := Q;
     int_to_double := inject_Z;
     lit_0_1 := (1 # 10)%Q;
     dmul := fun x y => Qred (x * y);
     dadd := fun x y => Qred (x + y);
     double_to_float := fun x => x;
     int_to_float := inject_Z;
     fadd := fun x y => Qred (x + y);
     fneg := fun x => Qred (- x);
     fltb := fun x y => negb (Qle_bool y x);
     fltb_0_0 := eq_refl;
     fltb_100_100 := eq_refl;
     fltb_100_0 := eq_refl |}.

(** IEEE 754 arithmetic, rounding to nearest even: [double] is binary64 and
    [float] is binary32. *)
Definition b64_of_Z (z : Z) : spec_float := binary_normalize 53 1024 z 0 false.
Definition b32_of_Z (z : Z) : spec_float := binary_normalize 24 128 z 0 false.

Definition b64_to_b32 (x : spec_float) : spec_float :=
  match x with
  | S754_finite s m e => binary_normalize 24 128 (cond_Zopp s (Zpos m)) e s
  | _ => x
  end.

Definition ieee_arith : Arith :=
  {| double := spec_float;
     float := spec_float;
     int_to_double := b64_of_Z;
     lit_0_1 := SFdiv 53 1024 (b64_of_Z 1) (b64_of_Z 10);
     dmul := SFmul 53 1024;
     dadd := SFadd 53 1024;
     double_to_float := b64_to_b32;
     int_to_float := b32_of_Z;
     fadd := SFadd 24 128;
     fneg := SFopp;
     fltb := SFltb;
     fltb_0_0 := eq_refl;
     fltb_100_100 := eq_refl;
     fltb_100_0 := eq_refl |}.

(** The same on a board whose [double] is binary32 as well, as on the 8-bit
    boards. *)
Definition ieee32_arith : Arith :=
  {| double := spec_float;
     float := spec_float;
     int_to_double := b32_of_Z;
     lit_0_1 := SFdiv 24 128 (b32_of_Z 1) (b32_of_Z 10);
     dmul := SFmul 24 128;
     dadd := SFadd 24 128;
     double_to_float := fun x => x;
     int_to_float := b32_of_Z;
     fadd := SFadd 24 128;
     fneg := SFopp;
     fltb := SFltb;
     fltb_0_0 := eq_refl;
     fltb_100_100 := eq_refl;
     fltb_100_0 := eq_refl |}.

(** A 16 MHz board.  For the two macros of the absent header: a bit is a 1
    when its high phase lasts more than 50 microseconds, and -999 marks an
    invalid value. *)
Definition exact_macros : @Macros exact_arith :=
  @Build_Macros exact_arith 16000000 50 (inject_Z (-999)).

Definition ieee_macros : @Macros ieee_arith :=
  @Build_Macros ieee_arith 16000000 50 (b32_of_Z (-999)).

(** A board that runs on a 32768 Hz watch crystal. *)
Definition watch_crystal_macros : @Macros ieee_arith :=
  @Build_Macros ieee_arith 32768 50 (b32_of_Z (-999)).

(** ** Simulated sensors *)

(** The k-th of the 40 bits of a frame, most significant bit of byte 0
    first. *)
Definition frame_bit (frame : list Z) (k : nat) : bool :=
  Z.testbit (nth (k / 8) frame 0) (7 - Z.of_nat (k mod 8)).

(** A sensor that answers every poll at once and sends [frame] over and
    over: the line changes level at each [digitalRead], and the high phase of
    a bit lasts 70 microseconds for a 1 and 27 for a 0. *)
Definition sensor_line (k : nat) : Level := if Nat.even k then LOW else HIGH.

Definition sensor_micros (frame : list Z) (k : nat) : Z :=
  if Nat.even k then 0
  else if frame_bit frame ((k / 2) mod 40) then 70 else 27.

Definition sensor_world (frame : list Z) (clock : nat -> Z) : World :=
  mkWorld sensor_line 0 (sensor_micros frame) 0 clock 0 [].

(** No sensor on the line: the pull-up keeps it high. *)
Definition idle_world (clock : nat -> Z) : World :=
  mkWorld (fun _ => HIGH) 0 (fun _ => 0) 0 clock 0 [].

(** A sensor that sends [frame] to the n-th transport and every later one but
    keeps the line high during the first n-1: [polls] is what one failed
    transport reads before it gives up. *)
Definition late_sensor_line (polls : nat) (k : nat) : Level :=
  if Nat.ltb k polls then HIGH else sensor_line (k - polls).

Definition late_sensor_world (polls : nat) (frame : list Z) (clock : nat -> Z)
  : World :=
  mkWorld (late_sensor_line polls) 0 (sensor_micros frame) 0 clock 0 [].

(** A sensor that answers one transport, which takes 84 polls of this line,
    and is silent afterwards. *)
Definition one_answer_line (k : nat) : Level :=
  if Nat.ltb k 84 then sensor_line k else HIGH.

Definition one_answer_world (frame : list Z) (clock : nat -> Z) : World :=
  mkWorld one_answer_line 0 (sensor_micros frame) 0 clock 0 [].

(** ** Concrete objects *)

(** A clock that shows [t] whenever it is asked. *)
Definition clock_at (t : Z) : nat -> Z := fun _ => t.

(** The object that [DHTNEW mySensor(6)] constructs. *)
Definition mySensor {AR : Arith} : DHTNEW :=
  this (snd (construct 6 [0; 0; 0; 0; 0]
               (mkSys (header_defaults []) (idle_world (clock_at 0))))).

(** [mySensor] after a detection that found VariantB at time 3000. *)
Definition good_frame : list Z := [2; 92; 1; 4; 99].

Definition lockedB {AR : Arith} {MC : Macros} : DHTNEW :=
  this (snd (read 0 (mkSys mySensor (sensor_world good_frame (clock_at 3000))))).

(** The same object with a humidity offset of 50 and a temperature offset of
    100, as [setHumOffset(50)] and [setTempOffset(100)] leave it. *)
Definition lockedB_offset {AR : Arith} {MC : Macros} : DHTNEW :=
  set_tempOffset (int_to_float 100) (set_humOffset (int_to_float 50) lockedB).

(** ** The transport in detail *)

Section Transport.

Context {AR : Arith} {MC : Macros}.

(** The world after one [digitalRead(pin)], and after [k] of them. *)
Definition poll_once (pin : Z) (w : World) : World :=
  mkWorld (line w) (S (n_line w)) (micros_clock w) (n_micros w)
          (millis_clock w) (n_millis w)
          (EvDigitalRead pin (line w (n_line w)) :: trace w).

Fixpoint poll_n (pin : Z) (k : nat) (w : World) : World :=
  match k with
  | O => w
  | S k' => poll_n pin k' (poll_once pin w)
  end.

(** The number of polls after which a busy-wait of [_readSensor] gives up. *)
Definition timeout_polls : nat := Z.to_nat (rounds DHTLIB_TIMEOUT).

(** The line shows [lvl] to the next [k] polls. *)
Definition line_stays (lvl : Level) (k : nat) (w : World) : Prop :=
  forall j, (j < k)%nat -> line w (n_line w + j) = lvl.

(** What a busy-wait may change: the trace and the number of answers taken
    from the line. *)
Record waited (s s' : Sys) : Prop := mkWaited {
  waited_this : this s' = this s;
  waited_micros : micros_clock (world s') = micros_clock (world s);
  waited_n_micros : n_micros (world s') = n_micros (world s)
}.

(** The events of a transport on one pin: polls of that pin and readings
    of the microsecond clock. *)
Definition poll_on (pin : Z) (e : Event) : bool :=
  match e with
  | EvDigitalRead p _ => p =? pin
  | EvMicros _ => true
  | _ => false
  end.

Record sampled_on (s s' : Sys) : Prop := mkSampledOn {
  sampled_pin : _dataPin (this s') = _dataPin (this s);
  sampled_trace : exists evs, trace (world s') = evs ++ trace (world s)
                              /\ forallb (poll_on (_dataPin (this s))) evs = true
}.

(** The bit that the loop of [_readSensor] reads off the n-th and the next
    answer of the microsecond clock: a 1 when the high phase lasted longer
    than the threshold. *)
Definition bit_at (clock : nat -> Z) (n : nat) : bool :=
  u32 (u32 (clock (S n)) - u32 (clock n)) >? u32 DHTLIB_BIT_THRESHOLD.

Fixpoint bits_from (clock : nat -> Z) (n : nat) (i : nat) : list bool :=
  match i with
  | O => []
  | S i' => bit_at clock n :: bits_from clock (S (S n)) i'
  end.

(** The k-th bit of the transport that starts in the world [w]. *)
Definition sampled_bit (w : World) (k : nat) : bool :=
  bit_at (micros_clock w) (2 * k + n_micros w).

(** What the loop does to the buffer, given the bits it measured. *)
Fixpoint store_bits (bs : list bool) (mask idx : Z) (buf : list Z) : list Z :=
  match bs with
  | [] => buf
  | b :: bs' =>
      let buf' :=
        if b
        then store_at (Z.to_nat idx) (Z.lor (byte_at idx buf) mask) buf
        else buf in
      let mask' := Z.shiftr mask 1 in
      if mask' =? 0
      then store_bits bs' 128 (u8 (idx + 1)) buf'
      else store_bits bs' mask' idx buf'
  end.

(** The j-th byte of a frame of bits, the first bit being the most
    significant one. *)
Definition assemble (bit : nat -> bool) (j : nat) : Z :=
  Z.b2z (bit (8 * j)%nat) * 128 + Z.b2z (bit (8 * j + 1)%nat) * 64
  + Z.b2z (bit (8 * j + 2)%nat) * 32 + Z.b2z (bit (8 * j + 3)%nat) * 16
  + Z.b2z (bit (8 * j + 4)%nat) * 8 + Z.b2z (bit (8 * j + 5)%nat) * 4
  + Z.b2z (bit (8 * j + 6)%nat) * 2 + Z.b2z (bit (8 * j + 7)%nat).

(** [_readSensor] up to the last of the 40 bits. *)
Definition handshake_and_bits : M unit :=
  wait_while HIGH (return_ DHTLIB_ERROR_SENSOR_NOT_READY) ;;
  wait_while LOW (return_ DHTLIB_ERROR_TIMEOUT_A) ;;
  wait_while HIGH (return_ DHTLIB_ERROR_TIMEOUT_B) ;;
  read_bits 40 128 0.

(** A computation adds at most [n] to a counter of the world. *)
Definition within (count : World -> nat) (n : nat) {A} (m : M A) : Prop :=
  forall s, (count (world (snd (m s))) <= count (world s) + n)%nat.

(** The world after the gate of [read] has found the read delay not elapsed
    [k] times: [k] calls of [millis()], each followed by a [yield()]. *)
Fixpoint gate_polls (k : nat) (w : World) : World :=
  match k with
  | O => w
  | S k' => gate_polls k' (log EvYield (clock_read w))
  end.

End Transport.

(** A line that shows the levels of [script], one per poll, and [rest] ever
    after. *)
Definition scripted_line (script : list Level) (rest : Level) : nat -> Level :=
  fun k => nth k script rest.

Definition scripted_world (script : list Level) (rest : Level) (clock : nat -> Z)
  : World :=
  mkWorld (scripted_line script rest) 0 (fun _ => 0) 0 clock 0 [].

Section Reasoning.

Context {AR : Arith} {MC : Macros}.

(** ** The monad *)

Lemma bind_Value {A B} (m : M A) (f : A -> M B) s a s' :
  m s = (Value a, s') -> bind m f s = f a s'.
Proof. unfold bind; intros ->; reflexivity. Qed.

Lemma bind_Return {A B} (m : M A) (f : A -> M B) s rv s' :
  m s = (Return rv, s') -> bind m f s = (Return rv, s').
Proof. unfold bind; intros ->; reflexivity. Qed.

(** A result is its outcome paired with its state. *)
Lemma outcome_eq {A} (r : Res A * Sys) (a : A) :
  fst r = Value a -> r = (Value a, snd r).
Proof. destruct r as [o s]. cbn. intros ->. reflexivity. Qed.

Lemma returns_eq {A} (r : Res A * Sys) (a : A) :
  fst r = Value a -> r = (Value a, mkSys (this (snd r)) (world (snd r))).
Proof. destruct r as [o [o' w']]. cbn. intros ->. reflexivity. Qed.

Section Respects.

Variable R : Sys -> Sys -> Prop.
Hypothesis R_refl : forall s, R s s.
Hypothesis R_trans : forall s1 s2 s3, R s1 s2 -> R s2 s3 -> R s1 s3.

Lemma respects_ret {A} (a : A) : respects R (ret a).
Proof. intro s; split; [exact I | apply R_refl]. Qed.

Lemma respects_return {A} rv :
  is_timeout rv = true -> respects R (@return_ _ A rv).
Proof. intros Hrv s; split; [exact Hrv | apply R_refl]. Qed.

Lemma respects_field {A} (f : DHTNEW -> A) : respects R (field f).
Proof. intro s; split; [exact I | apply R_refl]. Qed.

Lemma respects_bind {A B} (m : M A) (f : A -> M B) :
  respects R m -> (forall a, respects R (f a)) -> respects R (bind m f).
Proof.
  intros Hm Hf s. unfold bind.
  destruct (Hm s) as [Hfuel HR].
  destruct (m s) as [[a | rv | ] s1] eqn:E; simpl in *.
  - destruct (Hf a s1) as [Hfuel' HR']. split; [assumption | ].
    eapply R_trans; eassumption.
  - split; assumption.
  - contradiction.
Qed.

Lemma respects_if {A} (b : bool) (m1 m2 : M A) :
  respects R m1 -> respects R m2 -> respects R (if b then m1 else m2).
Proof. destruct b; auto. Qed.

End Respects.

(** ** Bytes *)

Lemma store_at_length i v bits : length (store_at i v bits) = length bits.
Proof.
  revert i; induction bits as [ | b tl IH]; intros [ | i]; simpl; auto.
Qed.

Lemma store_at_bytes i v bits :
  byte v -> Forall byte bits -> Forall byte (store_at i v bits).
Proof.
  intros Hv Hb; revert i.
  induction Hb as [ | b tl Hb Htl IH]; intros [ | i]; simpl; auto.
Qed.

Lemma byte_at_bytes i bits : Forall byte bits -> byte (byte_at i bits).
Proof.
  intro Hb. unfold byte_at. generalize (Z.to_nat i) as n.
  induction Hb as [ | b tl Hb Htl IH]; intros [ | n]; simpl; auto;
    unfold byte; lia.
Qed.

Lemma lor_byte a b : byte a -> byte b -> byte (Z.lor a b).
Proof.
  unfold byte; intros Ha Hb.
  assert (Hnn : 0 <= Z.lor a b) by (apply Z.lor_nonneg; lia).
  split; [assumption | ].
  destruct (Z.eq_dec (Z.lor a b) 0) as [-> | Hz]; [lia | ].
  change 256 with (2 ^ 8). apply Z.log2_lt_pow2; [lia | ].
  rewrite Z.log2_lor by lia.
  assert (Hlog : forall x, 0 <= x < 256 -> Z.log2 x < 8).
  { intros x Hx. destruct (Z.eq_dec x 0) as [-> | Hx0]; [simpl; lia | ].
    apply Z.log2_lt_pow2; [lia | ]. change (2 ^ 8) with 256. lia. }
  specialize (Hlog a Ha) as Hla. specialize (Hlog b Hb) as Hlb. lia.
Qed.

Lemma land_128_testbit b : (Z.land b 128 =? 0) = negb (Z.testbit b 7).
Proof.
  destruct (Z.testbit b 7) eqn:E; simpl.
  - apply Z.eqb_neq. intro H0.
    assert (Ht : Z.testbit (Z.land b 128) 7 = true)
      by (rewrite Z.land_spec, E; reflexivity).
    rewrite H0 in Ht. discriminate.
  - apply Z.eqb_eq. apply Z.bits_inj'. intros n Hn.
    rewrite Z.land_spec, Z.bits_0.
    destruct (Z.eq_dec n 7) as [-> | Hne].
    + rewrite E; reflexivity.
    + change 128 with (2 ^ 7). rewrite Z.pow2_bits_eqb by lia.
      replace (7 =? n) with false by (symmetry; apply Z.eqb_neq; lia).
      apply andb_false_r.
Qed.

(** ** Polling *)

Lemma polled_refl s : polled s s.
Proof.
  constructor; auto.
  - destruct (this s); reflexivity.
  - exists []; auto.
Qed.

Lemma polled_trans s1 s2 s3 : polled s1 s2 -> polled s2 s3 -> polled s1 s3.
Proof.
  intros [T1 L1 B1 Ln1 Mi1 Ml1 N1 (e1 & Tr1 & P1)]
         [T2 L2 B2 Ln2 Mi2 Ml2 N2 (e2 & Tr2 & P2)].
  constructor; try congruence; auto.
  - rewrite T2, T1. reflexivity.
  - exists (e2 ++ e1). rewrite Tr2, Tr1, app_assoc, forallb_app, P1, P2. auto.
Qed.

Lemma digitalRead_polled pin : respects polled (digitalRead pin).
Proof.
  intro s; split; [exact I | ].
  constructor; simpl; auto.
  - destruct (this s); reflexivity.
  - eexists [_]; split; reflexivity.
Qed.

Lemma micros_polled : respects polled micros.
Proof.
  intro s; split; [exact I | ].
  constructor; simpl; auto.
  - destruct (this s); reflexivity.
  - eexists [_]; split; reflexivity.
Qed.

Lemma set_bit_polled idx mask :
  byte mask ->
  respects polled
    (assign (fun o =>
       set_bits (store_at (Z.to_nat idx)
                   (Z.lor (byte_at idx (_bits o)) mask) (_bits o)) o)).
Proof.
  intros Hmask s; split; [exact I | ].
  constructor; simpl; auto.
  - apply store_at_length.
  - intro Hb. apply store_at_bytes; [ | assumption].
    apply lor_byte; [apply byte_at_bytes | ]; assumption.
  - exists []; auto.
Qed.

Lemma polled_ret {A} (a : A) : respects polled (ret a).
Proof. apply respects_ret, polled_refl. Qed.

Lemma polled_return {A} rv :
  is_timeout rv = true -> respects polled (@return_ _ A rv).
Proof. apply respects_return, polled_refl. Qed.

Lemma polled_field {A} (f : DHTNEW -> A) : respects polled (field f).
Proof. apply respects_field, polled_refl. Qed.

Lemma polled_bind {A B} (m : M A) (f : A -> M B) :
  respects polled m -> (forall a, respects polled (f a)) ->
  respects polled (bind m f).
Proof. apply respects_bind, polled_trans. Qed.

Create HintDb dht.

#[local] Hint Resolve polled_ret polled_field respects_if
  digitalRead_polled micros_polled : dht.
#[local] Hint Extern 1 (respects polled (return_ _)) =>
  apply polled_return; reflexivity : dht.

Ltac polled_step := apply polled_bind; [auto with dht | intro].

Lemma busy_wait_polled fuel lvl expired loopCnt :
  respects polled expired ->
  0 <= loopCnt < 2 ^ 16 ->
  rounds loopCnt <= Z.of_nat fuel ->
  respects polled (busy_wait fuel lvl expired loopCnt).
Proof.
  intro Hexp. revert loopCnt.
  induction fuel as [ | fuel IH]; intros c Hc Hfuel.
  - unfold rounds in Hfuel. destruct (c =? 0) eqn:E; [simpl in Hfuel; lia | ].
    apply Z.eqb_neq in E. lia.
  - simpl busy_wait.
    polled_step. polled_step.
    apply respects_if; auto with dht.
    destruct (u16 (c - 1) =? 0) eqn:E; [assumption | ].
    apply Z.eqb_neq in E. unfold u16 in *.
    assert (Hmod : 0 <= (c - 1) mod 2 ^ 16 < 2 ^ 16)
      by (apply Z.mod_pos_bound; reflexivity).
    apply IH; [assumption | ].
    unfold rounds in *.
    destruct (c =? 0) eqn:E0.
    + apply Z.eqb_eq in E0; subst c.
      replace ((0 - 1) mod 2 ^ 16 =? 0) with false by reflexivity.
      change ((0 - 1) mod 2 ^ 16) with 65535. change (2 ^ 16) with 65536 in Hfuel.
      lia.
    + apply Z.eqb_neq in E0.
      rewrite Z.mod_small in * by lia.
      replace (c - 1 =? 0) with false by (symmetry; apply Z.eqb_neq; lia).
      lia.
Qed.

Lemma wait_while_polled lvl expired :
  respects polled expired -> respects polled (wait_while lvl expired).
Proof.
  intro Hexp. unfold wait_while, DHTLIB_TIMEOUT, u16.
  assert (Hmod : 0 <= Z.quot F_CPU 40000 mod 2 ^ 16 < 2 ^ 16)
    by (apply Z.mod_pos_bound; reflexivity).
  apply busy_wait_polled; [assumption | assumption | ].
  unfold uint16_rounds. rewrite Z2Nat.id by (apply Z.pow_nonneg; lia).
  unfold rounds. destruct (_ =? 0); lia.
Qed.

#[local] Hint Resolve wait_while_polled : dht.

Lemma read_bits_polled i mask idx :
  0 < mask < 256 -> respects polled (read_bits i mask idx).
Proof.
  revert mask idx. induction i as [ | i IH]; intros mask idx Hmask.
  - simpl; auto with dht.
  - simpl read_bits.
    do 4 polled_step.
    apply polled_bind.
    { apply respects_if; auto with dht. apply set_bit_polled. unfold byte; lia. }
    intros _.
    assert (Hhalf : 0 <= Z.shiftr mask 1 < 128).
    { rewrite Z.shiftr_div_pow2 by lia. change (2 ^ 1) with 2.
      split; [apply Z.div_pos; lia | apply Z.div_lt_upper_bound; lia]. }
    destruct (Z.shiftr mask 1 =? 0) eqn:E.
    + apply IH; lia.
    + apply Z.eqb_neq in E. apply IH; lia.
Qed.

Lemma receive_frame_polled : respects polled receive_frame.
Proof.
  unfold receive_frame.
  do 3 polled_step.
  apply polled_bind; [apply read_bits_polled; lia | intro].
  auto with dht.
Qed.

(** The first half of [_readSensor] always comes through, and leaves the
    buffer empty and the wake-up pulse in the trace. *)
Lemma wake_up_eq s :
  wake_up s =
  (Value tt,
   mkSys (set_bits (emptied (_bits (this s))) (this s))
         (woken (_dataPin (this s)) (_wakeupDelay (this s)) (world s))).
Proof. destruct s as [[] []]; reflexivity. Qed.

(** ** [_readSensor] *)

Lemma sample_frame_eq s : sample_frame s = receive_frame (polling_start s).
Proof. unfold sample_frame. rewrite (bind_Value _ _ _ _ _ (wake_up_eq s)). reflexivity. Qed.

Lemma _readSensor_eq s :
  _readSensor s =
  match sample_frame s with
  | (Value _, s1) =>
      (Value (if Z.testbit (byte_at 0 (_bits (this s1))) 7
              then DHTLIB_ERROR_BIT_SHIFT else DHTLIB_OK), s1)
  | (Return rv, s1) => (Value rv, s1)
  | (OutOfFuel, s1) => (OutOfFuel, s1)
  end.
Proof.
  unfold _readSensor, method, bind at 1.
  destruct (sample_frame s) as [[[] | rv | ] s1]; try reflexivity.
  unfold bind, field. rewrite land_128_testbit, negb_involutive.
  destruct (Z.testbit _ 7); reflexivity.
Qed.

(** [_readSensor] always returns; it changes the buffer only, and it reports
    success only for a frame whose first byte has bit 7 clear. *)
Lemma _readSensor_returns s :
  exists rv s1,
    _readSensor s = (Value rv, s1) /\
    polled (polling_start s) s1 /\
    rv <> DHTLIB_ERROR_CHECKSUM /\
    (rv = DHTLIB_OK -> Z.testbit (byte_at 0 (_bits (this s1))) 7 = false).
Proof.
  rewrite _readSensor_eq, sample_frame_eq.
  destruct (receive_frame_polled (polling_start s)) as [Hfuel Hpolled].
  destruct (receive_frame (polling_start s)) as [[[] | rv | ] s1];
    cbn [fst snd comes_through] in *.
  - eexists _, s1; split; [reflexivity | split; [assumption | ]].
    destruct (Z.testbit (byte_at 0 (_bits (this s1))) 7);
      split; auto; discriminate.
  - exists rv, s1; split; [reflexivity | split; [assumption | ]].
    split; intro; subst rv; discriminate.
  - contradiction.
Qed.

(** ** [_read] *)

Lemma _read_failed s rv s1 :
  _readSensor s = (Value rv, s1) ->
  rv <> DHTLIB_OK ->
  _read s =
  (Value rv,
   mkSys (invalidated (time_of_read s1) (this s1))
         (released (_dataPin (this s1)) (world s1))).
Proof.
  intros Hrs Hrv. unfold _read, method.
  rewrite (bind_Value _ _ _ _ _ Hrs).
  destruct s1 as [o w]. unfold invalidated, time_of_read.
  destruct rv; try congruence; destruct o as [? ? ? ? ? ? ? ? ? [ | ] ? ?];
    reflexivity.
Qed.

Lemma _read_decoded s s1 :
  _readSensor s = (Value DHTLIB_OK, s1) ->
  _read s =
  (Value (if checksum_ok (_bits (this s1))
          then DHTLIB_OK else DHTLIB_ERROR_CHECKSUM),
   mkSys (interpreted (time_of_read s1) (this s1))
         (released (_dataPin (this s1)) (world s1))).
Proof.
  intros Hrs. unfold _read, method.
  rewrite (bind_Value _ _ _ _ _ Hrs).
  destruct s1 as [o w]. destruct o as [pin wd ty ho to h t lr wt se rd bits].
  unfold interpreted, time_of_read, checksum_ok, spec_temperature,
    spec_humidity, spec_magnitude, bind, interrupts, pinMode, digitalWrite,
    millis, platform, field, assign, ret, return_, u8.
  cbn [this world _dataPin _type _bits _humOffset _tempOffset _humidity
       _temperature _suppressError status_eqb negb fst snd log set_lastRead
       set_humidity set_temperature line n_line micros_clock n_micros
       millis_clock n_millis trace].
  change (2 ^ 8) with 256.
  destruct (ty =? 22);
    cbn [this world _dataPin _type _bits _humOffset _tempOffset _humidity
         _temperature set_humidity set_temperature set_lastRead];
    rewrite land_128_testbit, negb_involutive;
    destruct (Z.testbit (byte_at 2 bits) 7);
    cbn [this world _dataPin _type _bits _humOffset _tempOffset _humidity
         _temperature set_humidity set_temperature set_lastRead];
    destruct (byte_at 4 bits =? _); reflexivity.
Qed.

Lemma wakeup_pulses_polls evs tr :
  forallb poll_event evs = true ->
  wakeup_pulses (evs ++ tr) = wakeup_pulses tr.
Proof.
  induction evs as [ | e evs IH]; simpl; [reflexivity | ].
  intro H. apply andb_prop in H as [He Hevs].
  destruct e; try discriminate; auto.
Qed.

(** [_read] always returns.  Its status is that of the transport, or that of
    the checksum after a transport that succeeded; the object is
    [invalidated] or [interpreted] accordingly. *)
Lemma _read_spec s :
  exists rv s1,
    _readSensor s = (Value rv, s1) /\
    polled (polling_start s) s1 /\
    rv <> DHTLIB_ERROR_CHECKSUM /\
    (rv = DHTLIB_OK -> Z.testbit (byte_at 0 (_bits (this s1))) 7 = false) /\
    _read s =
    (Value (if status_eqb rv DHTLIB_OK
            then if checksum_ok (_bits (this s1))
                 then DHTLIB_OK else DHTLIB_ERROR_CHECKSUM
            else rv),
     mkSys (if status_eqb rv DHTLIB_OK
            then interpreted (time_of_read s1) (this s1)
            else invalidated (time_of_read s1) (this s1))
           (released (_dataPin (this s1)) (world s1))).
Proof.
  destruct (_readSensor_returns s) as (rv & s1 & Hrs & Hp & Hck & Hbit).
  exists rv, s1. repeat (split; [assumption | ]).
  destruct (status_eqb rv DHTLIB_OK) eqn:E.
  - assert (rv = DHTLIB_OK) by (destruct rv; try discriminate; reflexivity).
    subst rv. apply _read_decoded; assumption.
  - apply _read_failed; [assumption | ]. intros ->. discriminate.
Qed.

Lemma _read_total s : exists rv s', _read s = (Value rv, s').
Proof.
  destruct (_read_spec s) as (rv & s1 & _ & _ & _ & _ & H).
  rewrite H. eauto.
Qed.

(** [_read] leaves the settings alone, stores the time, and sends exactly
    one wake-up pulse, of 1100 microseconds per unit of [_wakeupDelay]. *)
Lemma _read_keeps s rv s' :
  _read s = (Value rv, s') ->
  config (this s') = config (this s) /\
  wakeup_pulses (trace (world s')) =
    u32 (_wakeupDelay (this s) * 1100) :: wakeup_pulses (trace (world s)).
Proof.
  destruct (_read_spec s) as (rv1 & s1 & _ & Hp & _ & _ & H).
  rewrite H. intro E. injection E as _ <-.
  destruct Hp as [Hthis _ _ _ _ _ _ (evs & Htr & Hevs)].
  cbn [this world]. split.
  - rewrite Hthis. destruct s as [o w]. cbn [polling_start this].
    unfold interpreted, invalidated.
    destruct (status_eqb rv1 DHTLIB_OK); [reflexivity | ].
    destruct o as [? ? ? ? ? ? ? ? ? [ | ] ? ?]; reflexivity.
  - unfold released. cbn [trace wakeup_pulses]. rewrite Htr.
    rewrite wakeup_pulses_polls by assumption. reflexivity.
Qed.

(** ** [read] *)

(** With the variant Unknown, [read] is the detection. *)
Lemma read_unknown fuel o w :
  _type o = Unknown ->
  read fuel (mkSys o w) =
  match _read (mkSys (detect_B (delay_set o)) w) with
  | (Value rvB, s1) =>
      if status_eqb rvB DHTLIB_OK then (Value rvB, s1)
      else
        match _read (mkSys (detect_A (this s1)) (world s1)) with
        | (Value rvA, s2) =>
            if status_eqb rvA DHTLIB_OK then (Value rvA, s2)
            else (Value rvA, mkSys (set_type 0 (this s2)) (world s2))
        | (Return rv, s2) => (Value rv, s2)
        | (OutOfFuel, s2) => (OutOfFuel, s2)
        end
  | (Return rv, s1) => (Value rv, s1)
  | (OutOfFuel, s1) => (OutOfFuel, s1)
  end.
Proof.
  intros Hty. destruct o as [pin wd ty ho to h t lr wt se rd bits].
  cbn in Hty. subst ty.
  unfold read, method, delay_set, detect_B, detect_A.
  unfold bind at 1. unfold field at 1. cbn [this _readDelay].
  destruct (rd =? 0); cbn - [_read].
  all: unfold bind at 1;
    match goal with
    | |- context [_read ?x] => destruct (_read x) as [[rvB | rv | ] s1]
    end; try reflexivity;
    destruct (status_eqb rvB DHTLIB_OK); cbn - [_read]; try reflexivity;
    unfold bind at 1;
    match goal with
    | |- context [_read ?x] => destruct (_read x) as [[rvA | rv | ] s2]
    end; try reflexivity;
    destruct (status_eqb rvA DHTLIB_OK); reflexivity.
Qed.

(** With a concrete variant, [read] is the gate followed by one [_read]. *)
Lemma read_known fuel o w :
  _type o <> Unknown ->
  read fuel (mkSys o w) =
  match wait_for_read fuel (mkSys (delay_set o) w) with
  | (Value _, s1) => _read s1
  | (Return rv, s1) => (Value rv, s1)
  | (OutOfFuel, s1) => (OutOfFuel, s1)
  end.
Proof.
  intros Hty. destruct o as [pin wd ty ho to h t lr wt se rd bits].
  cbn in Hty. unfold Unknown in Hty. apply Z.eqb_neq in Hty.
  unfold read, method, delay_set.
  unfold bind at 1. unfold field at 1. cbn [this _readDelay _type].
  destruct (rd =? 0); [destruct (ty =? 11) eqn:E11 | ];
    unfold bind, field, assign, ret;
    cbn - [_read wait_for_read Z.eqb];
    rewrite ?E11; cbn - [_read wait_for_read Z.eqb];
    rewrite Hty; unfold set_readDelay; cbn - [_read wait_for_read Z.eqb];
    match goal with
    | |- context [wait_for_read fuel ?x] =>
        destruct (wait_for_read fuel x) as [[[] | rv | ] s1]
    end; try reflexivity;
    cbn - [_read wait_for_read Z.eqb];
    destruct (_read_total s1) as (rv1 & s2 & E); rewrite E; reflexivity.
Qed.

(** The gate lets the caller through when the interval has elapsed. *)
Lemma wait_for_read_open fuel o w :
  (elapsed o w <? _readDelay o) = false ->
  wait_for_read (S fuel) (mkSys o w) = (Value tt, mkSys o (clock_read w)).
Proof.
  unfold elapsed. intro H. cbn [wait_for_read].
  unfold bind, millis, field, platform, ret. cbn [this world]. rewrite H.
  reflexivity.
Qed.

(** The gate sends a caller that does not wait back with [DHTLIB_OK]. *)
Lemma wait_for_read_throttled fuel o w :
  (elapsed o w <? _readDelay o) = true ->
  _waitForRead o = false ->
  wait_for_read (S fuel) (mkSys o w) = (Return DHTLIB_OK, mkSys o (clock_read w)).
Proof.
  unfold elapsed. intros H Hw. cbn [wait_for_read].
  unfold bind, millis, field, platform, ret. cbn [this world]. rewrite H.
  cbn [this world]. rewrite Hw. reflexivity.
Qed.

(** The gate lets a caller that waits poll again after a [yield()]. *)
Lemma wait_for_read_again fuel o w :
  (elapsed o w <? _readDelay o) = true ->
  _waitForRead o = true ->
  wait_for_read (S fuel) (mkSys o w) =
  wait_for_read fuel (mkSys o (log EvYield (clock_read w))).
Proof.
  unfold elapsed. intros H Hw. cbn [wait_for_read].
  unfold bind, millis, field, platform, ret, yield. cbn [this world].
  rewrite H. cbn [this world]. rewrite Hw. reflexivity.
Qed.

(** Whatever the gate does, it leaves the object alone, adds only calls of
    [millis()] and [yield()] to the trace, and sends back only a caller that
    does not wait, with [DHTLIB_OK]. *)
Lemma wait_for_read_keeps fuel : forall o w r s1,
  wait_for_read fuel (mkSys o w) = (r, s1) ->
  r <> OutOfFuel ->
  this s1 = o /\
  (exists evs, trace (world s1) = evs ++ trace w /\
               forallb wait_event evs = true) /\
  (forall rv, r = Return rv -> rv = DHTLIB_OK /\ _waitForRead o = false).
Proof.
  induction fuel as [ | fuel IH]; intros o w r s1 H Hr.
  - cbn in H. injection H as <- <-. congruence.
  - destruct (elapsed o w <? _readDelay o) eqn:E.
    + destruct (_waitForRead o) eqn:Ew.
      * rewrite wait_for_read_again in H by assumption.
        destruct (IH _ _ _ _ H Hr) as (Ho & (evs & Htr & Hevs) & Hret).
        split; [assumption | split].
        -- exists (evs ++ [EvYield; EvMillis (u32 (millis_clock w (n_millis w)))]).
           rewrite Htr, <- app_assoc. split; [reflexivity | ].
           rewrite forallb_app, Hevs. reflexivity.
        -- intros rv ->. destruct (Hret rv eq_refl). congruence.
      * rewrite wait_for_read_throttled in H by assumption.
        injection H as <- <-. split; [reflexivity | split].
        -- eexists [_]; split; reflexivity.
        -- intros rv [= <-]. auto.
    + rewrite wait_for_read_open in H by assumption.
      injection H as <- <-. split; [reflexivity | split].
      * eexists [_]; split; reflexivity.
      * discriminate.
Qed.

(** A caller that waits gets through once the clock says so: when the
    interval has not elapsed at the first [k] polls and has at the next, any
    fuel above [k] is enough. *)
Lemma wait_for_read_blocking k : forall fuel o w,
  _waitForRead o = true ->
  (forall j, (j < k)%nat ->
     (u32 (u32 (millis_clock w (n_millis w + j)) - _lastRead o) <? _readDelay o)
     = true) ->
  (u32 (u32 (millis_clock w (n_millis w + k)) - _lastRead o) <? _readDelay o)
  = false ->
  (k < fuel)%nat ->
  exists w', wait_for_read fuel (mkSys o w) = (Value tt, mkSys o w') /\
             n_millis w' = (n_millis w + k + 1)%nat /\
             n_line w' = n_line w /\ n_micros w' = n_micros w.
Proof.
  induction k as [ | k IH]; intros fuel o w Hw Hbefore Hat Hfuel.
  - destruct fuel as [ | fuel]; [lia | ].
    rewrite Nat.add_0_r in Hat.
    rewrite wait_for_read_open by exact Hat.
    eexists; split; [reflexivity | ]. cbn. repeat split; lia.
  - destruct fuel as [ | fuel]; [lia | ].
    assert (H0 : (elapsed o w <? _readDelay o) = true).
    { unfold elapsed. specialize (Hbefore O ltac:(lia)).
      rewrite Nat.add_0_r in Hbefore. exact Hbefore. }
    rewrite wait_for_read_again by assumption.
    destruct (IH fuel o (log EvYield (clock_read w))) as (w' & E & Hn & Hl & Hm);
      try assumption; try lia.
    + intros j Hj. specialize (Hbefore (S j) ltac:(lia)).
      rewrite Nat.add_succ_r in Hbefore. exact Hbefore.
    + rewrite Nat.add_succ_r in Hat. exact Hat.
    + exists w'. split; [exact E | ]. cbn in Hn, Hl, Hm. repeat split; lia.
Qed.

Lemma delay_set_keeps o :
  _lastRead (delay_set o) = _lastRead o /\
  _type (delay_set o) = _type o /\
  _wakeupDelay (delay_set o) = _wakeupDelay o /\
  _waitForRead (delay_set o) = _waitForRead o /\
  _humidity (delay_set o) = _humidity o /\
  _temperature (delay_set o) = _temperature o.
Proof. unfold delay_set. destruct (_readDelay o =? 0); repeat split. Qed.

(** A [read] with a concrete variant whose gate is open is one [_read]. *)
Lemma read_known_open fuel o w :
  _type o <> Unknown ->
  gate_open o w ->
  read (S fuel) (mkSys o w) = _read (attempt_state o w).
Proof.
  intros Hty Hgate. rewrite read_known by assumption.
  rewrite wait_for_read_open; [reflexivity | ].
  unfold gate_open, elapsed in *.
  destruct (delay_set_keeps o) as (-> & _). exact Hgate.
Qed.

(** ** Helpers of the claims *)

(** What [constrain(x, 0, 100)] is, by the place of [x]. *)
Lemma constrain_cases x :
  (fltb x (int_to_float 0) = true ->
     constrain x (int_to_float 0) (int_to_float 100) = int_to_float 0) /\
  (fltb x (int_to_float 0) = false -> fltb (int_to_float 100) x = true ->
     constrain x (int_to_float 0) (int_to_float 100) = int_to_float 100) /\
  (fltb x (int_to_float 0) = false -> fltb (int_to_float 100) x = false ->
     constrain x (int_to_float 0) (int_to_float 100) = x).
Proof.
  unfold constrain. repeat split.
  - intros ->. reflexivity.
  - intros -> ->. reflexivity.
  - intros -> ->. reflexivity.
Qed.

Lemma constrain_in_0_100 x :
  fltb (int_to_float 0) (int_to_float 100) = true ->
  is_number x ->
  in_0_100 (constrain x (int_to_float 0) (int_to_float 100)).
Proof.
  intros Hlt Hx. unfold in_0_100, constrain.
  destruct (fltb x (int_to_float 0)) eqn:E0.
  - split; [exists (int_to_float 100); left; exact Hlt | ].
    split; [apply fltb_0_0 | apply fltb_100_0].
  - destruct (fltb (int_to_float 100) x) eqn:E100.
    + split; [exists (int_to_float 0); right; exact Hlt | ].
      split; [apply fltb_100_0 | apply fltb_100_100].
    + split; [exact Hx | split; assumption].
Qed.

(** Polling does not read the millisecond clock: the time that [_read]
    stores is the answer that [millis()] had ready when [_read] began. *)
Lemma time_of_read_polled s s1 :
  polled (polling_start s) s1 ->
  time_of_read s1 = u32 (millis_clock (world s) (n_millis (world s))).
Proof.
  intros Hp. unfold time_of_read.
  rewrite (polled_millis _ _ Hp), (polled_n_millis _ _ Hp). reflexivity.
Qed.

(** The object that the transport leaves is the object it found, but for
    the buffer. *)
Lemma this_polled s s1 :
  polled (polling_start s) s1 ->
  this s1 = set_bits (_bits (this s1)) (this s).
Proof.
  intros Hp. rewrite (polled_this _ _ Hp) at 1. destruct s as [[] ?]. reflexivity.
Qed.

Lemma _readSensor_polls s rv s1 :
  _readSensor s = (Value rv, s1) -> polled (polling_start s) s1.
Proof.
  intro H. destruct (_readSensor_returns s) as (rv' & s1' & E & Hp & _).
  rewrite H in E. injection E as <- <-. exact Hp.
Qed.

(** A [read] on a concrete variant keeps the variant and its wake-up delay,
    and sends no wake-up pulse or one, of that delay. *)
Lemma read_known_keeps fuel o w rv s' :
  _type o <> Unknown ->
  read fuel (mkSys o w) = (Value rv, s') ->
  _type (this s') = _type o /\
  _wakeupDelay (this s') = _wakeupDelay o /\
  (wakeup_pulses (trace (world s')) = wakeup_pulses (trace w) \/
   wakeup_pulses (trace (world s')) =
     u32 (_wakeupDelay o * 1100) :: wakeup_pulses (trace w)).
Proof.
  intros Hty H. rewrite read_known in H by assumption.
  destruct (delay_set_keeps o) as (_ & Et & Ew & _).
  assert (Hwait : forall evs tr, forallb wait_event evs = true ->
                    wakeup_pulses (evs ++ tr) = wakeup_pulses tr).
  { induction evs as [ | e evs IH]; intros tr Hevs; [reflexivity | ].
    apply andb_prop in Hevs as [He Hevs].
    destruct e; try discriminate; cbn; auto. }
  destruct (wait_for_read fuel (mkSys (delay_set o) w)) as [[[] | rv0 | ] s1] eqn:E.
  - destruct (wait_for_read_keeps _ _ _ _ _ E ltac:(discriminate))
      as (Ho & (evs & Htr & Hevs) & _).
    destruct (_read_keeps _ _ _ H) as (Hc & Hp).
    unfold config in Hc. injection Hc as _ Hwd Hty' _ _ _ _ _.
    rewrite Hty', Hwd, Ho, Et, Ew. repeat split.
    right. rewrite Hp, Ho, Ew, Htr, Hwait by assumption. reflexivity.
  - injection H as <- <-.
    destruct (wait_for_read_keeps _ _ _ _ _ E ltac:(discriminate))
      as (Ho & (evs & Htr & Hevs) & _).
    rewrite Ho, Et, Ew. repeat split.
    left. rewrite Htr. apply Hwait. assumption.
  - discriminate.
Qed.

Lemma reads_known_keep o rvs o' :
  reads o rvs o' ->
  _type o <> Unknown ->
  _type o' = _type o /\ _wakeupDelay o' = _wakeupDelay o.
Proof.
  induction 1 as [ | o fuel w rv o1 w1 rvs o2 Hread Hreads IH]; intro Hty.
  - split; reflexivity.
  - destruct (read_known_keeps _ _ _ _ _ Hty Hread) as (Et & Ew & _).
    cbn [this] in Et, Ew.
    destruct IH as (Et' & Ew'); [congruence | ]. split; congruence.
Qed.

Lemma reads_one fuel o w rv :
  fst (read fuel (mkSys o w)) = Value rv ->
  reads o [rv] (this (snd (read fuel (mkSys o w)))).
Proof.
  intro H. eapply reads_cons; [apply returns_eq; exact H | apply reads_nil].
Qed.

(** A [read] on the variant Unknown ends with a concrete variant when it
    returns [DHTLIB_OK], and with Unknown otherwise. *)
Lemma read_unknown_ends fuel o w rv s' :
  _type o = Unknown ->
  read fuel (mkSys o w) = (Value rv, s') ->
  (rv = DHTLIB_OK /\ known_variant (this s')) \/
  (rv <> DHTLIB_OK /\ _type (this s') = Unknown).
Proof.
  intros Hty H. rewrite read_unknown in H by assumption.
  destruct (_read_total (mkSys (detect_B (delay_set o)) w)) as (rvB & s1 & EB).
  rewrite EB in H.
  destruct (_read_keeps _ _ _ EB) as (HcB & _).
  unfold config in HcB. injection HcB as _ _ HtB _ _ _ _ _.
  destruct (status_eqb rvB DHTLIB_OK) eqn:EqB.
  - injection H as <- <-. left.
    split; [destruct rvB; try discriminate; reflexivity | ].
    right. rewrite HtB. reflexivity.
  - destruct (_read_total (mkSys (detect_A (this s1)) (world s1)))
      as (rvA & s2 & EA).
    rewrite EA in H.
    destruct (_read_keeps _ _ _ EA) as (HcA & _).
    unfold config in HcA. injection HcA as _ _ HtA _ _ _ _ _.
    destruct (status_eqb rvA DHTLIB_OK) eqn:EqA; injection H as <- <-.
    + left. split; [destruct rvA; try discriminate; reflexivity | ].
      left. rewrite HtA. reflexivity.
    + right. split; [intros ->; discriminate | ].
      destruct (this s2); reflexivity.
Qed.

(** [read] returns: always when the variant is Unknown, with any fuel but
    none when the caller does not wait, and with enough fuel for the clock to
    reach the read delay when the caller waits. *)
Lemma read_unknown_returns fuel o w :
  _type o = Unknown -> exists rv s', read fuel (mkSys o w) = (Value rv, s').
Proof.
  intro Hty. rewrite read_unknown by assumption.
  destruct (_read_total (mkSys (detect_B (delay_set o)) w)) as (rvB & s1 & ->).
  destruct (status_eqb rvB DHTLIB_OK); [eauto | ].
  destruct (_read_total (mkSys (detect_A (this s1)) (world s1)))
    as (rvA & s2 & ->).
  destruct (status_eqb rvA DHTLIB_OK); eauto.
Qed.

Lemma read_known_returns fuel o w :
  _type o <> Unknown ->
  _waitForRead o = false ->
  exists rv s', read (S fuel) (mkSys o w) = (Value rv, s').
Proof.
  intros Hty Hwait. rewrite read_known by assumption.
  destruct (delay_set_keeps o) as (_ & _ & _ & Hw & _).
  destruct (elapsed (delay_set o) w <? _readDelay (delay_set o)) eqn:E.
  - rewrite wait_for_read_throttled by congruence. eauto.
  - rewrite wait_for_read_open by assumption. apply _read_total.
Qed.

Lemma read_waiting_returns k fuel o w :
  _type o <> Unknown ->
  _waitForRead o = true ->
  (forall j, (j < k)%nat ->
     (u32 (u32 (millis_clock w (n_millis w + j)) - _lastRead o)
      <? _readDelay (delay_set o)) = true) ->
  (u32 (u32 (millis_clock w (n_millis w + k)) - _lastRead o)
   <? _readDelay (delay_set o)) = false ->
  (k < fuel)%nat ->
  exists rv s', read fuel (mkSys o w) = (Value rv, s').
Proof.
  intros Hty Hwait Hbefore Hat Hfuel. rewrite read_known by assumption.
  destruct (delay_set_keeps o) as (Hl & _ & _ & Hw & _).
  assert (Hblock : exists w', wait_for_read fuel (mkSys (delay_set o) w) =
                              (Value tt, mkSys (delay_set o) w')).
  { destruct (wait_for_read_blocking k fuel (delay_set o) w) as (w' & E & _).
    - congruence.
    - intros j Hj. rewrite Hl. auto.
    - rewrite Hl. assumption.
    - assumption.
    - eauto. }
  destruct Hblock as (w' & ->). apply _read_total.
Qed.

(** ** The frame and the [int] arithmetic of the decoding *)

(** The buffer has five bytes; [_readSensor] zeroes all of them before it
    samples the line. *)
Lemma emptied_five bits :
  length bits = 5%nat -> emptied bits = [0; 0; 0; 0; 0].
Proof.
  destruct bits as [ | b0 [ | b1 [ | b2 [ | b3 [ | b4 [ | b5 tl]]]]]];
    try discriminate. reflexivity.
Qed.

(** The frame that a transport leaves consists of five bytes, sampled bit by
    bit into the zeroed buffer. *)
Lemma frame_bytes s rv s1 :
  length (_bits (this s)) = 5%nat ->
  _readSensor s = (Value rv, s1) ->
  length (_bits (this s1)) = 5%nat /\ Forall byte (_bits (this s1)).
Proof.
  intros Hlen Hrs. pose proof (_readSensor_polls _ _ _ Hrs) as Hp.
  split.
  - rewrite (polled_length _ _ Hp). cbn [polling_start this]. unfold emptied.
    destruct s as [[] ?]. cbn [_bits set_bits this] in *.
    rewrite !store_at_length. exact Hlen.
  - apply (polled_bytes _ _ Hp). cbn [polling_start this].
    destruct s as [[] ?]. cbn [_bits set_bits this] in *.
    rewrite emptied_five by exact Hlen.
    repeat constructor; unfold byte; lia.
Qed.

Lemma byte_bit7_clear b : byte b -> Z.testbit b 7 = false -> b < 128.
Proof.
  unfold byte. intros Hb Hbit.
  destruct (Z_lt_ge_dec b 128) as [ | Hge]; [assumption | ].
  assert (Hdiv : b / 2 ^ 7 = 1).
  { change (2 ^ 7) with 128. symmetry. apply (Z.div_unique b 128 1 (b - 128)); lia. }
  assert (Ht : Z.testbit b 7 = true).
  { apply Z.testbit_true; [lia | ]. rewrite Hdiv. reflexivity. }
  congruence.
Qed.

(** On a board whose [int] has 16 bits, the integers that [_read] forms from
    a frame that passed [_readSensor] fit: the first byte is below 128, so
    [_bits[0] * 256 + _bits[1]] and [(_bits[2] & 0x7F) * 256 + _bits[3]] are
    at most 32767, and the sum of four bytes is at most 1020. *)
Lemma decoding_fits_int16 s s1 :
  length (_bits (this s)) = 5%nat ->
  _readSensor s = (Value DHTLIB_OK, s1) ->
  let b i := byte_at i (_bits (this s1)) in
  0 <= b 0 * 256 + b 1 <= 32767 /\
  0 <= Z.land (b 2) 127 * 256 + b 3 <= 32767 /\
  0 <= b 0 + b 1 + b 2 + b 3 <= 1020.
Proof.
  intros Hlen Hrs b.
  destruct (frame_bytes _ _ _ Hlen Hrs) as (_ & Hbytes).
  destruct (_readSensor_returns s) as (rv & s1' & E & _ & _ & Hbit).
  rewrite Hrs in E. injection E as <- <-. specialize (Hbit eq_refl).
  assert (H0 : byte (b 0)) by (apply byte_at_bytes; assumption).
  assert (H1 : byte (b 1)) by (apply byte_at_bytes; assumption).
  assert (H2 : byte (b 2)) by (apply byte_at_bytes; assumption).
  assert (H3 : byte (b 3)) by (apply byte_at_bytes; assumption).
  pose proof (byte_bit7_clear _ H0 Hbit) as Hlow.
  assert (Hland : 0 <= Z.land (b 2) 127 < 128).
  { change 127 with (Z.ones 7). rewrite Z.land_ones by lia.
    apply Z.mod_pos_bound. reflexivity. }
  unfold byte in *. lia.
Qed.

(** Changing one byte of a frame whose checksum is right makes the checksum
    wrong. *)
Lemma single_byte_mutation_breaks_checksum frame i v :
  length frame = 5%nat ->
  Forall byte frame ->
  byte v ->
  (i < 5)%nat ->
  v <> nth i frame 0 ->
  checksum_ok frame = true ->
  checksum_ok (store_at i v frame) = false.
Proof.
  intros Hlen Hbytes Hv Hi Hne Hok.
  destruct frame as [ | b0 [ | b1 [ | b2 [ | b3 [ | b4 [ | b5 tl]]]]]];
    try discriminate.
  repeat match goal with
         | H : Forall _ (_ :: _) |- _ => inversion H; clear H; subst
         end.
  unfold checksum_ok, byte_at, byte in *.
  apply Z.eqb_eq in Hok. apply Z.eqb_neq.
  change (Z.to_nat 0) with 0%nat in *. change (Z.to_nat 1) with 1%nat in *.
  change (Z.to_nat 2) with 2%nat in *. change (Z.to_nat 3) with 3%nat in *.
  change (Z.to_nat 4) with 4%nat in *.
  destruct i as [ | [ | [ | [ | [ | i]]]]]; try lia;
    cbn [nth store_at] in Hok, Hne |- *; Z.div_mod_to_equations; lia.
Qed.

(** ** The claims *)

(** C1: when the transport of an attempt has succeeded with a frame, the
    attempt, [_read], returns [DHTLIB_OK] if byte 4 of the frame equals the
    sum of the bytes 0 to 3 modulo 256 and [DHTLIB_ERROR_CHECKSUM] if it
    differs; in the second case the decoded humidity and temperature of the
    frame are in the object all the same.  A [read()] with a concrete variant
    and an open gate is this attempt.  A [read()] on the variant Unknown is
    the attempt when the attempt is its first and returns [DHTLIB_OK]; when
    its first attempt ends with [DHTLIB_ERROR_CHECKSUM], it returns the
    status of a second attempt instead; and when the attempt is its second,
    it returns the status of that attempt, and the values of that attempt are
    in the object. *)
Theorem C1_checksum_decides_the_status s s1 :
  _readSensor s = (Value DHTLIB_OK, s1) ->
  let frame := _bits (this s1) in
  let sum := (byte_at 0 frame + byte_at 1 frame + byte_at 2 frame
              + byte_at 3 frame) mod 256 in
  let after := this (snd (_read s)) in
  (byte_at 4 frame = sum -> fst (_read s) = Value DHTLIB_OK) /\
  (byte_at 4 frame <> sum ->
     fst (_read s) = Value DHTLIB_ERROR_CHECKSUM /\
     _bits after = frame /\
     _humidity after =
       constrain (fadd (spec_humidity (_type (this s)) frame) (_humOffset (this s)))
                 (int_to_float 0) (int_to_float 100) /\
     _temperature after =
       fadd (spec_temperature (_type (this s)) frame) (_tempOffset (this s))) /\
  (forall fuel o w,
     _type o <> Unknown -> gate_open o w -> s = attempt_state o w ->
     read (S fuel) (mkSys o w) = _read s) /\
  (forall fuel o w,
     _type o = Unknown -> s = mkSys (detect_B (delay_set o)) w ->
     (byte_at 4 frame = sum -> read fuel (mkSys o w) = _read s) /\
     (byte_at 4 frame <> sum ->
        fst (read fuel (mkSys o w)) =
        fst (_read (mkSys (detect_A after) (world (snd (_read s))))))) /\
  (forall fuel o w,
     _type o = Unknown ->
     fst (_read (mkSys (detect_B (delay_set o)) w)) <> Value DHTLIB_OK ->
     s = mkSys (detect_A (this (snd (_read (mkSys (detect_B (delay_set o)) w)))))
               (world (snd (_read (mkSys (detect_B (delay_set o)) w)))) ->
     fst (read fuel (mkSys o w)) = fst (_read s) /\
     (byte_at 4 frame = sum -> read fuel (mkSys o w) = _read s) /\
     (byte_at 4 frame <> sum ->
        _humidity (this (snd (read fuel (mkSys o w)))) = _humidity after /\
        _temperature (this (snd (read fuel (mkSys o w)))) = _temperature after)).
Proof.
  intros Hrs frame sum after.
  assert (Hthis : this s1 = set_bits frame (this s)).
  { destruct (_readSensor_returns s) as (rv & s1' & E & Hp & _).
    rewrite Hrs in E. injection E as <- <-.
    rewrite (polled_this _ _ Hp). destruct s as [[] ?]. reflexivity. }
  pose proof (_read_decoded _ _ Hrs) as Hdec.
  unfold checksum_ok in Hdec. fold frame in Hdec. fold sum in Hdec.
  split; [ | split; [ | split; [ | split]]].
  - intros E. rewrite Hdec, E, Z.eqb_refl. reflexivity.
  - intros Hne. apply Z.eqb_neq in Hne. subst after. rewrite Hdec, Hne.
    cbn [fst snd this]. split; [reflexivity | ].
    unfold interpreted. fold frame. rewrite Hthis.
    destruct s as [[] ?]. repeat split.
  - intros fuel o w Hty Hgate ->.
    rewrite read_known_open by assumption. reflexivity.
  - intros fuel o w Hty Hs.
    rewrite (read_unknown fuel o w Hty), <- Hs. split.
    + intros E. rewrite Hdec, E, Z.eqb_refl. reflexivity.
    + intros Hne. apply Z.eqb_neq in Hne. subst after.
      rewrite Hdec, Hne. cbn [fst snd this world status_eqb].
      match goal with
      | |- context [_read ?x] =>
          destruct (_read_total x) as (rvA & s2 & EA); rewrite EA
      end.
      destruct (status_eqb rvA DHTLIB_OK); reflexivity.
  - intros fuel o w Hty Hfirst Hs.
    rewrite (read_unknown fuel o w Hty).
    destruct (_read_total (mkSys (detect_B (delay_set o)) w)) as (rvB & sb & EB).
    rewrite EB in Hfirst, Hs |- *. cbn [fst snd] in Hfirst, Hs.
    assert (ENB : status_eqb rvB DHTLIB_OK = false).
    { destruct rvB; try reflexivity. congruence. }
    rewrite ENB, <- Hs. subst after. rewrite Hdec.
    destruct (byte_at 4 frame =? sum) eqn:E; cbn [fst snd this status_eqb].
    + split; [reflexivity | ]. split; [reflexivity | ].
      apply Z.eqb_eq in E. intro Hne. contradiction.
    + split; [reflexivity | ]. split.
      * apply Z.eqb_neq in E. intro He. contradiction.
      * intros _. split; reflexivity.
Qed.

(** C4: after a transport that succeeded, [_read] stores the humidity and
    the temperature of the frame by the formulas of the variant.  For VariantB
    the humidity is [(byte0 * 256 + byte1) * 0.1] and the magnitude of the
    temperature [((byte2 & 0x7F) * 256 + byte3) * 0.1]; otherwise they are
    [byte0 + byte1 * 0.1] and [byte2 + byte3 * 0.1]; for both variants the
    temperature is the negated magnitude when bit 7 of byte 2 is set.  What is
    stored is the humidity plus its offset, constrained, and the temperature
    plus its offset. *)
Theorem C4_interpretation_formulas s s1 :
  _readSensor s = (Value DHTLIB_OK, s1) ->
  let b i := byte_at i (_bits (this s1)) in
  let after := this (snd (_read s)) in
  let humidity :=
    if _type (this s) =? VariantB
    then double_to_float (dmul (int_to_double (b 0 * 256 + b 1)) lit_0_1)
    else double_to_float
           (dadd (int_to_double (b 0)) (dmul (int_to_double (b 1)) lit_0_1)) in
  let magnitude :=
    if _type (this s) =? VariantB
    then double_to_float
           (dmul (int_to_double (Z.land (b 2) 127 * 256 + b 3)) lit_0_1)
    else double_to_float
           (dadd (int_to_double (b 2)) (dmul (int_to_double (b 3)) lit_0_1)) in
  let temperature := if Z.testbit (b 2) 7 then fneg magnitude else magnitude in
  _humidity after =
    constrain (fadd humidity (_humOffset (this s)))
              (int_to_float 0) (int_to_float 100) /\
  _temperature after = fadd temperature (_tempOffset (this s)).
Proof.
  intros Hrs b after humidity magnitude temperature.
  pose proof (this_polled _ _ (_readSensor_polls _ _ _ Hrs)) as Hthis.
  subst after. rewrite (_read_decoded _ _ Hrs). cbn [snd this].
  unfold interpreted. rewrite Hthis. destruct s as [[] ?].
  split; reflexivity.
Qed.

(** C5: after a transport that succeeded, the humidity in the object is the
    raw humidity of the frame plus the humidity offset, clamped to 0..100:
    it is 0 when that sum is below 0, it is 100 when the sum is above 100, and
    it is the sum itself otherwise; so it lies in [[0, 100]] whenever the sum
    is a number.  The temperature is the raw temperature plus the
    temperature offset, not clamped.  The raw values depend on the frame and
    the variant only, so each offset enters once; the offsets themselves stay
    as they were; and the status is decided by the bytes of the frame
    alone. *)
Theorem C5_offsets_and_clamp s s1 :
  _readSensor s = (Value DHTLIB_OK, s1) ->
  let frame := _bits (this s1) in
  let variant := _type (this s) in
  let after := this (snd (_read s)) in
  let sum := fadd (spec_humidity variant frame) (_humOffset (this s)) in
  (fltb sum (int_to_float 0) = true -> _humidity after = int_to_float 0) /\
  (fltb sum (int_to_float 0) = false -> fltb (int_to_float 100) sum = true ->
     _humidity after = int_to_float 100) /\
  (fltb sum (int_to_float 0) = false -> fltb (int_to_float 100) sum = false ->
     _humidity after = sum) /\
  (fltb (int_to_float 0) (int_to_float 100) = true -> is_number sum ->
     in_0_100 (_humidity after)) /\
  _temperature after =
    fadd (spec_temperature variant frame) (_tempOffset (this s)) /\
  _humOffset after = _humOffset (this s) /\
  _tempOffset after = _tempOffset (this s) /\
  fst (_read s) =
    Value (if checksum_ok frame then DHTLIB_OK else DHTLIB_ERROR_CHECKSUM).
Proof.
  intros Hrs frame variant after sum.
  pose proof (this_polled _ _ (_readSensor_polls _ _ _ Hrs)) as Hthis.
  assert (Hh : _humidity after =
               constrain sum (int_to_float 0) (int_to_float 100)).
  { subst after sum. rewrite (_read_decoded _ _ Hrs). cbn [snd this].
    unfold interpreted. rewrite Hthis. subst frame variant.
    destruct s as [[] ?]. reflexivity. }
  destruct (constrain_cases sum) as (Hlow & Hhigh & Hmid).
  split; [intro H; rewrite Hh; apply Hlow; exact H | ].
  split; [intros H H'; rewrite Hh; apply Hhigh; assumption | ].
  split; [intros H H'; rewrite Hh; apply Hmid; assumption | ].
  split; [intros H H'; rewrite Hh; apply constrain_in_0_100; assumption | ].
  clear Hh Hlow Hhigh Hmid.
  subst after. rewrite (_read_decoded _ _ Hrs). cbn [fst snd this].
  unfold interpreted. rewrite Hthis. subst frame variant.
  destruct s as [[] ?]. cbn.
  repeat split; reflexivity.
Qed.

(** C6: a [read()] on a concrete variant that does not wait and comes
    before the read delay has elapsed returns [DHTLIB_OK] at once: humidity,
    temperature, the time of the last read and the buffer are as before, the
    only call of the platform is the one [millis()] of the gate, and nothing
    was read from the line or from the microsecond clock. *)
Theorem C6_throttled_read fuel o w :
  _type o <> Unknown ->
  _waitForRead o = false ->
  elapsed o w < _readDelay (delay_set o) ->
  let r := read (S fuel) (mkSys o w) in
  fst r = Value DHTLIB_OK /\
  _humidity (this (snd r)) = _humidity o /\
  _temperature (this (snd r)) = _temperature o /\
  _lastRead (this (snd r)) = _lastRead o /\
  _bits (this (snd r)) = _bits o /\
  trace (world (snd r)) = EvMillis (u32 (millis_clock w (n_millis w))) :: trace w /\
  filter pin_event [EvMillis (u32 (millis_clock w (n_millis w)))] = [] /\
  n_line (world (snd r)) = n_line w /\
  n_micros (world (snd r)) = n_micros w.
Proof.
  intros Hty Hwait Hlt r. subst r.
  rewrite read_known by assumption.
  rewrite wait_for_read_throttled.
  - cbn [fst snd this world]. unfold delay_set.
    destruct (_readDelay o =? 0); repeat split.
  - apply Z.ltb_lt. unfold elapsed in *.
    destruct (delay_set_keeps o) as (-> & _). exact Hlt.
  - destruct (delay_set_keeps o) as (_ & _ & _ & -> & _). exact Hwait.
Qed.

(** C7: [_read] stores the time of the attempt whether the transport
    succeeded or failed; when the transport fails, [_read] returns the code of
    the failure, and the humidity and the temperature become the invalid
    value, unless errors are suppressed: then both stay as they were.  A
    [read()] with a concrete variant and an open gate is this [_read]. *)
Theorem C7_transport_failure s rv s1 :
  _readSensor s = (Value rv, s1) ->
  let after := this (snd (_read s)) in
  _lastRead after = u32 (millis_clock (world s) (n_millis (world s))) /\
  (rv <> DHTLIB_OK ->
     fst (_read s) = Value rv /\
     (_suppressError (this s) = false ->
        _humidity after = DHTLIB_INVALID_VALUE /\
        _temperature after = DHTLIB_INVALID_VALUE) /\
     (_suppressError (this s) = true ->
        _humidity after = _humidity (this s) /\
        _temperature after = _temperature (this s)) /\
     (forall fuel o w,
        _type o <> Unknown -> gate_open o w -> s = attempt_state o w ->
        read (S fuel) (mkSys o w) = _read s)).
Proof.
  intros Hrs after.
  pose proof (_readSensor_polls _ _ _ Hrs) as Hp.
  pose proof (this_polled _ _ Hp) as Hthis.
  pose proof (time_of_read_polled _ _ Hp) as Htime.
  split.
  - subst after. destruct (_read_spec s) as (rv' & s1' & E & _ & _ & _ & ->).
    rewrite Hrs in E. injection E as <- <-. cbn [snd this].
    rewrite Htime, Hthis. unfold interpreted, invalidated.
    destruct (status_eqb rv DHTLIB_OK); [destruct s as [[] ?]; reflexivity | ].
    destruct s as [[? ? ? ? ? ? ? ? ? [ | ] ? ?] ?]; reflexivity.
  - intro Hrv. pose proof (_read_failed _ _ _ Hrs Hrv) as Hread.
    split; [rewrite Hread; reflexivity | ].
    split; [ | split].
    + intro Hs. subst after. rewrite Hread. cbn [snd this].
      rewrite Hthis. unfold invalidated.
      destruct s as [[] ?]. cbn in Hs |- *. rewrite Hs. split; reflexivity.
    + intro Hs. subst after. rewrite Hread. cbn [snd this].
      rewrite Hthis. unfold invalidated.
      destruct s as [[] ?]. cbn in Hs |- *. rewrite Hs. split; reflexivity.
    + intros fuel o w Hty Hgate ->. apply read_known_open; assumption.
Qed.

(** C8: when [_readSensor] has sampled a whole frame and bit 7 of its first
    byte is set, it returns [DHTLIB_ERROR_BIT_SHIFT], and so does [_read],
    whatever byte 4 is: the status is not [DHTLIB_ERROR_CHECKSUM], and the
    values in the object are not decoded from the frame but invalid, or, when
    errors are suppressed, as they were.  A [read()] with a concrete variant
    and an open gate is this [_read]. *)
Theorem C8_bit_shift s s1 :
  sample_frame s = (Value tt, s1) ->
  Z.testbit (byte_at 0 (_bits (this s1))) 7 = true ->
  let after := this (snd (_read s)) in
  _readSensor s = (Value DHTLIB_ERROR_BIT_SHIFT, s1) /\
  fst (_read s) = Value DHTLIB_ERROR_BIT_SHIFT /\
  fst (_read s) <> Value DHTLIB_ERROR_CHECKSUM /\
  _humidity after =
    (if _suppressError (this s) then _humidity (this s) else DHTLIB_INVALID_VALUE) /\
  _temperature after =
    (if _suppressError (this s) then _temperature (this s)
     else DHTLIB_INVALID_VALUE) /\
  (forall fuel o w,
     _type o <> Unknown -> gate_open o w -> s = attempt_state o w ->
     fst (read (S fuel) (mkSys o w)) = Value DHTLIB_ERROR_BIT_SHIFT).
Proof.
  intros Hsample Hbit after.
  assert (Hrs : _readSensor s = (Value DHTLIB_ERROR_BIT_SHIFT, s1))
    by (rewrite _readSensor_eq, Hsample, Hbit; reflexivity).
  assert (Hread : _read s =
                  (Value DHTLIB_ERROR_BIT_SHIFT,
                   mkSys (invalidated (time_of_read s1) (this s1))
                         (released (_dataPin (this s1)) (world s1))))
    by (apply _read_failed; [assumption | discriminate]).
  pose proof (this_polled _ _ (_readSensor_polls _ _ _ Hrs)) as Hthis.
  subst after. rewrite Hread. cbn [fst snd this].
  split; [assumption | split; [reflexivity | split; [discriminate | ]]].
  split; [ | split].
  - rewrite Hthis. unfold invalidated.
    destruct s as [[? ? ? ? ? ? ? ? ? [ | ] ? ?] ?]; reflexivity.
  - rewrite Hthis. unfold invalidated.
    destruct s as [[? ? ? ? ? ? ? ? ? [ | ] ? ?] ?]; reflexivity.
  - intros fuel o w Hty Hgate E. rewrite read_known_open by assumption.
    rewrite <- E, Hread. reflexivity.
Qed.

(** C10: [powerUp()] sets the line high and performs a [read()]: the object
    and the world after it are those after that [read()], and its result is
    the same for every status of the [read()]. *)
Theorem C10_powerUp_discards_status fuel s :
  let r := read fuel (mkSys (this s) (powered (_dataPin (this s)) (world s))) in
  powerUp fuel s =
  (match fst r with
   | Value _ => Value tt
   | Return _ => Value tt
   | OutOfFuel => OutOfFuel
   end, snd r).
Proof.
  intro r. subst r. unfold powerUp, procedure, powered.
  unfold bind at 1. unfold field at 1. unfold bind at 1.
  unfold digitalWrite, platform. cbn [world this].
  unfold bind at 1.
  destruct (read fuel _) as [[rv | rv | ] s']; reflexivity.
Qed.

(** C2: a [read()] on the variant Unknown first makes a full attempt with the
    settings of VariantB (type 22, a wake-up pulse of 1100 microseconds).  If
    that attempt returns [DHTLIB_OK], so does [read()], and the variant stays
    VariantB.  Otherwise [read()] makes exactly one more attempt, with the
    settings of VariantA (type 11, a wake-up pulse of 19800 microseconds), and
    returns its status: the variant stays VariantA if that is [DHTLIB_OK] and
    is Unknown again if not.  After a detection that succeeded, every later
    [read()] leaves the variant and its wake-up delay as they are and sends
    at most one wake-up pulse, of the length of that variant. *)
Theorem C2_detection fuel o w :
  _type o = Unknown ->
  let first := _read (mkSys (detect_B (delay_set o)) w) in
  let second := _read (mkSys (detect_A (this (snd first))) (world (snd first))) in
  let r := read fuel (mkSys o w) in
  (exists rv, fst r = Value rv) /\
  wakeup_pulses (trace (world (snd first))) = 1100 :: wakeup_pulses (trace w) /\
  (fst first = Value DHTLIB_OK ->
     r = first /\
     _type (this (snd r)) = VariantB /\
     _wakeupDelay (this (snd r)) = DHTLIB_DHT_WAKEUP) /\
  (fst first <> Value DHTLIB_OK ->
     wakeup_pulses (trace (world (snd r))) =
       19800 :: 1100 :: wakeup_pulses (trace w) /\
     fst r = fst second /\
     (fst second = Value DHTLIB_OK ->
        r = second /\
        _type (this (snd r)) = VariantA /\
        _wakeupDelay (this (snd r)) = DHTLIB_DHT11_WAKEUP) /\
     (fst second <> Value DHTLIB_OK -> _type (this (snd r)) = Unknown)) /\
  (fst r = Value DHTLIB_OK ->
     let locked := this (snd r) in
     forall rvs o', reads locked rvs o' ->
       _type o' = _type locked /\
       _wakeupDelay o' = _wakeupDelay locked /\
       forall fuel' w' rv' s',
         read fuel' (mkSys o' w') = (Value rv', s') ->
         wakeup_pulses (trace (world s')) = wakeup_pulses (trace w') \/
         wakeup_pulses (trace (world s')) =
           u32 (_wakeupDelay locked * 1100) :: wakeup_pulses (trace w')).
Proof.
  intros Hty first second r.
  destruct (_read_total (mkSys (detect_B (delay_set o)) w)) as (rvB & s1 & EB).
  destruct (_read_total (mkSys (detect_A (this s1)) (world s1)))
    as (rvA & s2 & EA).
  destruct (_read_keeps _ _ _ EB) as (HcB & HpB).
  destruct (_read_keeps _ _ _ EA) as (HcA & HpA).
  unfold config in HcB, HcA.
  injection HcB as _ HwB HtB _ _ _ _ _. injection HcA as _ HwA HtA _ _ _ _ _.
  cbn [this world] in HpB, HpA. rewrite HpB in HpA.
  assert (Er : r =
               if status_eqb rvB DHTLIB_OK then (Value rvB, s1)
               else if status_eqb rvA DHTLIB_OK then (Value rvA, s2)
                    else (Value rvA, mkSys (set_type 0 (this s2)) (world s2))).
  { subst r. rewrite read_unknown, EB, EA by assumption. reflexivity. }
  assert (Hknown : forall s0 : Sys,
            _type (this s0) <> Unknown ->
            forall rvs o', reads (this s0) rvs o' ->
              _type o' = _type (this s0) /\
              _wakeupDelay o' = _wakeupDelay (this s0) /\
              forall fuel' w' rv' s',
                read fuel' (mkSys o' w') = (Value rv', s') ->
                wakeup_pulses (trace (world s')) = wakeup_pulses (trace w') \/
                wakeup_pulses (trace (world s')) =
                  u32 (_wakeupDelay (this s0) * 1100) :: wakeup_pulses (trace w')).
  { intros s0 Hs0 rvs o' Hreads.
    destruct (reads_known_keep _ _ _ Hreads Hs0) as (Et & Ew).
    split; [assumption | split; [assumption | ]].
    intros fuel' w' rv' s' Hread.
    destruct (read_known_keeps fuel' o' w' rv' s') as (_ & _ & Hpulses);
      [congruence | assumption | ].
    rewrite <- Ew. exact Hpulses. }
  assert (Hreturns : exists rv, fst r = Value rv).
  { rewrite Er. destruct (status_eqb rvB DHTLIB_OK); [cbn; eauto | ].
    destruct (status_eqb rvA DHTLIB_OK); cbn; eauto. }
  split; [exact Hreturns | clear Hreturns].
  clearbody r. subst first second r. rewrite EB. cbn [fst snd]. rewrite EA.
  cbn [fst snd].
  split; [exact HpB | ].
  destruct (status_eqb rvB DHTLIB_OK) eqn:EqB.
  - assert (rvB = DHTLIB_OK) by (destruct rvB; try discriminate; reflexivity).
    subst rvB. cbn [fst snd].
    split; [intros _; repeat split; assumption | ].
    split; [intros Hne; congruence | ].
    intros _ locked. apply Hknown. rewrite HtB. discriminate.
  - assert (HneB : Value rvB <> Value DHTLIB_OK :> Res Status)
      by (intros [= ->]; discriminate).
    split; [intros HB; congruence | ].
    destruct (status_eqb rvA DHTLIB_OK) eqn:EqA.
    + assert (rvA = DHTLIB_OK) by (destruct rvA; try discriminate; reflexivity).
      subst rvA. cbn [fst snd].
      split.
      * intros _. split; [exact HpA | ].
        split; [reflexivity | ].
        split; [intros _; repeat split; assumption | congruence].
      * intros _ locked. apply Hknown. rewrite HtA. discriminate.
    + assert (HneA : Value rvA <> Value DHTLIB_OK :> Res Status)
        by (intros [= ->]; discriminate).
      cbn [fst snd this world].
      split.
      * intros _. split; [exact HpA | ].
        split; [reflexivity | ].
        split; [congruence | ].
        intros _. destruct (this s2); reflexivity.
      * intros HA. congruence.
Qed.

(** C3, as amended: the variant starts Unknown; a [read()] that starts with
    the variant Unknown ends with a concrete variant when it returns
    [DHTLIB_OK] and with Unknown otherwise; once the variant is concrete, it
    stays at that value under every sequence of [read()] calls, whether they
    succeed or fail; so no sequence of [read()] calls takes it from one
    concrete value to the other. *)
Theorem C3_variant_discipline :
  (forall pin bits s, _type (this (snd (construct pin bits s))) = Unknown) /\
  (forall o rv o',
     _type o = Unknown -> reads o [rv] o' ->
     (rv = DHTLIB_OK /\ known_variant o') \/
     (rv <> DHTLIB_OK /\ _type o' = Unknown)) /\
  (forall o rvs o',
     _type o <> Unknown -> reads o rvs o' -> _type o' = _type o) /\
  (forall o rvs o',
     reads o rvs o' ->
     ~ (_type o = VariantA /\ _type o' = VariantB) /\
     ~ (_type o = VariantB /\ _type o' = VariantA)).
Proof.
  split; [ | split; [ | split]].
  - intros pin bits s. reflexivity.
  - intros o rv o' Hty Hreads.
    inversion Hreads as [ | o0 fuel w rv0 o1 w1 rvs o2 Hread Hrest]; subst.
    inversion Hrest; subst.
    apply (read_unknown_ends _ _ _ _ _ Hty Hread).
  - intros o rvs o' Hty Hreads.
    apply (reads_known_keep _ _ _ Hreads Hty).
  - intros o rvs o' Hreads.
    split; intros [Ho Ho'].
    + destruct (reads_known_keep _ _ _ Hreads) as (Et & _);
        [rewrite Ho; discriminate | ].
      rewrite Ho, Ho' in Et. discriminate.
    + destruct (reads_known_keep _ _ _ Hreads) as (Et & _);
        [rewrite Ho; discriminate | ].
      rewrite Ho, Ho' in Et. discriminate.
Qed.

End Reasoning.

(** ** The claims at concrete inputs *)

Section IEEE.

#[local] Existing Instance ieee_arith.
#[local] Existing Instance ieee_macros.

(** C1, as a rule about every [read()], fails: the first transport of the
    first [read()] of [mySensor] succeeds with a frame whose byte 4 is 100
    while the bytes 0 to 3 sum to 99; the second attempt of the detection
    finds the sensor silent, and [read()] returns
    [DHTLIB_ERROR_SENSOR_NOT_READY], with the invalid value as humidity, not
    [DHTLIB_ERROR_CHECKSUM]. *)
Lemma C1_checksum_error_is_retried :
  _type mySensor = Unknown /\
  fst (_readSensor
         (mkSys (detect_B (delay_set mySensor))
                (one_answer_world [2; 92; 1; 4; 100] (clock_at 3000))))
  = Value DHTLIB_OK /\
  _bits (this (snd (_readSensor
         (mkSys (detect_B (delay_set mySensor))
                (one_answer_world [2; 92; 1; 4; 100] (clock_at 3000))))))
  = [2; 92; 1; 4; 100] /\
  fst (read 0 (mkSys mySensor
                 (one_answer_world [2; 92; 1; 4; 100] (clock_at 3000))))
  = Value DHTLIB_ERROR_SENSOR_NOT_READY /\
  _humidity (this (snd (read 0 (mkSys mySensor
                 (one_answer_world [2; 92; 1; 4; 100] (clock_at 3000))))))
  = DHTLIB_INVALID_VALUE /\
  ~ checksum_decides_read mySensor
      (one_answer_world [2; 92; 1; 4; 100] (clock_at 3000)).
Proof.
  split; [reflexivity | ].
  split; [vm_compute; reflexivity | ].
  split; [vm_compute; reflexivity | ].
  split; [vm_compute; reflexivity | ].
  split; [vm_compute; reflexivity | ].
  intro Hrule.
  specialize (Hrule 0%nat
                (snd (_readSensor
                        (mkSys (detect_B (delay_set mySensor))
                               (one_answer_world [2; 92; 1; 4; 100]
                                  (clock_at 3000)))))
                eq_refl).
  assert (Hst : fst (read 0 (mkSys mySensor
                       (one_answer_world [2; 92; 1; 4; 100] (clock_at 3000))))
                = Value DHTLIB_ERROR_CHECKSUM).
  { transitivity
      (Value (A := Status)
         (if checksum_ok
               (_bits (this (snd (_readSensor
                  (mkSys (detect_B (delay_set mySensor))
                         (one_answer_world [2; 92; 1; 4; 100]
                            (clock_at 3000)))))))
          then DHTLIB_OK else DHTLIB_ERROR_CHECKSUM)).
    - apply Hrule. apply outcome_eq. vm_compute. reflexivity.
    - vm_compute. reflexivity. }
  vm_compute in Hst. discriminate.
Qed.

(** A frame whose byte 4 is 100 while the bytes 0 to 3 sum to 99. *)
Lemma C1_checksum_witness :
  let w := sensor_world [2; 92; 1; 4; 100] (clock_at 5000) in
  let s := attempt_state lockedB w in
  fst (_read s) = Value DHTLIB_ERROR_CHECKSUM /\
  _bits (this (snd (_read s))) = [2; 92; 1; 4; 100] /\
  fst (read 1 (mkSys lockedB w)) = Value DHTLIB_ERROR_CHECKSUM.
Proof.
  intros w s.
  destruct (C1_checksum_decides_the_status s (snd (_readSensor s)))
    as (_ & Hbad & Hread & _).
  { apply outcome_eq. vm_compute. reflexivity. }
  destruct Hbad as (Hst & Hbits & _).
  { vm_compute. discriminate. }
  split; [exact Hst | split].
  - rewrite Hbits. vm_compute. reflexivity.
  - rewrite (Hread 0%nat lockedB w); [exact Hst | | | reflexivity].
    + vm_compute. discriminate.
    + vm_compute. reflexivity.
Defined.

(** A fresh object, a sensor that misses the first wake-up pulse (400 polls
    on a 16 MHz board) and then sends a VariantA frame. *)
Lemma C2_detection_witness :
  let w := late_sensor_world 400 [40; 0; 25; 3; 68] (clock_at 3000) in
  let r := read 0 (mkSys mySensor w) in
  fst r = Value DHTLIB_OK /\
  _type (this (snd r)) = VariantA /\
  _wakeupDelay (this (snd r)) = DHTLIB_DHT11_WAKEUP /\
  wakeup_pulses (trace (world (snd r))) = [19800; 1100].
Proof.
  intros w r.
  destruct (C2_detection 0 mySensor w eq_refl) as (_ & _ & _ & Hretry & _).
  destruct Hretry as (Hpulses & Hfst & HokA & _).
  { vm_compute. discriminate. }
  destruct HokA as (Hr & Hty & Hwd).
  { vm_compute. reflexivity. }
  fold r in Hpulses, Hfst, Hr, Hty, Hwd.
  split; [rewrite Hfst; vm_compute; reflexivity | ].
  split; [exact Hty | split; [exact Hwd | exact Hpulses]].
Defined.

(** The frame of the example: byte 2 is 0x80 and byte 3 is 0x32, for a
    VariantB object without offsets; the temperature is -5.0. *)
Lemma C4_minus_five_witness :
  let s := mkSys lockedB (sensor_world [0; 0; 128; 50; 178] (clock_at 6000)) in
  _temperature (this (snd (_read s))) = b32_of_Z (-5) /\
  _humidity (this (snd (_read s))) = b32_of_Z 0.
Proof.
  intro s.
  destruct (C4_interpretation_formulas s (snd (_readSensor s))) as (Hh & Ht).
  { apply outcome_eq. vm_compute. reflexivity. }
  split; [rewrite Ht | rewrite Hh]; vm_compute; reflexivity.
Defined.

(** A VariantB object whose read delay has not elapsed: the last read was at
    3000, the clock shows 4000. *)
Lemma C6_throttled_witness :
  let w := sensor_world good_frame (clock_at 4000) in
  let r := read 1 (mkSys lockedB w) in
  fst r = Value DHTLIB_OK /\
  _humidity (this (snd r)) = _humidity lockedB /\
  _lastRead (this (snd r)) = 3000 /\
  trace (world (snd r)) = [EvMillis 4000].
Proof.
  intros w r.
  destruct (C6_throttled_read 0 lockedB w) as (Hst & Hh & _ & Hl & _ & Htr & _).
  - vm_compute. discriminate.
  - vm_compute. reflexivity.
  - vm_compute. reflexivity.
  - fold r in Hst, Hh, Hl, Htr.
    split; [exact Hst | split; [exact Hh | split; [exact Hl | exact Htr]]].
Defined.

(** No sensor on the line: the transport fails, the values become -999 and
    the time is stored all the same. *)
Lemma C7_no_sensor_witness :
  let w := idle_world (clock_at 9000) in
  let s := attempt_state lockedB w in
  fst (read 1 (mkSys lockedB w)) = Value DHTLIB_ERROR_SENSOR_NOT_READY /\
  _lastRead (this (snd (_read s))) = 9000 /\
  _humidity (this (snd (_read s))) = b32_of_Z (-999) /\
  _temperature (this (snd (_read s))) = b32_of_Z (-999).
Proof.
  intros w s.
  destruct (C7_transport_failure s DHTLIB_ERROR_SENSOR_NOT_READY
              (snd (_readSensor s))) as (Hlast & Hfail).
  { apply outcome_eq. vm_compute. reflexivity. }
  destruct Hfail as (Hst & Hinvalid & _ & Hread); [discriminate | ].
  destruct Hinvalid as (Hh & Ht); [vm_compute; reflexivity | ].
  split; [ | split; [exact Hlast | split; [exact Hh | exact Ht]]].
  rewrite (Hread 0%nat lockedB w); [exact Hst | | | reflexivity].
  - vm_compute. discriminate.
  - vm_compute. reflexivity.
Defined.

(** A frame whose first byte is 0x82 and whose checksum is right. *)
Lemma C8_bit_shift_witness :
  let w := sensor_world [130; 0; 0; 0; 130] (clock_at 9000) in
  let s := attempt_state lockedB w in
  checksum_ok (_bits (this (snd (_readSensor s)))) = true /\
  fst (_read s) = Value DHTLIB_ERROR_BIT_SHIFT /\
  fst (read 1 (mkSys lockedB w)) = Value DHTLIB_ERROR_BIT_SHIFT.
Proof.
  intros w s.
  destruct (C8_bit_shift s (snd (sample_frame s)))
    as (_ & Hst & _ & _ & _ & Hread).
  - apply outcome_eq. vm_compute. reflexivity.
  - vm_compute. reflexivity.
  - split; [vm_compute; reflexivity | split; [exact Hst | ]].
    apply Hread; [vm_compute; discriminate | vm_compute; reflexivity | reflexivity].
Defined.

(** C3, as the specification words it, fails: [mySensor] is determined as
    VariantB by a first [read()]; a second [read()] finds no sensor and fails,
    and the variant is VariantB still, not Unknown. *)
Lemma C3_failed_read_keeps_variant :
  reads mySensor [DHTLIB_OK] lockedB /\
  known_variant lockedB /\
  ~ failed_read_resets lockedB.
Proof.
  split; [ | split].
  - unfold lockedB. apply reads_one. vm_compute. reflexivity.
  - right. vm_compute. reflexivity.
  - intro Hreset.
    assert (Hreads : reads lockedB [DHTLIB_ERROR_SENSOR_NOT_READY]
                       (this (snd (read 1 (mkSys lockedB
                                             (idle_world (clock_at 9000)))))))
      by (apply reads_one; vm_compute; reflexivity).
    specialize (Hreset _ _ Hreads ltac:(discriminate)).
    vm_compute in Hreset. discriminate.
Qed.

(** The amended claim at the same reads: the failed [read()] leaves the
    variant at VariantB. *)
Lemma C3_variant_witness :
  reads lockedB [DHTLIB_ERROR_SENSOR_NOT_READY]
        (this (snd (read 1 (mkSys lockedB (idle_world (clock_at 9000)))))) /\
  _type (this (snd (read 1 (mkSys lockedB (idle_world (clock_at 9000))))))
  = VariantB.
Proof.
  destruct C3_variant_discipline as (_ & _ & Hsticky & _).
  assert (Hreads : reads lockedB [DHTLIB_ERROR_SENSOR_NOT_READY]
                     (this (snd (read 1 (mkSys lockedB
                                           (idle_world (clock_at 9000)))))))
    by (apply reads_one; vm_compute; reflexivity).
  split; [exact Hreads | ].
  assert (Hknown : _type lockedB <> Unknown) by (vm_compute; discriminate).
  transitivity (_type lockedB).
  - exact (Hsticky lockedB [DHTLIB_ERROR_SENSOR_NOT_READY] _ Hknown Hreads).
  - vm_compute. reflexivity.
Defined.

(** C9 fails on the code: [mySensor], whose read delay is 0, detects a
    VariantA sensor by its first [read()], and its read delay is 2000 then,
    not 1000. *)
Lemma C9_autodetected_VariantA_waits_2000 :
  let w := late_sensor_world 400 [40; 0; 25; 3; 68] (clock_at 3000) in
  let r := read 0 (mkSys mySensor w) in
  _type mySensor = Unknown /\
  _readDelay mySensor = 0 /\
  fst r = Value DHTLIB_OK /\
  _type (this (snd r)) = VariantA /\
  _readDelay (this (snd r)) = DHTLIB_DHT22_READ_DELAY /\
  _readDelay (this (snd r)) <> DHTLIB_DHT11_READ_DELAY.
Proof.
  intros w r. vm_compute. repeat split; discriminate.
Qed.

(** In IEEE arithmetic the frame 02 5C 01 04 decodes to the binary32 numbers
    next to 60.4 and to 26.0, and a humidity of 60.0 with an offset of 50 is
    constrained to 100. *)
Example ieee_humidity_60_4 :
  spec_humidity VariantB good_frame = SFdiv 24 128 (b32_of_Z 604) (b32_of_Z 10) /\
  spec_temperature VariantB good_frame = b32_of_Z 26 /\
  constrain (fadd (spec_humidity VariantB [2; 88; 1; 4; 95]) (b32_of_Z 50))
            (b32_of_Z 0) (b32_of_Z 100) = b32_of_Z 100.
Proof. repeat split; vm_compute; reflexivity. Qed.

(** The comparison of IEEE numbers: swapping the arguments swaps the
    answer, and there is no answer only when an argument is not a number. *)
Lemma SFcompare_antisym x y :
  SFcompare y x = option_map CompOpp (SFcompare x y).
Proof.
  destruct x as [sx | sx | | sx mx ex], y as [sy | sy | | sy my ey];
    try reflexivity; try (destruct sx; reflexivity);
    try (destruct sy; reflexivity); try (destruct sx, sy; reflexivity).
  cbn [SFcompare option_map]. f_equal.
  rewrite (Z.compare_antisym ex ey).
  destruct sx, sy; cbn [CompOpp]; try reflexivity;
    destruct (ex ?= ey); cbn [CompOpp]; try reflexivity;
    rewrite (Pos.compare_cont_antisym mx my Eq); reflexivity.
Qed.

Lemma SFcompare_None x y :
  SFcompare x y = None -> x = S754_nan \/ y = S754_nan.
Proof.
  destruct x as [sx | sx | | sx mx ex], y as [sy | sy | | sy my ey];
    cbn; auto; discriminate.
Qed.

(** What [constrain] gives in binary32: for every number, a number from 0
    to 100; what is not a number passes through. *)
Lemma ieee_constrain_range x :
  x <> S754_nan ->
  SFleb (b32_of_Z 0) (constrain x (b32_of_Z 0) (b32_of_Z 100)) = true /\
  SFleb (constrain x (b32_of_Z 0) (b32_of_Z 100)) (b32_of_Z 100) = true.
Proof.
  intro Hx. unfold constrain. cbn [fltb ieee_arith].
  assert (H100 : b32_of_Z 100 <> S754_nan) by (vm_compute; discriminate).
  assert (H0 : b32_of_Z 0 <> S754_nan) by (vm_compute; discriminate).
  destruct (SFltb x (b32_of_Z 0)) eqn:E0; [split; reflexivity | ].
  destruct (SFltb (b32_of_Z 100) x) eqn:E100; [split; reflexivity | ].
  unfold SFltb, SFleb in *. split.
  - rewrite (SFcompare_antisym x (b32_of_Z 0)).
    destruct (SFcompare x (b32_of_Z 0)) as [[ | | ] | ] eqn:E;
      try reflexivity; try discriminate.
    destruct (SFcompare_None _ _ E); contradiction.
  - rewrite (SFcompare_antisym x (b32_of_Z 100)) in E100.
    destruct (SFcompare x (b32_of_Z 100)) as [[ | | ] | ] eqn:E;
      try reflexivity; try discriminate.
    destruct (SFcompare_None _ _ E); contradiction.
Qed.

Example ieee_nan_is_no_number : ~ is_number S754_nan.
Proof.
  intros (y & [H | H]); [discriminate H | ].
  unfold fltb in H; cbn in H. unfold SFltb in H. rewrite SFcompare_antisym in H.
  cbn in H. discriminate H.
Qed.

Example ieee_constrain_nan :
  constrain S754_nan (b32_of_Z 0) (b32_of_Z 100) = S754_nan.
Proof. reflexivity. Qed.

(** With a binary32 [double] the example of the negative temperature gives
    -5.0 as well. *)
Example ieee32_minus_five :
  @spec_temperature ieee32_arith VariantB [0; 0; 128; 50; 178] = b32_of_Z (-5).
Proof. vm_compute. reflexivity. Qed.

End IEEE.

Section Exact.

#[local] Existing Instance exact_arith.
#[local] Existing Instance exact_macros.

(** In exact arithmetic the formulas of the driver are the decimal
    readings of the frame. *)
Lemma exact_humidity_VariantB frame :
  (spec_humidity VariantB frame ==
   inject_Z (byte_at 0 frame * 256 + byte_at 1 frame) / 10)%Q.
Proof.
  unfold spec_humidity. cbn [Z.eqb VariantB Pos.eqb].
  cbn [double_to_float dmul int_to_double lit_0_1 exact_arith].
  rewrite Qred_correct. field.
Qed.

Lemma exact_humidity_VariantA frame :
  (spec_humidity VariantA frame ==
   inject_Z (byte_at 0 frame) + inject_Z (byte_at 1 frame) / 10)%Q.
Proof.
  unfold spec_humidity. cbn [Z.eqb VariantA Pos.eqb].
  cbn [double_to_float dmul dadd int_to_double lit_0_1 exact_arith].
  rewrite !Qred_correct. field.
Qed.

Lemma exact_magnitude_VariantB frame :
  (spec_magnitude VariantB frame ==
   inject_Z (Z.land (byte_at 2 frame) 127 * 256 + byte_at 3 frame) / 10)%Q.
Proof.
  unfold spec_magnitude. cbn [Z.eqb VariantB Pos.eqb].
  cbn [double_to_float dmul int_to_double lit_0_1 exact_arith].
  rewrite Qred_correct. field.
Qed.

Lemma exact_magnitude_VariantA frame :
  (spec_magnitude VariantA frame ==
   inject_Z (byte_at 2 frame) + inject_Z (byte_at 3 frame) / 10)%Q.
Proof.
  unfold spec_magnitude. cbn [Z.eqb VariantA Pos.eqb].
  cbn [double_to_float dmul dadd int_to_double lit_0_1 exact_arith].
  rewrite !Qred_correct. field.
Qed.

(** The frame 02 5C 01 04 of a VariantB sensor: a humidity of 60.4 and a
    temperature of 26.0. *)
Example humidity_60_4 :
  spec_humidity VariantB good_frame = (302 # 5)%Q /\
  spec_temperature VariantB good_frame = 26%Q.
Proof. split; reflexivity. Qed.

(** A VariantB frame with a humidity of 60.0 and a temperature of 26.0, read
    with a humidity offset of 50 and a temperature offset of 100: the sum
    110 is above 100, so the humidity is 100, not 110, and lies in
    [[0, 100]]; the temperature is 126. *)
Lemma C5_clamp_witness :
  let s := mkSys lockedB_offset (sensor_world [2; 88; 1; 4; 95] (clock_at 6000)) in
  spec_humidity VariantB [2; 88; 1; 4; 95] = 60%Q /\
  _humidity (this (snd (_read s))) = 100%Q /\
  in_0_100 (_humidity (this (snd (_read s)))) /\
  _temperature (this (snd (_read s))) = 126%Q /\
  fst (_read s) = Value DHTLIB_OK.
Proof.
  intro s.
  destruct (C5_offsets_and_clamp s (snd (_readSensor s)))
    as (_ & Hh & _ & Hin & Ht & _ & _ & Hst).
  { apply outcome_eq. vm_compute. reflexivity. }
  split; [vm_compute; reflexivity | ].
  split; [ | split; [ | split; [rewrite Ht | rewrite Hst]; vm_compute; reflexivity]].
  - apply Hh; vm_compute; reflexivity.
  - apply Hin; [reflexivity | ].
    exists (int_to_float 0). right. vm_compute. reflexivity.
Defined.

End Exact.

(** * Beyond the claims: the transport, the gate and the settings *)

Section Coverage.

Context {AR : Arith} {MC : Macros}.

(** ** One busy-wait *)

Lemma level_eqb_eq a b : level_eqb a b = true <-> a = b.
Proof. destruct a, b; cbn; split; congruence. Qed.

Lemma busy_wait_same fuel lvl expired c o w :
  line w (n_line w) = lvl ->
  busy_wait (S fuel) lvl expired c (mkSys o w) =
  if u16 (c - 1) =? 0
  then expired (mkSys o (poll_once (_dataPin o) w))
  else busy_wait fuel lvl expired (u16 (c - 1))
         (mkSys o (poll_once (_dataPin o) w)).
Proof.
  intro H. cbn [busy_wait]. unfold bind, field, digitalRead, platform.
  cbn [this world]. fold (poll_once (_dataPin o) w). rewrite H.
  replace (level_eqb lvl lvl) with true by (destruct lvl; reflexivity).
  destruct (u16 (c - 1) =? 0); reflexivity.
Qed.

Lemma busy_wait_other fuel lvl expired c o w :
  line w (n_line w) <> lvl ->
  busy_wait (S fuel) lvl expired c (mkSys o w) =
  (Value tt, mkSys o (poll_once (_dataPin o) w)).
Proof.
  intro H. cbn [busy_wait]. unfold bind, field, digitalRead, platform.
  cbn [this world]. fold (poll_once (_dataPin o) w).
  destruct (level_eqb (line w (n_line w)) lvl) eqn:E; [ | reflexivity].
  apply level_eqb_eq in E. contradiction.
Qed.

Lemma rounds_bounds c : 0 <= c < 2 ^ 16 -> 1 <= rounds c <= 2 ^ 16.
Proof.
  unfold rounds. intro Hc. destruct (c =? 0) eqn:E; [lia | ].
  apply Z.eqb_neq in E. lia.
Qed.

Lemma rounds_last c : 0 <= c < 2 ^ 16 -> rounds c = 1 -> u16 (c - 1) = 0.
Proof.
  unfold rounds, u16. intros Hc H. destruct (c =? 0) eqn:E; [lia | ].
  subst c. reflexivity.
Qed.

Lemma rounds_pred c :
  0 <= c < 2 ^ 16 -> 1 < rounds c ->
  u16 (c - 1) <> 0 /\ 0 <= u16 (c - 1) < 2 ^ 16 /\
  rounds (u16 (c - 1)) = rounds c - 1.
Proof.
  unfold rounds, u16. intros Hc H. destruct (c =? 0) eqn:E.
  - apply Z.eqb_eq in E. subst c. repeat split; try discriminate; try reflexivity.
  - apply Z.eqb_neq in E. rewrite Z.mod_small by lia.
    replace (c - 1 =? 0) with false by (symmetry; apply Z.eqb_neq; lia).
    lia.
Qed.

Lemma poll_n_line pin k w :
  line (poll_n pin k w) = line w /\ n_line (poll_n pin k w) = (n_line w + k)%nat /\
  micros_clock (poll_n pin k w) = micros_clock w /\
  n_micros (poll_n pin k w) = n_micros w /\
  millis_clock (poll_n pin k w) = millis_clock w /\
  n_millis (poll_n pin k w) = n_millis w.
Proof.
  revert w. induction k as [ | k IH]; intro w; cbn [poll_n].
  - repeat split. lia.
  - destruct (IH (poll_once pin w)) as (-> & -> & -> & -> & -> & ->).
    cbn. repeat split. lia.
Qed.

(** The line leaves the level that the busy-wait waits on at the k-th poll,
    before the counter is used up: the busy-wait ends there. *)
Lemma busy_wait_leaves k : forall fuel lvl expired c o w,
  0 <= c < 2 ^ 16 ->
  Z.of_nat k < rounds c ->
  (k < fuel)%nat ->
  line_stays lvl k w ->
  line w (n_line w + k) <> lvl ->
  busy_wait fuel lvl expired c (mkSys o w) =
  (Value tt, mkSys o (poll_n (_dataPin o) (S k) w)).
Proof.
  induction k as [ | k IH]; intros fuel lvl expired c o w Hc Hk Hfuel Hstay Hleave.
  - destruct fuel as [ | fuel]; [lia | ].
    rewrite Nat.add_0_r in Hleave. apply busy_wait_other. assumption.
  - destruct fuel as [ | fuel]; [lia | ].
    rewrite busy_wait_same
      by (rewrite <- (Nat.add_0_r (n_line w)); apply Hstay; lia).
    destruct (rounds_pred c Hc ltac:(lia)) as (Hne & Hc' & Hr).
    apply Z.eqb_neq in Hne. rewrite Hne.
    rewrite (IH fuel lvl expired (u16 (c - 1)) o (poll_once (_dataPin o) w));
      try assumption; try lia.
    + reflexivity.
    + intros j Hj. cbn [line n_line poll_once].
      replace (S (n_line w) + j)%nat with (n_line w + S j)%nat by lia.
      apply Hstay. lia.
    + cbn [line n_line poll_once].
      replace (S (n_line w) + k)%nat with (n_line w + S k)%nat by lia.
      assumption.
Qed.

(** The line stays at the level until the counter is used up: the
    busy-wait gives up after that many polls. *)
Lemma busy_wait_expires n : forall fuel lvl expired c o w,
  0 <= c < 2 ^ 16 ->
  Z.of_nat n = rounds c ->
  (n <= fuel)%nat ->
  line_stays lvl n w ->
  busy_wait fuel lvl expired c (mkSys o w) =
  expired (mkSys o (poll_n (_dataPin o) n w)).
Proof.
  induction n as [ | n IH]; intros fuel lvl expired c o w Hc Hn Hfuel Hstay.
  - pose proof (rounds_bounds c Hc). lia.
  - destruct fuel as [ | fuel]; [lia | ].
    rewrite busy_wait_same
      by (rewrite <- (Nat.add_0_r (n_line w)); apply Hstay; lia).
    destruct n as [ | n].
    + rewrite (rounds_last c Hc) by lia. reflexivity.
    + destruct (rounds_pred c Hc ltac:(lia)) as (Hne & Hc' & Hr).
      apply Z.eqb_neq in Hne. rewrite Hne.
      rewrite (IH fuel lvl expired (u16 (c - 1)) o (poll_once (_dataPin o) w));
        try assumption; try lia.
      * reflexivity.
      * intros j Hj. cbn [line n_line poll_once].
        replace (S (n_line w) + j)%nat with (n_line w + S j)%nat by lia.
        apply Hstay. lia.
Qed.

Lemma timeout_bounds :
  0 <= DHTLIB_TIMEOUT < 2 ^ 16 /\
  Z.of_nat timeout_polls = rounds DHTLIB_TIMEOUT /\
  (1 <= timeout_polls <= uint16_rounds)%nat.
Proof.
  assert (Hc : 0 <= DHTLIB_TIMEOUT < 2 ^ 16)
    by (unfold DHTLIB_TIMEOUT, u16; apply Z.mod_pos_bound; reflexivity).
  pose proof (rounds_bounds _ Hc) as Hr.
  unfold timeout_polls, uint16_rounds.
  split; [assumption | split].
  - apply Z2Nat.id. lia.
  - split.
    + change 1%nat with (Z.to_nat 1). apply Z2Nat.inj_le; lia.
    + apply Z2Nat.inj_le; lia.
Qed.

Lemma uint16_rounds_enough : rounds DHTLIB_TIMEOUT <= Z.of_nat uint16_rounds.
Proof.
  destruct timeout_bounds as (Hc & _).
  pose proof (rounds_bounds _ Hc) as Hr.
  unfold uint16_rounds. rewrite Z2Nat.id by (apply Z.pow_nonneg; lia). lia.
Qed.

Lemma wait_while_leaves k lvl expired o w :
  (k < timeout_polls)%nat ->
  line_stays lvl k w ->
  line w (n_line w + k) <> lvl ->
  wait_while lvl expired (mkSys o w) =
  (Value tt, mkSys o (poll_n (_dataPin o) (S k) w)).
Proof.
  intros Hk Hstay Hleave.
  destruct timeout_bounds as (Hc & Hn & Hle).
  unfold wait_while. apply busy_wait_leaves; try assumption; lia.
Qed.

Lemma wait_while_expires lvl expired o w :
  line_stays lvl timeout_polls w ->
  wait_while lvl expired (mkSys o w) =
  expired (mkSys o (poll_n (_dataPin o) timeout_polls w)).
Proof.
  intros Hstay. destruct timeout_bounds as (Hc & Hn & Hle).
  unfold wait_while. apply busy_wait_expires; try assumption; lia.
Qed.

(** ** The stages of the handshake *)

Lemma line_stays_after pin lvl k m w :
  (forall j, (j < m)%nat -> line w (n_line w + k + j) = lvl) ->
  line_stays lvl m (poll_n pin k w).
Proof.
  intros H j Hj. destruct (poll_n_line pin k w) as (-> & -> & _). auto.
Qed.

Lemma line_after pin k w :
  line (poll_n pin k w) (n_line (poll_n pin k w)) = line w (n_line w + k).
Proof. destruct (poll_n_line pin k w) as (-> & -> & _). reflexivity. Qed.

Lemma line_after_plus pin k m w :
  line (poll_n pin k w) (n_line (poll_n pin k w) + m) = line w (n_line w + k + m).
Proof. destruct (poll_n_line pin k w) as (-> & -> & _). reflexivity. Qed.

Lemma poll_n_plus pin k m w : poll_n pin m (poll_n pin k w) = poll_n pin (k + m) w.
Proof.
  revert w. induction k as [ | k IH]; intro w; cbn [poll_n Nat.add]; auto.
Qed.

Lemma not_HIGH l : l <> HIGH <-> l = LOW.
Proof. destruct l; split; congruence. Qed.

Lemma not_LOW l : l <> LOW <-> l = HIGH.
Proof. destruct l; split; congruence. Qed.

(** What [_readSensor] and [_read] return when the second half of the
    transport leaves with [return rv]. *)
Lemma transport_returns s rv s1 :
  receive_frame (polling_start s) = (Return rv, s1) ->
  _readSensor s = (Value rv, s1) /\
  (rv <> DHTLIB_OK -> fst (_read s) = Value rv).
Proof.
  intro H.
  assert (E : _readSensor s = (Value rv, s1))
    by (rewrite _readSensor_eq, sample_frame_eq, H; reflexivity).
  split; [exact E | ].
  intro Hrv. rewrite (_read_failed _ _ _ E Hrv). reflexivity.
Qed.

(** X1: when the sensor does not pull the line low, that is, when the line
    shows HIGH to as many polls as a busy-wait makes, [_readSensor] and
    [_read] return [DHTLIB_ERROR_SENSOR_NOT_READY]; the line was polled
    exactly that often, the microsecond clock was not read, and the buffer is
    the emptied one. *)
Theorem X1_sensor_not_ready s :
  line_stays HIGH timeout_polls (world s) ->
  fst (_readSensor s) = Value DHTLIB_ERROR_SENSOR_NOT_READY /\
  fst (_read s) = Value DHTLIB_ERROR_SENSOR_NOT_READY /\
  n_line (world (snd (_readSensor s))) = (n_line (world s) + timeout_polls)%nat /\
  n_micros (world (snd (_readSensor s))) = n_micros (world s) /\
  _bits (this (snd (_readSensor s))) = emptied (_bits (this s)).
Proof.
  intro Hstay. destruct s as [o w].
  assert (E : receive_frame (polling_start (mkSys o w)) =
              (Return DHTLIB_ERROR_SENSOR_NOT_READY,
               mkSys (set_bits (emptied (_bits o)) o)
                     (poll_n (_dataPin o) timeout_polls
                        (woken (_dataPin o) (_wakeupDelay o) w)))).
  { unfold receive_frame, polling_start. cbn [this world].
    apply bind_Return. rewrite wait_while_expires by exact Hstay.
    destruct o; reflexivity. }
  destruct (transport_returns _ _ _ E) as (Ers & Hread).
  rewrite Ers. cbn [fst snd this world].
  destruct (poll_n_line (_dataPin o) timeout_polls
              (woken (_dataPin o) (_wakeupDelay o) w)) as (_ & -> & _ & -> & _).
  split; [reflexivity | split; [apply Hread; discriminate | ]].
  destruct o; repeat split.
Qed.

(** X2: when the sensor pulls the line low after [k] polls and then keeps it
    low for as many polls as a busy-wait makes, [_readSensor] and [_read]
    return [DHTLIB_ERROR_TIMEOUT_A], after [k + 1] polls and a full
    busy-wait. *)
Theorem X2_timeout_A s k :
  (k < timeout_polls)%nat ->
  line_stays HIGH k (world s) ->
  line (world s) (n_line (world s) + k) = LOW ->
  (forall j, (j < timeout_polls)%nat ->
     line (world s) (n_line (world s) + S k + j) = LOW) ->
  fst (_readSensor s) = Value DHTLIB_ERROR_TIMEOUT_A /\
  fst (_read s) = Value DHTLIB_ERROR_TIMEOUT_A /\
  n_line (world (snd (_readSensor s)))
  = (n_line (world s) + (S k + timeout_polls))%nat.
Proof.
  intros Hk Hhigh Hlow Hstay. destruct s as [o w]. cbn [world] in *.
  set (w0 := woken (_dataPin o) (_wakeupDelay o) w).
  set (o0 := set_bits (emptied (_bits o)) o).
  assert (Hpin : _dataPin o0 = _dataPin o) by (destruct o; reflexivity).
  assert (E : receive_frame (polling_start (mkSys o w)) =
              (Return DHTLIB_ERROR_TIMEOUT_A,
               mkSys o0 (poll_n (_dataPin o) (S k + timeout_polls) w0))).
  { unfold receive_frame, polling_start. cbn [this world]. fold w0 o0.
    rewrite (bind_Value _ _ _ _ _
               (wait_while_leaves k HIGH _ o0 w0 Hk Hhigh
                  (proj2 (not_HIGH _) Hlow))).
    apply bind_Return. rewrite Hpin.
    rewrite wait_while_expires
      by (apply line_stays_after; exact Hstay).
    rewrite Hpin, poll_n_plus. reflexivity. }
  destruct (transport_returns _ _ _ E) as (Ers & Hread).
  rewrite Ers. cbn [fst snd this world].
  destruct (poll_n_line (_dataPin o) (S k + timeout_polls) w0) as (_ & -> & _).
  split; [reflexivity | split; [apply Hread; discriminate | reflexivity]].
Qed.

(** X3: when the sensor pulls the line low after [k1] polls, releases it
    after [k2] more and then leaves it high for as many polls as a busy-wait
    makes, [_readSensor] and [_read] return [DHTLIB_ERROR_TIMEOUT_B]. *)
Theorem X3_timeout_B s k1 k2 :
  (k1 < timeout_polls)%nat ->
  (k2 < timeout_polls)%nat ->
  line_stays HIGH k1 (world s) ->
  line (world s) (n_line (world s) + k1) = LOW ->
  (forall j, (j < k2)%nat -> line (world s) (n_line (world s) + S k1 + j) = LOW) ->
  line (world s) (n_line (world s) + S k1 + k2) = HIGH ->
  (forall j, (j < timeout_polls)%nat ->
     line (world s) (n_line (world s) + (S k1 + S k2) + j) = HIGH) ->
  fst (_readSensor s) = Value DHTLIB_ERROR_TIMEOUT_B /\
  fst (_read s) = Value DHTLIB_ERROR_TIMEOUT_B /\
  n_line (world (snd (_readSensor s)))
  = (n_line (world s) + (S k1 + S k2 + timeout_polls))%nat.
Proof.
  intros Hk1 Hk2 Hhigh Hlow Hlows Hup Hstay. destruct s as [o w].
  cbn [world] in *.
  set (w0 := woken (_dataPin o) (_wakeupDelay o) w).
  set (o0 := set_bits (emptied (_bits o)) o).
  assert (Hpin : _dataPin o0 = _dataPin o) by (destruct o; reflexivity).
  assert (E : receive_frame (polling_start (mkSys o w)) =
              (Return DHTLIB_ERROR_TIMEOUT_B,
               mkSys o0 (poll_n (_dataPin o) (S k1 + S k2 + timeout_polls) w0))).
  { unfold receive_frame, polling_start. cbn [this world]. fold w0 o0.
    rewrite (bind_Value _ _ _ _ _
               (wait_while_leaves k1 HIGH _ o0 w0 Hk1 Hhigh
                  (proj2 (not_HIGH _) Hlow))).
    rewrite Hpin.
    rewrite (bind_Value _ _ _ _ _
               (wait_while_leaves k2 LOW _ o0 (poll_n (_dataPin o) (S k1) w0) Hk2
                  (line_stays_after _ _ _ _ w0 Hlows)
                  ltac:(rewrite line_after_plus; apply not_LOW; exact Hup))).
    apply bind_Return. rewrite Hpin, poll_n_plus.
    rewrite wait_while_expires
      by (apply line_stays_after; exact Hstay).
    rewrite Hpin, poll_n_plus. reflexivity. }
  destruct (transport_returns _ _ _ E) as (Ers & Hread).
  rewrite Ers. cbn [fst snd this world].
  destruct (poll_n_line (_dataPin o) (S k1 + S k2 + timeout_polls) w0)
    as (_ & -> & _).
  split; [reflexivity | split; [apply Hread; discriminate | reflexivity]].
Qed.

(** ** Busy-waits and relations between states *)

Lemma bind_Value_inv {A B} (m : M A) (f : A -> M B) s b s1 :
  bind m f s = (Value b, s1) ->
  exists a s', m s = (Value a, s') /\ f a s' = (Value b, s1).
Proof.
  unfold bind. destruct (m s) as [[a | rv | ] s'].
  - intro H. exists a, s'. auto.
  - discriminate.
  - discriminate.
Qed.

Section BusyWait.

Variable R : Sys -> Sys -> Prop.
Hypothesis R_trans : forall s1 s2 s3, R s1 s2 -> R s2 s3 -> R s1 s3.
Hypothesis R_poll :
  forall o w, R (mkSys o w) (mkSys o (poll_once (_dataPin o) w)).

Lemma busy_wait_respects fuel : forall lvl expired c,
  respects R expired ->
  0 <= c < 2 ^ 16 ->
  rounds c <= Z.of_nat fuel ->
  respects R (busy_wait fuel lvl expired c).
Proof.
  induction fuel as [ | fuel IH]; intros lvl expired c Hexp Hc Hfuel.
  - pose proof (rounds_bounds c Hc). lia.
  - intros [o w].
    destruct (level_eqb (line w (n_line w)) lvl) eqn:E.
    + apply level_eqb_eq in E. rewrite (busy_wait_same _ _ _ _ _ _ E).
      destruct (u16 (c - 1) =? 0) eqn:E0.
      * destruct (Hexp (mkSys o (poll_once (_dataPin o) w))) as (Hct & HR).
        split; [exact Hct | ]. eapply R_trans; [apply R_poll | exact HR].
      * apply Z.eqb_neq in E0.
        assert (Hr : 1 < rounds c).
        { destruct (Z.eq_dec (rounds c) 1) as [H1 | H1].
          - apply (rounds_last c Hc) in H1. contradiction.
          - pose proof (rounds_bounds c Hc). lia. }
        destruct (rounds_pred c Hc Hr) as (_ & Hc' & Hr').
        destruct (IH lvl expired (u16 (c - 1)) Hexp Hc' ltac:(lia)
                    (mkSys o (poll_once (_dataPin o) w))) as (Hct & HR).
        split; [exact Hct | ]. eapply R_trans; [apply R_poll | exact HR].
    + assert (Hne : line w (n_line w) <> lvl)
        by (intro H; apply level_eqb_eq in H; congruence).
      rewrite (busy_wait_other _ _ _ _ _ _ Hne).
      split; [exact I | apply R_poll].
Qed.

Lemma wait_while_respects lvl expired :
  respects R expired -> respects R (wait_while lvl expired).
Proof.
  intro Hexp. unfold wait_while. apply busy_wait_respects.
  - assumption.
  - apply timeout_bounds.
  - apply uint16_rounds_enough.
Qed.

End BusyWait.

Lemma waited_refl s : waited s s.
Proof. constructor; reflexivity. Qed.

Lemma waited_trans s1 s2 s3 : waited s1 s2 -> waited s2 s3 -> waited s1 s3.
Proof. intros [A1 B1 C1] [A2 B2 C2]. constructor; congruence. Qed.

Lemma waited_poll o w : waited (mkSys o w) (mkSys o (poll_once (_dataPin o) w)).
Proof. constructor; reflexivity. Qed.

(** A busy-wait that went through left the object and the microsecond
    clock alone. *)
Lemma wait_while_waited lvl rv s a s' :
  is_timeout rv = true ->
  wait_while lvl (return_ rv) s = (Value a, s') -> waited s s'.
Proof.
  intros Hrv H.
  destruct (wait_while_respects waited waited_trans waited_poll
              lvl (return_ rv)
              (respects_return waited waited_refl rv Hrv) s) as (_ & HR).
  rewrite H in HR. exact HR.
Qed.

(** The last busy-wait of [_readSensor], which ends with [break], always
    goes through. *)
Lemma wait_while_break lvl s :
  exists s', wait_while lvl (ret tt) s = (Value tt, s') /\ waited s s'.
Proof.
  assert (Hbreak : forall fuel c s0,
            0 <= c < 2 ^ 16 -> rounds c <= Z.of_nat fuel ->
            exists s', busy_wait fuel lvl (ret tt) c s0 = (Value tt, s')).
  { induction fuel as [ | fuel IH]; intros c [o w] Hc Hfuel.
    - pose proof (rounds_bounds c Hc). lia.
    - destruct (level_eqb (line w (n_line w)) lvl) eqn:E.
      + apply level_eqb_eq in E. rewrite (busy_wait_same _ _ _ _ _ _ E).
        destruct (u16 (c - 1) =? 0) eqn:E0; [eexists; reflexivity | ].
        apply Z.eqb_neq in E0.
        assert (Hr : 1 < rounds c).
        { destruct (Z.eq_dec (rounds c) 1) as [H1 | H1].
          - apply (rounds_last c Hc) in H1. contradiction.
          - pose proof (rounds_bounds c Hc). lia. }
        destruct (rounds_pred c Hc Hr) as (_ & Hc' & Hr').
        apply IH; [assumption | lia].
      + assert (Hne : line w (n_line w) <> lvl)
          by (intro H; apply level_eqb_eq in H; congruence).
        rewrite (busy_wait_other _ _ _ _ _ _ Hne). eexists; reflexivity. }
  assert (Hbreak' : exists s', wait_while lvl (ret tt) s = (Value tt, s')).
  { unfold wait_while. apply Hbreak.
    - apply timeout_bounds.
    - apply uint16_rounds_enough. }
  destruct Hbreak' as (s' & E).
  exists s'. split; [exact E | ].
  destruct (wait_while_respects waited waited_trans waited_poll
              lvl (ret tt) (respects_ret waited waited_refl tt) s) as (_ & HR).
  rewrite E in HR. exact HR.
Qed.

(** ** The 40 bits *)

Lemma read_bits_S i mask idx :
  read_bits (S i) mask idx =
  (wait_while LOW (return_ DHTLIB_ERROR_TIMEOUT_C) ;;
   t <- micros ;;
   wait_while HIGH (return_ DHTLIB_ERROR_TIMEOUT_D) ;;
   t' <- micros ;;
   (if u32 (t' - t) >? u32 DHTLIB_BIT_THRESHOLD
    then assign (fun o =>
           set_bits (store_at (Z.to_nat idx)
                       (Z.lor (byte_at idx (_bits o)) mask) (_bits o)) o)
    else ret tt) ;;
   let mask' := Z.shiftr mask 1 in
   if mask' =? 0
   then read_bits i 128 (u8 (idx + 1))
   else read_bits i mask' idx).
Proof. reflexivity. Qed.

Lemma bind_micros {B} (f : Z -> M B) o w :
  bind micros f (mkSys o w) =
  f (u32 (micros_clock w (n_micros w)))
    (mkSys o (mkWorld (line w) (n_line w) (micros_clock w) (S (n_micros w))
                (millis_clock w) (n_millis w)
                (EvMicros (u32 (micros_clock w (n_micros w))) :: trace w))).
Proof. reflexivity. Qed.

Lemma bind_assign {B} g (f : unit -> M B) s :
  bind (assign g) f s = f tt (mkSys (g (this s)) (world s)).
Proof. reflexivity. Qed.

Lemma bind_ret {A B} (a : A) (f : A -> M B) s : bind (ret a) f s = f a s.
Proof. reflexivity. Qed.

(** The loop over the bits stores what the microsecond clock says: the
    bits depend on the answers of the clock only, two per bit, however often
    the line was polled in between. *)
Lemma read_bits_store i : forall mask idx s s1,
  read_bits i mask idx s = (Value tt, s1) ->
  _bits (this s1) =
    store_bits (bits_from (micros_clock (world s)) (n_micros (world s)) i)
               mask idx (_bits (this s)) /\
  this s1 = set_bits (_bits (this s1)) (this s) /\
  micros_clock (world s1) = micros_clock (world s) /\
  n_micros (world s1) = (n_micros (world s) + 2 * i)%nat.
Proof.
  induction i as [ | i IH]; intros mask idx s s1 H.
  - cbn in H. injection H as <-. cbn [bits_from store_bits].
    repeat split; try lia. destruct (this s); reflexivity.
  - rewrite read_bits_S in H.
    apply bind_Value_inv in H as (? & [oa wa] & Ha & H).
    apply wait_while_waited in Ha as [Ta Ca Na]; [ | reflexivity].
    cbn [this world] in Ta, Ca, Na.
    rewrite bind_micros in H.
    apply bind_Value_inv in H as (? & [ob wb] & Hb & H).
    apply wait_while_waited in Hb as [Tb Cb Nb]; [ | reflexivity].
    cbn [this world micros_clock n_micros] in Tb, Cb, Nb.
    rewrite bind_micros in H.
    rewrite Cb, Nb, Ca, Na in H.
    fold (bit_at (micros_clock (world s)) (n_micros (world s))) in H.
    cbn [bits_from store_bits].
    destruct (bit_at (micros_clock (world s)) (n_micros (world s)));
      [rewrite bind_assign in H | rewrite bind_ret in H];
      cbv zeta in H; cbn [this world] in H;
      destruct (Z.shiftr mask 1 =? 0);
      apply IH in H as (Hbits & Hthis & Hclock & Hn);
      cbn [this world micros_clock n_micros] in Hbits, Hthis, Hclock, Hn;
      subst ob oa;
      (split; [exact Hbits
              | split; [rewrite Hthis at 1; destruct (this s); reflexivity
                       | split; [exact Hclock | lia]]]).
Qed.
Lemma nth_store_at_same i v buf :
  (i < length buf)%nat -> nth i (store_at i v buf) 0 = v.
Proof.
  revert i. induction buf as [ | b tl IH]; intros [ | i] H; cbn in *; try lia.
  apply IH. lia.
Qed.

Lemma store_at_twice i v v' buf :
  store_at i v (store_at i v' buf) = store_at i v buf.
Proof.
  revert i. induction buf as [ | b tl IH]; intros [ | i]; cbn; try reflexivity.
  f_equal. apply IH.
Qed.

Lemma store_at_nth_id i buf : store_at i (nth i buf 0) buf = buf.
Proof.
  revert i. induction buf as [ | b tl IH]; intros [ | i]; cbn; try reflexivity.
  f_equal. apply IH.
Qed.

(** One bit, within a byte and at its end. *)
Lemma store_bits_step b bs mask mask' idx v buf :
  0 <= idx -> (Z.to_nat idx < length buf)%nat ->
  mask' = Z.shiftr mask 1 -> mask' <> 0 ->
  store_bits (b :: bs) mask idx (store_at (Z.to_nat idx) v buf) =
  store_bits bs mask' idx
    (store_at (Z.to_nat idx) (Z.lor v (if b then mask else 0)) buf).
Proof.
  intros Hidx Hlen -> Hne. cbn [store_bits]. unfold byte_at.
  rewrite nth_store_at_same by assumption.
  apply Z.eqb_neq in Hne. rewrite Hne.
  destruct b; [rewrite store_at_twice | rewrite Z.lor_0_r]; reflexivity.
Qed.

Lemma store_bits_last b bs idx v buf :
  0 <= idx -> (Z.to_nat idx < length buf)%nat ->
  store_bits (b :: bs) 1 idx (store_at (Z.to_nat idx) v buf) =
  store_bits bs 128 (u8 (idx + 1))
    (store_at (Z.to_nat idx) (Z.lor v (if b then 1 else 0)) buf).
Proof.
  intros Hidx Hlen. cbn [store_bits]. unfold byte_at.
  rewrite nth_store_at_same by assumption.
  change (Z.shiftr 1 1 =? 0) with true. cbv iota.
  destruct b; [rewrite store_at_twice | rewrite Z.lor_0_r]; reflexivity.
Qed.

(** Eight bits make a byte, the first bit being the most significant. *)
Lemma store_bits_8 b0 b1 b2 b3 b4 b5 b6 b7 rest idx buf :
  0 <= idx -> (Z.to_nat idx < length buf)%nat ->
  byte_at idx buf = 0 ->
  store_bits (b0 :: b1 :: b2 :: b3 :: b4 :: b5 :: b6 :: b7 :: rest) 128 idx buf =
  store_bits rest 128 (u8 (idx + 1))
    (store_at (Z.to_nat idx)
       (Z.b2z b0 * 128 + Z.b2z b1 * 64 + Z.b2z b2 * 32 + Z.b2z b3 * 16
        + Z.b2z b4 * 8 + Z.b2z b5 * 4 + Z.b2z b6 * 2 + Z.b2z b7) buf).
Proof.
  intros Hidx Hlen Hzero. unfold byte_at in Hzero.
  assert (Hb : buf = store_at (Z.to_nat idx) 0 buf)
    by (rewrite <- Hzero; symmetry; apply store_at_nth_id).
  transitivity
    (store_bits (b0 :: b1 :: b2 :: b3 :: b4 :: b5 :: b6 :: b7 :: rest) 128 idx
       (store_at (Z.to_nat idx) 0 buf));
    [apply (f_equal (store_bits _ 128 idx)); exact Hb | ].
  rewrite (store_bits_step _ _ 128 64) by (assumption || reflexivity || discriminate).
  rewrite (store_bits_step _ _ 64 32) by (assumption || reflexivity || discriminate).
  rewrite (store_bits_step _ _ 32 16) by (assumption || reflexivity || discriminate).
  rewrite (store_bits_step _ _ 16 8) by (assumption || reflexivity || discriminate).
  rewrite (store_bits_step _ _ 8 4) by (assumption || reflexivity || discriminate).
  rewrite (store_bits_step _ _ 4 2) by (assumption || reflexivity || discriminate).
  rewrite (store_bits_step _ _ 2 1) by (assumption || reflexivity || discriminate).
  rewrite store_bits_last by assumption.
  do 2 f_equal.
  destruct b0, b1, b2, b3, b4, b5, b6, b7; reflexivity.
Qed.

Lemma receive_frame_eq :
  receive_frame =
  (wait_while HIGH (return_ DHTLIB_ERROR_SENSOR_NOT_READY) ;;
   wait_while LOW (return_ DHTLIB_ERROR_TIMEOUT_A) ;;
   wait_while HIGH (return_ DHTLIB_ERROR_TIMEOUT_B) ;;
   read_bits 40 128 0 ;;
   wait_while LOW (ret tt)).
Proof. reflexivity. Qed.

(** A transport that went through all its stages: the states between them. *)
Lemma receive_frame_stages s s1 :
  receive_frame s = (Value tt, s1) ->
  exists sc sd,
    waited s sc /\
    read_bits 40 128 0 sc = (Value tt, sd) /\
    waited sd s1.
Proof.
  intro H. rewrite receive_frame_eq in H.
  apply bind_Value_inv in H as (? & sa & Ha & H).
  apply wait_while_waited in Ha; [ | reflexivity].
  apply bind_Value_inv in H as (? & sb & Hb & H).
  apply wait_while_waited in Hb; [ | reflexivity].
  apply bind_Value_inv in H as (? & sc & Hc & H).
  apply wait_while_waited in Hc; [ | reflexivity].
  apply bind_Value_inv in H as ([] & sd & Hd & H).
  destruct (wait_while_break LOW sd) as (s1' & E & Hw).
  rewrite E in H. injection H as <-.
  exists sc, sd. split; [ | split; assumption].
  eapply waited_trans; [eapply waited_trans | ]; eassumption.
Qed.

(** A transport whose status is no timeout went through all its stages. *)
Lemma frame_received s rv s1 :
  _readSensor s = (Value rv, s1) ->
  is_timeout rv = false ->
  receive_frame (polling_start s) = (Value tt, s1).
Proof.
  intros H Hrv. rewrite _readSensor_eq, sample_frame_eq in H.
  destruct (receive_frame_polled (polling_start s)) as (Hct & _).
  destruct (receive_frame (polling_start s)) as [[[] | rv' | ] s'];
    cbn [fst comes_through] in Hct.
  - injection H as _ <-. reflexivity.
  - injection H as <- _. congruence.
  - contradiction.
Qed.

(** X4: the frame that a transport leaves in the buffer is made of the 40
    bits that the microsecond clock measured, eight to a byte, the first bit
    of a byte being its most significant one; the k-th bit is a 1 when the
    clock advanced by more than the threshold between its answers number 2k
    and 2k+1, however often the line was polled. *)
Theorem X4_frame_assembly s rv s1 :
  length (_bits (this s)) = 5%nat ->
  _readSensor s = (Value rv, s1) ->
  is_timeout rv = false ->
  _bits (this s1) =
    map (assemble (sampled_bit (world s))) [0; 1; 2; 3; 4]%nat.
Proof.
  intros Hlen Hrs Hrv.
  apply frame_received in Hrs; [ | assumption].
  apply receive_frame_stages in Hrs as (sc & sd & [Tc Cc Nc] & Hbits & [Td _ _]).
  apply read_bits_store in Hbits as (Hbits & _).
  rewrite Td, Hbits, Tc, Cc, Nc.
  destruct s as [o w]. cbn [this world] in Hlen.
  cbn [polling_start this world woken micros_clock n_micros].
  replace (_bits (set_bits (emptied (_bits o)) o)) with (emptied (_bits o))
    by (destruct o; reflexivity).
  rewrite emptied_five by exact Hlen.
  cbn [bits_from].
  rewrite store_bits_8 by (cbn; lia || reflexivity).
  change (u8 (0 + 1)) with 1. change (Z.to_nat 0) with 0%nat. cbn [store_at].
  rewrite store_bits_8 by (cbn; lia || reflexivity).
  change (u8 (1 + 1)) with 2. change (Z.to_nat 1) with 1%nat. cbn [store_at].
  rewrite store_bits_8 by (cbn; lia || reflexivity).
  change (u8 (2 + 1)) with 3. change (Z.to_nat 2) with 2%nat. cbn [store_at].
  rewrite store_bits_8 by (cbn; lia || reflexivity).
  change (u8 (3 + 1)) with 4. change (Z.to_nat 3) with 3%nat. cbn [store_at].
  rewrite store_bits_8 by (cbn; lia || reflexivity).
  change (Z.to_nat 4) with 4%nat. cbn [store_at store_bits].
  reflexivity.
Qed.

(** X5: no stale data survives: what a transport returns and what it leaves
    in the buffer and in the world do not depend on what the buffer held
    before. *)
Theorem X5_buffer_emptied s bits :
  length (_bits (this s)) = 5%nat ->
  length bits = 5%nat ->
  _readSensor (mkSys (set_bits bits (this s)) (world s)) = _readSensor s.
Proof.
  intros Hlen Hlen'.
  assert (E : polling_start (mkSys (set_bits bits (this s)) (world s))
              = polling_start s).
  { destruct s as [o w]. unfold polling_start. cbn [this world] in *.
    destruct o. unfold set_bits.
    cbn [_bits _dataPin _wakeupDelay] in *.
    rewrite !emptied_five by assumption. reflexivity. }
  rewrite !_readSensor_eq, !sample_frame_eq, E. reflexivity.
Qed.

(** ** How long a transport can take *)

Section Within.

Variable count : World -> nat.

Lemma within_ret {A} (a : A) : within count 0 (ret a).
Proof. intro s. cbn. lia. Qed.

Lemma within_return {A} rv : within count 0 (@return_ _ A rv).
Proof. intro s. cbn. lia. Qed.

Lemma within_field {A} (f : DHTNEW -> A) : within count 0 (field f).
Proof. intro s. cbn. lia. Qed.

Lemma within_assign g : within count 0 (assign g).
Proof. intro s. cbn. lia. Qed.

Lemma within_weaken {A} n n' (m : M A) :
  (n <= n')%nat -> within count n m -> within count n' m.
Proof. intros Hle H s. specialize (H s). lia. Qed.

Lemma within_bind {A B} a b (m : M A) (f : A -> M B) :
  within count a m -> (forall x, within count b (f x)) ->
  within count (a + b) (bind m f).
Proof.
  intros Hm Hf s. specialize (Hm s). unfold bind.
  destruct (m s) as [[x | rv | ] s']; cbn [snd] in *; try lia.
  specialize (Hf x s'). lia.
Qed.

Lemma within_if {A} n (c : bool) (m1 m2 : M A) :
  within count n m1 -> within count n m2 ->
  within count n (if c then m1 else m2).
Proof. destruct c; auto. Qed.

End Within.

Lemma busy_wait_polls fuel : forall lvl expired c,
  within n_line 0 expired ->
  0 <= c < 2 ^ 16 ->
  rounds c <= Z.of_nat fuel ->
  within n_line (Z.to_nat (rounds c)) (busy_wait fuel lvl expired c).
Proof.
  induction fuel as [ | fuel IH]; intros lvl expired c Hexp Hc Hfuel.
  - pose proof (rounds_bounds c Hc). lia.
  - intros [o w]. pose proof (rounds_bounds c Hc) as Hb.
    destruct (level_eqb (line w (n_line w)) lvl) eqn:E.
    + apply level_eqb_eq in E. rewrite (busy_wait_same _ _ _ _ _ _ E).
      destruct (u16 (c - 1) =? 0) eqn:E0.
      * specialize (Hexp (mkSys o (poll_once (_dataPin o) w))).
        cbn [world n_line poll_once] in *. lia.
      * apply Z.eqb_neq in E0.
        assert (Hr : 1 < rounds c).
        { destruct (Z.eq_dec (rounds c) 1) as [H1 | H1].
          - apply (rounds_last c Hc) in H1. contradiction.
          - lia. }
        destruct (rounds_pred c Hc Hr) as (_ & Hc' & Hr').
        specialize (IH lvl expired (u16 (c - 1)) Hexp Hc' ltac:(lia)
                      (mkSys o (poll_once (_dataPin o) w))).
        cbn [world n_line poll_once] in *. rewrite Hr' in IH. lia.
    + assert (Hne : line w (n_line w) <> lvl)
        by (intro H; apply level_eqb_eq in H; congruence).
      rewrite (busy_wait_other _ _ _ _ _ _ Hne).
      cbn [snd world n_line poll_once]. lia.
Qed.

Lemma wait_while_polls lvl expired :
  within n_line 0 expired ->
  within n_line timeout_polls (wait_while lvl expired).
Proof.
  intro Hexp. unfold wait_while, timeout_polls. apply busy_wait_polls.
  - assumption.
  - apply timeout_bounds.
  - apply uint16_rounds_enough.
Qed.

Lemma wait_while_micros lvl expired :
  respects waited expired ->
  within n_micros 0 (wait_while lvl expired).
Proof.
  intros Hexp s.
  destruct (wait_while_respects waited waited_trans waited_poll lvl expired
              Hexp s) as (_ & [_ _ Hn]).
  lia.
Qed.

Lemma micros_polls : within n_line 0 micros.
Proof. intro s. cbn. lia. Qed.

Lemma micros_micros : within n_micros 1 micros.
Proof. intro s. cbn. lia. Qed.

Lemma read_bits_polls i : forall mask idx,
  within n_line (i * (2 * timeout_polls)) (read_bits i mask idx).
Proof.
  induction i as [ | i IH]; intros mask idx.
  - cbn [read_bits Nat.mul]. apply within_ret.
  - rewrite read_bits_S.
    apply (within_weaken n_line
             (timeout_polls + (0 + (timeout_polls + (0 + (0 + i * (2 * timeout_polls)))))));
      [cbn [Nat.mul]; lia | ].
    apply within_bind; [apply wait_while_polls, within_return | intros _].
    apply within_bind; [apply micros_polls | intros t].
    apply within_bind; [apply wait_while_polls, within_return | intros _].
    apply within_bind; [apply micros_polls | intros t'].
    apply within_bind;
      [apply within_if; [apply within_assign | apply within_ret] | intros _].
    cbv zeta. destruct (Z.shiftr mask 1 =? 0); apply IH.
Qed.

Lemma read_bits_micros i : forall mask idx,
  within n_micros (i * 2) (read_bits i mask idx).
Proof.
  induction i as [ | i IH]; intros mask idx.
  - cbn [read_bits Nat.mul]. apply within_ret.
  - rewrite read_bits_S.
    apply (within_weaken n_micros (0 + (1 + (0 + (1 + (0 + i * 2))))));
      [cbn [Nat.mul]; lia | ].
    apply within_bind;
      [apply wait_while_micros, respects_return;
         [apply waited_refl | reflexivity] | intros _].
    apply within_bind; [apply micros_micros | intros t].
    apply within_bind;
      [apply wait_while_micros, respects_return;
         [apply waited_refl | reflexivity] | intros _].
    apply within_bind; [apply micros_micros | intros t'].
    apply within_bind;
      [apply within_if; [apply within_assign | apply within_ret] | intros _].
    cbv zeta. destruct (Z.shiftr mask 1 =? 0); apply IH.
Qed.

Lemma receive_frame_polls : within n_line (84 * timeout_polls) receive_frame.
Proof.
  rewrite receive_frame_eq.
  apply (within_weaken n_line
           (timeout_polls + (timeout_polls + (timeout_polls
            + (40 * (2 * timeout_polls) + timeout_polls))))); [lia | ].
  apply within_bind; [apply wait_while_polls, within_return | intros _].
  apply within_bind; [apply wait_while_polls, within_return | intros _].
  apply within_bind; [apply wait_while_polls, within_return | intros _].
  apply within_bind; [apply read_bits_polls | intros _].
  apply wait_while_polls, within_ret.
Qed.

Lemma receive_frame_micros : within n_micros 80 receive_frame.
Proof.
  rewrite receive_frame_eq.
  apply (within_weaken n_micros (0 + (0 + (0 + (40 * 2 + 0))))); [lia | ].
  apply within_bind;
    [apply wait_while_micros, respects_return;
       [apply waited_refl | reflexivity] | intros _].
  apply within_bind;
    [apply wait_while_micros, respects_return;
       [apply waited_refl | reflexivity] | intros _].
  apply within_bind;
    [apply wait_while_micros, respects_return;
       [apply waited_refl | reflexivity] | intros _].
  apply within_bind; [apply read_bits_micros | intros _].
  apply wait_while_micros, respects_ret, waited_refl.
Qed.

(** X6: one [_read] polls the line at most 84 times as often as one
    busy-wait may (three busy-waits for the handshake, two for each of the 40
    bits and one after them), reads the microsecond clock at most 80 times
    and the millisecond clock exactly once. *)
Theorem X6_transport_is_bounded s :
  (n_line (world (snd (_read s))) <= n_line (world s) + 84 * timeout_polls)%nat /\
  (n_micros (world (snd (_read s))) <= n_micros (world s) + 80)%nat /\
  n_millis (world (snd (_read s))) = S (n_millis (world s)).
Proof.
  destruct (_read_spec s) as (rv & s1 & Hrs & Hp & _ & _ & ->).
  cbn [snd world released n_line n_micros n_millis].
  rewrite (polled_n_millis _ _ Hp).
  rewrite _readSensor_eq, sample_frame_eq in Hrs.
  pose proof (receive_frame_polls (polling_start s)) as Hl.
  pose proof (receive_frame_micros (polling_start s)) as Hm.
  assert (Es : snd (receive_frame (polling_start s)) = s1).
  { destruct (receive_frame (polling_start s)) as [[[] | rv' | ] s'];
      injection Hrs as _ <-; reflexivity. }
  rewrite Es in Hl, Hm. destruct s as [o w].
  cbn [polling_start world woken n_line n_micros n_millis] in *.
  repeat split; assumption || reflexivity.
Qed.

(** ** After the last bit *)

Lemma bind_assoc {A B C} (m : M A) (f : A -> M B) (g : B -> M C) s :
  bind (bind m f) g s = bind m (fun a => bind (f a) g) s.
Proof. unfold bind. destruct (m s) as [[a | rv | ] s']; reflexivity. Qed.

Lemma bind_ext {A B} (m : M A) (f g : A -> M B) s :
  (forall a s', f a s' = g a s') -> bind m f s = bind m g s.
Proof. intro H. unfold bind. destruct (m s) as [[a | rv | ] s']; auto. Qed.

Lemma receive_frame_split s :
  receive_frame s = bind handshake_and_bits (fun _ => wait_while LOW (ret tt)) s.
Proof.
  rewrite receive_frame_eq. unfold handshake_and_bits.
  rewrite bind_assoc. apply bind_ext. intros _ sa.
  rewrite bind_assoc. apply bind_ext. intros _ sb.
  rewrite bind_assoc. reflexivity.
Qed.

(** A busy-wait polls the line at least once. *)
Lemma busy_wait_polls_once fuel : forall lvl expired c s,
  (forall s0, (n_line (world s0) <= n_line (world (snd (expired s0))))%nat) ->
  0 <= c < 2 ^ 16 ->
  rounds c <= Z.of_nat fuel ->
  (n_line (world s) < n_line (world (snd (busy_wait fuel lvl expired c s))))%nat.
Proof.
  induction fuel as [ | fuel IH]; intros lvl expired c [o w] Hexp Hc Hfuel.
  - pose proof (rounds_bounds c Hc). lia.
  - pose proof (rounds_bounds c Hc) as Hb.
    destruct (level_eqb (line w (n_line w)) lvl) eqn:E.
    + apply level_eqb_eq in E. rewrite (busy_wait_same _ _ _ _ _ _ E).
      destruct (u16 (c - 1) =? 0) eqn:E0.
      * specialize (Hexp (mkSys o (poll_once (_dataPin o) w))).
        cbn [world n_line poll_once] in *. lia.
      * apply Z.eqb_neq in E0.
        assert (Hr : 1 < rounds c).
        { destruct (Z.eq_dec (rounds c) 1) as [H1 | H1].
          - apply (rounds_last c Hc) in H1. contradiction.
          - lia. }
        destruct (rounds_pred c Hc Hr) as (_ & Hc' & Hr').
        specialize (IH lvl expired (u16 (c - 1))
                      (mkSys o (poll_once (_dataPin o) w)) Hexp Hc' ltac:(lia)).
        cbn [world n_line poll_once] in *. lia.
    + assert (Hne : line w (n_line w) <> lvl)
        by (intro H; apply level_eqb_eq in H; congruence).
      rewrite (busy_wait_other _ _ _ _ _ _ Hne).
      cbn [snd world n_line poll_once]. lia.
Qed.

(** X7: once the 40 bits are in, the transport cannot fail with a timeout
    any more.  The busy-wait for the end of the last low phase ends with
    [break]: whatever the line does then, it costs between one poll and a
    whole timeout of polls, leaves the frame alone, and the status is decided
    by bit 7 of the first byte. *)
Theorem X7_last_wait_never_fails s s1 :
  handshake_and_bits (polling_start s) = (Value tt, s1) ->
  exists s2,
    _readSensor s =
      (Value (if Z.testbit (byte_at 0 (_bits (this s1))) 7
              then DHTLIB_ERROR_BIT_SHIFT else DHTLIB_OK), s2) /\
    this s2 = this s1 /\
    (n_line (world s1) < n_line (world s2) <= n_line (world s1) + timeout_polls)%nat /\
    n_micros (world s2) = n_micros (world s1).
Proof.
  intro H.
  destruct (wait_while_break LOW s1) as (s2 & E & [Hthis _ Hmic]).
  exists s2.
  assert (Hrf : receive_frame (polling_start s) = (Value tt, s2)).
  { rewrite receive_frame_split, (bind_Value _ _ _ _ _ H). exact E. }
  rewrite _readSensor_eq, sample_frame_eq, Hrf, Hthis.
  split; [reflexivity | ]. split; [reflexivity | ]. split; [ | exact Hmic].
  pose proof (wait_while_polls LOW (ret tt) (within_ret n_line tt) s1) as Hup.
  assert (Hlow : (n_line (world s1)
                  < n_line (world (snd (wait_while LOW (ret tt) s1))))%nat).
  { unfold wait_while. apply busy_wait_polls_once.
    - intro s0. cbn. lia.
    - apply timeout_bounds.
    - apply uint16_rounds_enough. }
  rewrite E in Hup, Hlow. cbn [snd] in Hup, Hlow. lia.
Qed.

(** ** What a transport does to the line *)

Lemma sampled_refl s : sampled_on s s.
Proof. constructor; [reflexivity | exists []; split; reflexivity]. Qed.

Lemma sampled_trans s1 s2 s3 :
  sampled_on s1 s2 -> sampled_on s2 s3 -> sampled_on s1 s3.
Proof.
  intros [P1 (e1 & T1 & F1)] [P2 (e2 & T2 & F2)]. constructor.
  - congruence.
  - exists (e2 ++ e1). split.
    + rewrite T2, T1, app_assoc. reflexivity.
    + rewrite forallb_app, F1. rewrite P1 in F2. rewrite F2. reflexivity.
Qed.

Lemma sampled_poll o w :
  sampled_on (mkSys o w) (mkSys o (poll_once (_dataPin o) w)).
Proof.
  constructor; [reflexivity | ].
  exists [EvDigitalRead (_dataPin o) (line w (n_line w))].
  split; [reflexivity | ]. cbn. rewrite Z.eqb_refl. reflexivity.
Qed.

Lemma micros_sampled : respects sampled_on micros.
Proof.
  intros [o w]. split; [exact I | ]. constructor; [reflexivity | ].
  exists [EvMicros (u32 (micros_clock w (n_micros w)))].
  split; reflexivity.
Qed.

Lemma set_bits_sampled (g : DHTNEW -> list Z) :
  respects sampled_on (assign (fun o => set_bits (g o) o)).
Proof.
  intros [o w]. split; [exact I | ]. constructor.
  - destruct o; reflexivity.
  - exists []. split; reflexivity.
Qed.

Lemma wait_while_sampled lvl rv :
  is_timeout rv = true ->
  respects sampled_on (wait_while lvl (return_ rv)).
Proof.
  intro Hrv. apply (wait_while_respects sampled_on sampled_trans sampled_poll).
  apply respects_return; [apply sampled_refl | exact Hrv].
Qed.

Lemma read_bits_sampled i : forall mask idx,
  respects sampled_on (read_bits i mask idx).
Proof.
  induction i as [ | i IH]; intros mask idx.
  - cbn [read_bits]. apply respects_ret, sampled_refl.
  - rewrite read_bits_S.
    apply (respects_bind sampled_on sampled_trans);
      [apply wait_while_sampled; reflexivity | intros _].
    apply (respects_bind sampled_on sampled_trans);
      [apply micros_sampled | intros t].
    apply (respects_bind sampled_on sampled_trans);
      [apply wait_while_sampled; reflexivity | intros _].
    apply (respects_bind sampled_on sampled_trans);
      [apply micros_sampled | intros t'].
    apply (respects_bind sampled_on sampled_trans).
    { apply respects_if.
      - apply (set_bits_sampled
                 (fun o => store_at (Z.to_nat idx)
                             (Z.lor (byte_at idx (_bits o)) mask) (_bits o))).
      - apply respects_ret, sampled_refl. }
    intros _. cbv zeta. destruct (Z.shiftr mask 1 =? 0); apply IH.
Qed.

Lemma receive_frame_sampled : respects sampled_on receive_frame.
Proof.
  rewrite receive_frame_eq.
  apply (respects_bind sampled_on sampled_trans);
    [apply wait_while_sampled; reflexivity | intros _].
  apply (respects_bind sampled_on sampled_trans);
    [apply wait_while_sampled; reflexivity | intros _].
  apply (respects_bind sampled_on sampled_trans);
    [apply wait_while_sampled; reflexivity | intros _].
  apply (respects_bind sampled_on sampled_trans);
    [apply read_bits_sampled | intros _].
  apply (wait_while_respects sampled_on sampled_trans sampled_poll).
  apply respects_ret, sampled_refl.
Qed.

(** X8: what one [_read] does to the outside, whatever its outcome: it
    yields, drives its pin low for 1100 microseconds per unit of
    [_wakeupDelay], hands the line to the sensor, switches the interrupts
    off, polls its own pin and the microsecond clock and nothing else,
    switches the interrupts on again, drives the pin high and takes the
    time.  The trace lists the latest event first. *)
Theorem X8_line_protocol s :
  let pin := _dataPin (this s) in
  exists polls,
    trace (world (snd (_read s))) =
      [EvMillis (u32 (millis_clock (world s) (n_millis (world s))));
       EvDigitalWrite pin HIGH; EvPinMode pin OUTPUT; EvInterrupts]
      ++ polls
      ++ [EvNoInterrupts; EvPinMode pin INPUT_PULLUP;
          EvDelayMicroseconds (u32 (_wakeupDelay (this s) * 1100));
          EvDigitalWrite pin LOW; EvPinMode pin OUTPUT; EvYield]
      ++ trace (world s) /\
    forallb (poll_on pin) polls = true.
Proof.
  intro pin.
  destruct (_read_spec s) as (rv & s1 & Hrs & Hp & _ & _ & ->).
  cbn [snd world released trace].
  rewrite _readSensor_eq, sample_frame_eq in Hrs.
  destruct (receive_frame_sampled (polling_start s))
    as (_ & [Hpin (evs & Htr & Hevs)]).
  assert (Es : snd (receive_frame (polling_start s)) = s1).
  { destruct (receive_frame (polling_start s)) as [[[] | rv' | ] s'];
      injection Hrs as _ <-; reflexivity. }
  rewrite Es in Hpin, Htr.
  assert (Hp0 : _dataPin (this (polling_start s)) = pin).
  { destruct s as [[] w]. reflexivity. }
  rewrite Hp0 in Hpin, Hevs.
  exists evs. split; [ | exact Hevs].
  rewrite Hpin, Htr, (polled_millis _ _ Hp), (polled_n_millis _ _ Hp).
  destruct s as [o w]. reflexivity.
Qed.

(** ** Reads without a sensor, and what reads keep *)

Lemma config_fields a b :
  config a = config b ->
  _dataPin a = _dataPin b /\ _wakeupDelay a = _wakeupDelay b /\
  _type a = _type b /\ _humOffset a = _humOffset b /\
  _tempOffset a = _tempOffset b /\ _waitForRead a = _waitForRead b /\
  _suppressError a = _suppressError b /\ _readDelay a = _readDelay b.
Proof. unfold config. intro H. injection H. intros. repeat split; assumption. Qed.

(** A [_read] that finds the line high for a whole busy-wait. *)
Lemma _read_not_ready s :
  line_stays HIGH timeout_polls (world s) ->
  exists s',
    _read s = (Value DHTLIB_ERROR_SENSOR_NOT_READY, s') /\
    config (this s') = config (this s) /\
    line (world s') = line (world s) /\
    n_line (world s') = (n_line (world s) + timeout_polls)%nat /\
    millis_clock (world s') = millis_clock (world s) /\
    n_millis (world s') = S (n_millis (world s)) /\
    wakeup_pulses (trace (world s')) =
      u32 (_wakeupDelay (this s) * 1100) :: wakeup_pulses (trace (world s)).
Proof.
  intro Hstay.
  destruct (_read_spec s) as (rv & s1 & Hrs & Hp & _ & _ & Hread).
  assert (E : receive_frame (polling_start s) =
              (Return DHTLIB_ERROR_SENSOR_NOT_READY,
               mkSys (this (polling_start s))
                     (poll_n (_dataPin (this s)) timeout_polls
                        (world (polling_start s))))).
  { destruct s as [o w]. unfold receive_frame, polling_start. cbn [this world] in *.
    apply bind_Return. rewrite wait_while_expires by exact Hstay.
    destruct o; reflexivity. }
  destruct (transport_returns _ _ _ E) as (Ers & _).
  rewrite Ers in Hrs. injection Hrs as <- <-.
  change (status_eqb DHTLIB_ERROR_SENSOR_NOT_READY DHTLIB_OK) with false in Hread.
  cbv iota in Hread.
  eexists. split; [exact Hread | ].
  destruct (_read_keeps _ _ _ Hread) as (Hc & Hw).
  split; [exact Hc | ].
  cbn [this world released line n_line millis_clock n_millis].
  destruct (poll_n_line (_dataPin (this s)) timeout_polls (world (polling_start s)))
    as (Hl & Hn & _ & _ & Hm & Hnm).
  destruct s as [o w]. cbn [polling_start world woken this] in *.
  rewrite Hl, Hn, Hm, Hnm. cbn [line n_line millis_clock n_millis].
  repeat split; assumption || reflexivity.
Qed.

(** X9: with the variant Unknown, [read] does not look at the clock before
    it tries: when no sensor answers, that is, when the line stays high for
    two busy-waits, every call costs two full transports, one with the
    wake-up pulse of each variant, returns [DHTLIB_ERROR_SENSOR_NOT_READY]
    and leaves the variant Unknown, whatever [_lastRead] says. *)
Theorem X9_detection_without_sensor fuel o w :
  _type o = Unknown ->
  line_stays HIGH (2 * timeout_polls) w ->
  let r := read fuel (mkSys o w) in
  fst r = Value DHTLIB_ERROR_SENSOR_NOT_READY /\
  _type (this (snd r)) = Unknown /\
  _wakeupDelay (this (snd r)) = DHTLIB_DHT11_WAKEUP /\
  n_line (world (snd r)) = (n_line w + 2 * timeout_polls)%nat /\
  n_millis (world (snd r)) = S (S (n_millis w)) /\
  wakeup_pulses (trace (world (snd r))) = 19800 :: 1100 :: wakeup_pulses (trace w).
Proof.
  intros Hty Hstay r. subst r. rewrite (read_unknown fuel o w Hty).
  destruct (_read_not_ready (mkSys (detect_B (delay_set o)) w))
    as (s1 & E1 & C1 & L1 & N1 & M1 & NM1 & W1).
  { intros j Hj. apply Hstay. lia. }
  rewrite E1.
  change (status_eqb DHTLIB_ERROR_SENSOR_NOT_READY DHTLIB_OK) with false.
  cbv iota.
  destruct (_read_not_ready (mkSys (detect_A (this s1)) (world s1)))
    as (s2 & E2 & C2 & L2 & N2 & M2 & NM2 & W2).
  { intros j Hj. cbn [world] in *. rewrite L1, N1, <- Nat.add_assoc.
    apply Hstay. lia. }
  rewrite E2.
  change (status_eqb DHTLIB_ERROR_SENSOR_NOT_READY DHTLIB_OK) with false.
  cbv iota. cbn [fst snd this world] in *.
  apply config_fields in C2 as (_ & Hwd & _).
  rewrite N2, N1, NM2, NM1, W2, W1.
  split; [reflexivity | ]. split; [reflexivity | ].
  split; [exact Hwd | ]. split; [lia | ]. split; reflexivity.
Qed.

Lemma delay_set_fields o :
  _dataPin (delay_set o) = _dataPin o /\
  _humOffset (delay_set o) = _humOffset o /\
  _tempOffset (delay_set o) = _tempOffset o /\
  _suppressError (delay_set o) = _suppressError o /\
  _readDelay (delay_set o) <> 0 /\
  (_readDelay o <> 0 -> delay_set o = o).
Proof.
  unfold delay_set. destruct (_readDelay o =? 0) eqn:E.
  - repeat split; try reflexivity.
    + cbn. destruct (_type o =? 11); discriminate.
    + apply Z.eqb_eq in E. contradiction.
  - apply Z.eqb_neq in E. repeat split; auto.
Qed.

(** One [read] changes none of the settings but the variant and its wake-up
    delay, and the read delay only when it was 0. *)
Lemma read_keeps_settings fuel o w rv s' :
  read fuel (mkSys o w) = (Value rv, s') ->
  _dataPin (this s') = _dataPin o /\
  _humOffset (this s') = _humOffset o /\
  _tempOffset (this s') = _tempOffset o /\
  _waitForRead (this s') = _waitForRead o /\
  _suppressError (this s') = _suppressError o /\
  _readDelay (this s') = _readDelay (delay_set o).
Proof.
  intro H.
  destruct (delay_set_fields o) as (Dp & Dh & Dt & Ds & _ & _).
  destruct (delay_set_keeps o) as (_ & _ & _ & Dw & _).
  assert (Hfin : forall o1, config o1 = config (delay_set o) \/
                            config o1 = config (detect_B (delay_set o)) \/
                            config o1 = config (detect_A (detect_B (delay_set o))) ->
            _dataPin o1 = _dataPin o /\ _humOffset o1 = _humOffset o /\
            _tempOffset o1 = _tempOffset o /\ _waitForRead o1 = _waitForRead o /\
            _suppressError o1 = _suppressError o /\
            _readDelay o1 = _readDelay (delay_set o)).
  { intros o1 [Hc | [Hc | Hc]];
      apply config_fields in Hc as (P & _ & _ & HO & TO & WF & SE & RD);
      cbn [detect_A detect_B] in *;
      rewrite P, HO, TO, WF, SE, RD;
      unfold detect_A, detect_B, set_wakeupDelay, set_type;
      cbn [_dataPin _humOffset _tempOffset _waitForRead _suppressError _readDelay];
      rewrite Dp, Dh, Dt, Ds, Dw; repeat split; reflexivity. }
  destruct (Z.eq_dec (_type o) Unknown) as [Hty | Hty].
  - rewrite (read_unknown fuel o w Hty) in H.
    destruct (_read_total (mkSys (detect_B (delay_set o)) w)) as (rvB & s1 & E1).
    rewrite E1 in H. destruct (_read_keeps _ _ _ E1) as (C1 & _).
    cbn [this] in C1.
    destruct (status_eqb rvB DHTLIB_OK).
    + injection H as _ <-. apply Hfin. auto.
    + destruct (_read_total (mkSys (detect_A (this s1)) (world s1)))
        as (rvA & s2 & E2).
      rewrite E2 in H. destruct (_read_keeps _ _ _ E2) as (C2 & _).
      cbn [this] in C2.
      assert (C3 : config (detect_A (this s1))
                   = config (detect_A (detect_B (delay_set o)))).
      { apply config_fields in C1 as (P & _ & _ & HO & TO & WF & SE & RD).
        unfold config, detect_A, set_wakeupDelay, set_type.
        cbn [_dataPin _wakeupDelay _type _humOffset _tempOffset _waitForRead
             _suppressError _readDelay].
        rewrite P, HO, TO, WF, SE, RD. reflexivity. }
      destruct (status_eqb rvA DHTLIB_OK); injection H as _ <-.
      * apply Hfin. right. right. congruence.
      * cbn [this].
        destruct (Hfin (this s2)) as (P & HO & TO & WF & SE & RD);
          [right; right; congruence | ].
        unfold set_type.
        cbn [_dataPin _humOffset _tempOffset _waitForRead _suppressError _readDelay].
        repeat split; assumption.
  - rewrite (read_known fuel o w Hty) in H.
    destruct (wait_for_read fuel (mkSys (delay_set o) w)) as [r s1] eqn:Eg.
    assert (Hr : r <> OutOfFuel) by (intros ->; discriminate).
    destruct (wait_for_read_keeps _ _ _ _ _ Eg Hr) as (Hthis & _ & _).
    destruct r as [[] | rv' | ]; [ | | contradiction].
    + destruct (_read_keeps _ _ _ H) as (C1 & _). rewrite Hthis in C1.
      apply Hfin. auto.
    + injection H as _ <-. rewrite Hthis. apply Hfin. auto.
Qed.

(** X10: however many reads an object goes through and however they end,
    its pin, its offsets and its two flags stay what they were, and its read
    delay is the one that the first of them found or set: a delay of 0
    becomes 1000 when the variant is 11 at that moment and 2000 otherwise,
    and is never looked at again. *)
Theorem X10_reads_keep_settings o rv rvs o' :
  reads o (rv :: rvs) o' ->
  _dataPin o' = _dataPin o /\
  _humOffset o' = _humOffset o /\
  _tempOffset o' = _tempOffset o /\
  _waitForRead o' = _waitForRead o /\
  _suppressError o' = _suppressError o /\
  _readDelay o' = _readDelay (delay_set o) /\
  _readDelay o' <> 0.
Proof.
  intro H.
  assert (G : forall a l b, reads a l b ->
            _dataPin b = _dataPin a /\ _humOffset b = _humOffset a /\
            _tempOffset b = _tempOffset a /\ _waitForRead b = _waitForRead a /\
            _suppressError b = _suppressError a /\
            (l <> [] -> _readDelay b = _readDelay (delay_set a))).
  { intros a l b Hr. induction Hr as [a | a fuel w r a1 w1 l b Hread Hr IH].
    - repeat split; try reflexivity. intro Hn. contradiction.
    - destruct (read_keeps_settings _ _ _ _ _ Hread) as (P & HO & TO & WF & SE & RD).
      cbn [this] in *.
      destruct IH as (P' & HO' & TO' & WF' & SE' & RD').
      repeat split; try congruence. intros _.
      destruct (delay_set_fields a) as (_ & _ & _ & _ & Hnz & _).
      destruct l as [ | r' l].
      + inversion Hr; subst. exact RD.
      + rewrite RD' by discriminate.
        destruct (delay_set_fields a1) as (_ & _ & _ & _ & _ & Hid).
        rewrite Hid by congruence. exact RD. }
  destruct (G _ _ _ H) as (P & HO & TO & WF & SE & RD).
  specialize (RD ltac:(discriminate)).
  repeat split; try assumption.
  rewrite RD. apply delay_set_fields.
Qed.

(** ** The gate of [read] *)

Lemma gate_polls_clock k : forall w,
  line (gate_polls k w) = line w /\
  n_line (gate_polls k w) = n_line w /\
  n_micros (gate_polls k w) = n_micros w /\
  millis_clock (gate_polls k w) = millis_clock w /\
  n_millis (gate_polls k w) = (n_millis w + k)%nat /\
  exists evs, trace (gate_polls k w) = evs ++ trace w /\
              length evs = (2 * k)%nat /\ forallb wait_event evs = true.
Proof.
  induction k as [ | k IH]; intro w.
  - cbn [gate_polls]. repeat split; try lia. exists []. repeat split.
  - cbn [gate_polls].
    destruct (IH (log EvYield (clock_read w))) as (L & NL & NM & MC' & NMI & evs & T & Len & F).
    cbn [log clock_read line n_line n_micros millis_clock n_millis trace] in *.
    repeat split; try assumption; try lia.
    exists (evs ++ [EvYield; EvMillis (u32 (millis_clock w (n_millis w)))]).
    rewrite T, <- app_assoc, length_app, forallb_app, F, Len.
    cbn. repeat split. lia.
Qed.

Lemma wait_for_read_gate k : forall fuel o w,
  _waitForRead o = true ->
  (forall j, (j < k)%nat ->
     (u32 (u32 (millis_clock w (n_millis w + j)) - _lastRead o) <? _readDelay o)
     = true) ->
  (u32 (u32 (millis_clock w (n_millis w + k)) - _lastRead o) <? _readDelay o)
  = false ->
  (k < fuel)%nat ->
  wait_for_read fuel (mkSys o w) = (Value tt, mkSys o (clock_read (gate_polls k w))).
Proof.
  induction k as [ | k IH]; intros fuel o w Hw Hbefore Hat Hfuel.
  - destruct fuel as [ | fuel]; [lia | ].
    rewrite Nat.add_0_r in Hat.
    rewrite wait_for_read_open by exact Hat. reflexivity.
  - destruct fuel as [ | fuel]; [lia | ].
    assert (H0 : (elapsed o w <? _readDelay o) = true).
    { unfold elapsed. specialize (Hbefore O ltac:(lia)).
      rewrite Nat.add_0_r in Hbefore. exact Hbefore. }
    rewrite wait_for_read_again by assumption.
    rewrite (IH fuel o (log EvYield (clock_read w))); try assumption; try lia.
    + reflexivity.
    + intros j Hj. specialize (Hbefore (S j) ltac:(lia)).
      rewrite Nat.add_succ_r in Hbefore. exact Hbefore.
    + rewrite Nat.add_succ_r in Hat. exact Hat.
Qed.

(** X11: a [read()] that waits, on a concrete variant: when the clock says
    [k] times in a row that the read delay has not elapsed and then that it
    has, the read calls [millis()] and [yield()] [k] times, [millis()] once
    more, and then makes one [_read] and returns its status.  The waiting
    touches neither the line nor the object. *)
Theorem X11_blocking_read k fuel o w :
  _type o <> Unknown ->
  _waitForRead o = true ->
  (forall j, (j < k)%nat ->
     (u32 (u32 (millis_clock w (n_millis w + j)) - _lastRead o)
      <? _readDelay (delay_set o)) = true) ->
  (u32 (u32 (millis_clock w (n_millis w + k)) - _lastRead o)
   <? _readDelay (delay_set o)) = false ->
  (k < fuel)%nat ->
  read fuel (mkSys o w) = _read (mkSys (delay_set o) (clock_read (gate_polls k w))) /\
  n_millis (gate_polls k w) = (n_millis w + k)%nat /\
  n_line (gate_polls k w) = n_line w /\
  exists evs, trace (gate_polls k w) = evs ++ trace w /\
              length evs = (2 * k)%nat /\ forallb wait_event evs = true.
Proof.
  intros Hty Hw Hbefore Hat Hfuel.
  destruct (delay_set_keeps o) as (Hl & _ & _ & Hwf & _).
  destruct (gate_polls_clock k w) as (_ & NL & _ & _ & NM & Hevs).
  split; [ | split; [exact NM | split; [exact NL | exact Hevs]]].
  rewrite read_known by assumption.
  rewrite (wait_for_read_gate k); try assumption.
  - reflexivity.
  - rewrite Hwf. exact Hw.
  - intros j Hj. rewrite Hl. apply Hbefore. exact Hj.
  - rewrite Hl. exact Hat.
Qed.

(** X12: the gate measures the time since the last read modulo 2^32, so it
    is right also when the millisecond clock has wrapped around in between:
    if the clock shows the time of the last read plus [d], the read is
    throttled when [d] is below the read delay and makes its [_read] when it
    is not. *)
Theorem X12_gate_survives_clock_wrap fuel o w d :
  _type o <> Unknown ->
  _waitForRead o = false ->
  0 <= _lastRead o < 2 ^ 32 ->
  0 <= d < 2 ^ 32 ->
  u32 (millis_clock w (n_millis w)) = u32 (_lastRead o + d) ->
  elapsed o w = d /\
  (d < _readDelay (delay_set o) ->
     read (S fuel) (mkSys o w) = (Value DHTLIB_OK, mkSys (delay_set o) (clock_read w))) /\
  (_readDelay (delay_set o) <= d ->
     read (S fuel) (mkSys o w) = _read (attempt_state o w)).
Proof.
  intros Hty Hw Hlast Hd Hclock.
  assert (He : elapsed o w = d).
  { unfold elapsed. rewrite Hclock. unfold u32.
    rewrite Zminus_mod_idemp_l.
    replace (_lastRead o + d - _lastRead o) with d by lia.
    apply Z.mod_small. exact Hd. }
  destruct (delay_set_keeps o) as (Hl & _ & _ & Hwf & _).
  split; [exact He | split].
  - intro Hlt. rewrite read_known by assumption.
    rewrite wait_for_read_throttled; [reflexivity | | ].
    + apply Z.ltb_lt. unfold elapsed in *. rewrite Hl, He. exact Hlt.
    + rewrite Hwf. exact Hw.
  - intro Hge. apply read_known_open; [assumption | ].
    unfold gate_open. rewrite He. apply Z.ltb_ge. exact Hge.
Qed.

(** ** Power *)

Lemma powerDown_eq o w :
  powerDown (mkSys o w) = (Value tt, mkSys o (log (EvDigitalWrite (_dataPin o) LOW) w)).
Proof. reflexivity. Qed.

Lemma powerUp_read fuel o w rv s' :
  read fuel (mkSys o (log (EvDigitalWrite (_dataPin o) HIGH) w)) = (Value rv, s') ->
  powerUp fuel (mkSys o w) = (Value tt, s').
Proof.
  intro H. unfold powerUp, procedure.
  unfold bind at 1. unfold field at 1. unfold bind at 1.
  unfold digitalWrite, platform. cbn [world this].
  unfold bind at 1. rewrite H. reflexivity.
Qed.

(** X13: the dummy read of [powerUp()] goes through the same gate as any
    other read: when the sensor is powered down and up again before the read
    delay has elapsed, on a concrete variant that does not wait, the line is
    written low and high and the clock is read, but the sensor is not read
    at all. *)
Theorem X13_power_cycle_within_delay fuel o w :
  _type o <> Unknown ->
  _waitForRead o = false ->
  elapsed o w < _readDelay (delay_set o) ->
  bind powerDown (fun _ => powerUp (S fuel)) (mkSys o w) =
  (Value tt,
   mkSys (delay_set o)
         (clock_read (log (EvDigitalWrite (_dataPin o) HIGH)
                        (log (EvDigitalWrite (_dataPin o) LOW) w)))).
Proof.
  intros Hty Hw Hlt.
  rewrite (bind_Value _ _ _ _ _ (powerDown_eq o w)).
  apply (powerUp_read _ _ _ DHTLIB_OK).
  rewrite read_known by assumption.
  destruct (delay_set_keeps o) as (Hl & _ & _ & Hwf & _).
  rewrite wait_for_read_throttled; [reflexivity | | ].
  - apply Z.ltb_lt. unfold elapsed in *. rewrite Hl. exact Hlt.
  - rewrite Hwf. exact Hw.
Qed.

(** ** [setType] *)

Lemma setType_valid ty o w :
  ty = Unknown \/ ty = VariantA \/ ty = VariantB ->
  setType ty (mkSys o w) = (Value tt, mkSys (set_type ty o) w).
Proof. intros [-> | [-> | ->]]; reflexivity. Qed.

(** X14: [setType] sets the variant and nothing else.  After [setType(11)]
    or [setType(22)] every read keeps that variant, but sends its wake-up
    pulse, if it sends one, with the wake-up delay that the object had
    before: [setType] does not adjust it.  A read delay of 0 becomes the
    delay of the variant that was set. *)
Theorem X14_setType_then_read fuel ty o w rv s' :
  ty = VariantA \/ ty = VariantB ->
  read fuel (snd (setType ty (mkSys o w))) = (Value rv, s') ->
  _type (this s') = ty /\
  _wakeupDelay (this s') = _wakeupDelay o /\
  _readDelay (this s') =
    (if _readDelay o =? 0
     then if ty =? 11 then DHTLIB_DHT11_READ_DELAY else DHTLIB_DHT22_READ_DELAY
     else _readDelay o) /\
  (wakeup_pulses (trace (world s')) = wakeup_pulses (trace w) \/
   wakeup_pulses (trace (world s')) =
     u32 (_wakeupDelay o * 1100) :: wakeup_pulses (trace w)).
Proof.
  intros Hty H.
  rewrite setType_valid in H by auto. cbn [snd] in H.
  assert (Hk : _type (set_type ty o) <> Unknown).
  { cbn. destruct Hty as [-> | ->]; discriminate. }
  destruct (read_known_keeps _ _ _ _ _ Hk H) as (T & WD & P).
  destruct (read_keeps_settings _ _ _ _ _ H) as (_ & _ & _ & _ & _ & RD).
  split; [exact T | ]. split; [exact WD | ]. split; [ | exact P].
  rewrite RD. unfold delay_set, set_type. cbn [_readDelay _type].
  destruct (_readDelay o =? 0); reflexivity.
Qed.

(** X15: [setType(0)] makes the next read a detection, whatever the variant
    was and whenever the last read took place: the read always returns, its
    first wake-up pulse is the one of 1100 microseconds, it returns
    [DHTLIB_OK] if that is its only one, a second one is of 19800
    microseconds, and the variant is concrete afterwards exactly when the
    status is [DHTLIB_OK]. *)
Theorem X15_setType_0_forces_detection fuel o w :
  exists rv s',
    read fuel (snd (setType 0 (mkSys o w))) = (Value rv, s') /\
    (rv = DHTLIB_OK /\ known_variant (this s') \/
     rv <> DHTLIB_OK /\ _type (this s') = Unknown) /\
    (rv = DHTLIB_OK /\
     wakeup_pulses (trace (world s')) = 1100 :: wakeup_pulses (trace w) \/
     wakeup_pulses (trace (world s')) = 19800 :: 1100 :: wakeup_pulses (trace w)).
Proof.
  rewrite setType_valid by (left; reflexivity). cbn [snd].
  assert (Hty : _type (set_type 0 o) = Unknown) by reflexivity.
  destruct (read_unknown_returns fuel _ w Hty) as (rv & s' & E).
  exists rv, s'. split; [exact E | ].
  split; [exact (read_unknown_ends _ _ _ _ _ Hty E) | ].
  rewrite (read_unknown fuel _ w Hty) in E.
  destruct (_read_total (mkSys (detect_B (delay_set (set_type 0 o))) w))
    as (rvB & s1 & E1).
  rewrite E1 in E. destruct (_read_keeps _ _ _ E1) as (_ & W1).
  cbn [this world] in W1.
  change (u32 (_wakeupDelay (detect_B (delay_set (set_type 0 o))) * 1100))
    with 1100 in W1.
  destruct (status_eqb rvB DHTLIB_OK) eqn:EB.
  - injection E as <- <-. left. split; [ | exact W1].
    destruct rvB; try discriminate; reflexivity.
  - destruct (_read_total (mkSys (detect_A (this s1)) (world s1)))
      as (rvA & s2 & E2).
    rewrite E2 in E. destruct (_read_keeps _ _ _ E2) as (_ & W2).
    cbn [this world] in W2.
    change (u32 (_wakeupDelay (detect_A (this s1)) * 1100)) with 19800 in W2.
    right. destruct (status_eqb rvA DHTLIB_OK); injection E as _ <-;
      cbn [world]; rewrite W2, W1; reflexivity.
Qed.

(** ** Timeouts within a bit *)

(** X16: at any of the 40 bits, when the line stays low for as many polls
    as a busy-wait makes, the loop leaves [_readSensor] with
    [DHTLIB_ERROR_TIMEOUT_C]: the object is as it was at the start of the bit
    and the microsecond clock was not read. *)
Theorem X16_timeout_C i mask idx o w :
  line_stays LOW timeout_polls w ->
  read_bits (S i) mask idx (mkSys o w) =
  (Return DHTLIB_ERROR_TIMEOUT_C, mkSys o (poll_n (_dataPin o) timeout_polls w)).
Proof.
  intro Hstay. rewrite read_bits_S. apply bind_Return.
  rewrite wait_while_expires by exact Hstay. reflexivity.
Qed.

(** X17: at any of the 40 bits, when the line goes high after [k] polls
    and then stays high for as many polls as a busy-wait makes, the loop
    leaves [_readSensor] with [DHTLIB_ERROR_TIMEOUT_D]: the microsecond clock
    was read once, and the bit was not stored. *)
Theorem X17_timeout_D i mask idx o w k :
  (k < timeout_polls)%nat ->
  line_stays LOW k w ->
  line w (n_line w + k) = HIGH ->
  (forall j, (j < timeout_polls)%nat -> line w (n_line w + S k + j) = HIGH) ->
  let r := read_bits (S i) mask idx (mkSys o w) in
  fst r = Return DHTLIB_ERROR_TIMEOUT_D /\
  this (snd r) = o /\
  n_line (world (snd r)) = (n_line w + (S k + timeout_polls))%nat /\
  n_micros (world (snd r)) = S (n_micros w).
Proof.
  intros Hk Hlow Hup Hstay r. subst r. rewrite read_bits_S.
  rewrite (bind_Value _ _ _ _ _
             (wait_while_leaves k LOW _ o w Hk Hlow (proj2 (not_LOW _) Hup))).
  rewrite bind_micros.
  destruct (poll_n_line (_dataPin o) (S k) w) as (L1 & N1 & _ & M1 & _).
  match goal with
  | |- context [mkSys o ?W] => set (w1 := W)
  end.
  assert (Hs : line_stays HIGH timeout_polls w1).
  { intros j Hj. subst w1. cbn [line n_line]. rewrite L1, N1.
    apply Hstay. exact Hj. }
  assert (E : wait_while HIGH (return_ DHTLIB_ERROR_TIMEOUT_D) (mkSys o w1)
              = (Return DHTLIB_ERROR_TIMEOUT_D,
                 mkSys o (poll_n (_dataPin o) timeout_polls w1))).
  { rewrite wait_while_expires by exact Hs. reflexivity. }
  rewrite (bind_Return _ _ _ _ _ E). cbn [fst snd this world].
  destruct (poll_n_line (_dataPin o) timeout_polls w1) as (_ & N2 & _ & M2 & _).
  rewrite N2, M2. subst w1. cbn [n_line n_micros]. rewrite N1, M1.
  repeat split. lia.
Qed.

(** ** Frames that [_read] accepts *)

Lemma _read_status s rv s1 :
  _readSensor s = (Value rv, s1) ->
  fst (_read s) =
    Value (if status_eqb rv DHTLIB_OK
           then if checksum_ok (_bits (this s1))
                then DHTLIB_OK else DHTLIB_ERROR_CHECKSUM
           else rv) /\
  _bits (this (snd (_read s))) = _bits (this s1).
Proof.
  intro Hrs.
  destruct (_read_spec s) as (rv' & s1' & Hrs' & _ & _ & _ & ->).
  rewrite Hrs in Hrs'. injection Hrs' as <- <-.
  split; [reflexivity | ]. cbn [snd this].
  unfold interpreted, invalidated.
  destruct (status_eqb rv DHTLIB_OK); [reflexivity | ].
  destruct (_suppressError (this s1)); reflexivity.
Qed.

(** X18: a single wrong byte never gets through: when [_read] returns
    [DHTLIB_OK] for one frame, it returns [DHTLIB_ERROR_CHECKSUM] for every
    frame that passes [_readSensor] and differs from it in exactly one of
    its five bytes. *)
Theorem X18_single_byte_error_is_detected s s' s1 s1' i v :
  length (_bits (this s)) = 5%nat ->
  length (_bits (this s')) = 5%nat ->
  _readSensor s = (Value DHTLIB_OK, s1) ->
  _readSensor s' = (Value DHTLIB_OK, s1') ->
  (i < 5)%nat ->
  v <> nth i (_bits (this s1)) 0 ->
  _bits (this s1') = store_at i v (_bits (this s1)) ->
  fst (_read s) = Value DHTLIB_OK ->
  fst (_read s') = Value DHTLIB_ERROR_CHECKSUM.
Proof.
  intros Hlen Hlen' Hrs Hrs' Hi Hv Hframe Hok.
  destruct (_read_status _ _ _ Hrs) as (E & _).
  destruct (_read_status _ _ _ Hrs') as (E' & _).
  change (status_eqb DHTLIB_OK DHTLIB_OK) with true in E, E'. cbv iota in E, E'.
  rewrite E in Hok. rewrite E'.
  destruct (frame_bytes _ _ _ Hlen Hrs) as (L1 & B1).
  destruct (frame_bytes _ _ _ Hlen' Hrs') as (L1' & B1').
  assert (Hck : checksum_ok (_bits (this s1)) = true).
  { destruct (checksum_ok (_bits (this s1))); [reflexivity | discriminate]. }
  assert (Hbv : byte v).
  { rewrite Hframe in B1'. clear - B1' L1 Hi.
    destruct (_bits (this s1)) as [ | b0 [ | b1 [ | b2 [ | b3 [ | b4 [ | b5 tl]]]]]];
      try discriminate.
    destruct i as [ | [ | [ | [ | [ | i]]]]]; try lia; cbn [store_at] in B1';
      repeat match goal with
             | H : Forall _ (_ :: _) |- _ => inversion H; clear H; subst
             end; assumption. }
  rewrite Hframe.
  rewrite (single_byte_mutation_breaks_checksum _ _ _ L1 B1 Hbv Hi Hv Hck).
  reflexivity.
Qed.

(** X19: whenever [_read] comes as far as decoding, that is, whenever it
    returns [DHTLIB_OK] or [DHTLIB_ERROR_CHECKSUM], the integers that it forms
    from the frame fit the 16-bit [int] of the small boards: the check of
    bit 7 of the first byte has run before. *)
Theorem X19_decoding_fits_16_bits s :
  length (_bits (this s)) = 5%nat ->
  fst (_read s) = Value DHTLIB_OK \/ fst (_read s) = Value DHTLIB_ERROR_CHECKSUM ->
  let b i := byte_at i (_bits (this (snd (_read s)))) in
  0 <= b 0 * 256 + b 1 <= 32767 /\
  0 <= Z.land (b 2) 127 * 256 + b 3 <= 32767 /\
  0 <= b 0 + b 1 + b 2 + b 3 <= 1020.
Proof.
  intros Hlen Hst b. subst b. cbv beta.
  destruct (_readSensor_returns s) as (rv & s1 & Hrs & _ & Hck & _).
  destruct (_read_status _ _ _ Hrs) as (E & ->).
  destruct rv; try (rewrite E in Hst; cbn in Hst;
                    destruct Hst as [Hst | Hst]; discriminate).
  - exact (decoding_fits_int16 s s1 Hlen Hrs).
  - contradiction.
Qed.

(** ** A counter that starts at 0 *)

(** X20: the counter of a busy-wait is decremented before it is compared
    with 0.  On a board whose clock is slower than 40 kHz, [DHTLIB_TIMEOUT]
    is 0, and a busy-wait does not give up at once but after the 2^16 polls
    that it takes the 16-bit counter to come round to 0 again. *)
Theorem X20_zero_timeout_wraps s :
  0 <= F_CPU < 40000 ->
  line_stays HIGH (Z.to_nat (2 ^ 16)) (world s) ->
  fst (_read s) = Value DHTLIB_ERROR_SENSOR_NOT_READY /\
  n_line (world (snd (_read s))) = (n_line (world s) + Z.to_nat (2 ^ 16))%nat.
Proof.
  intros Hcpu Hstay.
  assert (Htp : timeout_polls = Z.to_nat (2 ^ 16)).
  { unfold timeout_polls, rounds, DHTLIB_TIMEOUT.
    rewrite Z.quot_small by exact Hcpu.
    change (u16 0 =? 0) with true. reflexivity. }
  rewrite <- Htp in Hstay |- *.
  destruct (_read_not_ready s Hstay) as (s' & E & _ & _ & N & _).
  rewrite E. split; [reflexivity | exact N].
Qed.

(** ** How long a read can take *)

Lemma _read_polls s rv s' :
  _read s = (Value rv, s') ->
  (n_line (world s') <= n_line (world s) + 84 * timeout_polls)%nat /\
  (n_micros (world s') <= n_micros (world s) + 80)%nat.
Proof.
  destruct (_read_spec s) as (rv0 & s1 & Hrs & _ & _ & _ & ->).
  intro H. injection H as _ <-.
  cbn [world released n_line n_micros].
  rewrite _readSensor_eq, sample_frame_eq in Hrs.
  pose proof (receive_frame_polls (polling_start s)) as Hl.
  pose proof (receive_frame_micros (polling_start s)) as Hm.
  assert (Es : snd (receive_frame (polling_start s)) = s1).
  { destruct (receive_frame (polling_start s)) as [[[] | rv' | ] s2];
      injection Hrs as _ <-; reflexivity. }
  rewrite Es in Hl, Hm. destruct s as [o w].
  cbn [polling_start world woken n_line n_micros] in *.
  split; assumption.
Qed.

(** The gate of [read] does not touch the line. *)
Lemma wait_for_read_line fuel : forall o w r s1,
  wait_for_read fuel (mkSys o w) = (r, s1) ->
  n_line (world s1) = n_line w /\ n_micros (world s1) = n_micros w.
Proof.
  induction fuel as [ | fuel IH]; intros o w r s1 H.
  - cbn in H. injection H as _ <-. split; reflexivity.
  - destruct (elapsed o w <? _readDelay o) eqn:E.
    + destruct (_waitForRead o) eqn:Ew.
      * rewrite wait_for_read_again in H by assumption.
        apply IH in H. exact H.
      * rewrite wait_for_read_throttled in H by assumption.
        injection H as _ <-. split; reflexivity.
    + rewrite wait_for_read_open in H by assumption.
      injection H as _ <-. split; reflexivity.
Qed.

(** X21: a [read()] that returns has polled the line at most 168 times as
    often as one busy-wait may and has read the microsecond clock at most
    160 times, for the two transports of a detection; on a concrete variant
    the bounds are those of one transport, 84 and 80, however long the read
    has waited at its gate. *)
Theorem X21_read_is_bounded fuel o w rv s' :
  read fuel (mkSys o w) = (Value rv, s') ->
  (n_line (world s') <= n_line w + 168 * timeout_polls)%nat /\
  (n_micros (world s') <= n_micros w + 160)%nat /\
  (_type o <> Unknown ->
   (n_line (world s') <= n_line w + 84 * timeout_polls)%nat /\
   (n_micros (world s') <= n_micros w + 80)%nat).
Proof.
  intro H.
  destruct (Z.eq_dec (_type o) Unknown) as [Hty | Hty].
  - assert (Hb : (n_line (world s') <= n_line w + 168 * timeout_polls)%nat /\
                 (n_micros (world s') <= n_micros w + 160)%nat).
    { rewrite (read_unknown fuel o w Hty) in H.
      destruct (_read_total (mkSys (detect_B (delay_set o)) w)) as (rvB & s1 & E1).
      rewrite E1 in H. destruct (_read_polls _ _ _ E1) as (L1 & M1).
      cbn [world] in L1, M1.
      destruct (status_eqb rvB DHTLIB_OK).
      - injection H as _ <-. lia.
      - destruct (_read_total (mkSys (detect_A (this s1)) (world s1)))
          as (rvA & s2 & E2).
        rewrite E2 in H. destruct (_read_polls _ _ _ E2) as (L2 & M2).
        cbn [world] in L2, M2.
        destruct (status_eqb rvA DHTLIB_OK); injection H as _ <-;
          cbn [world]; lia. }
    split; [apply Hb | split; [apply Hb | ]]. intro Hn. contradiction.
  - assert (Hb : (n_line (world s') <= n_line w + 84 * timeout_polls)%nat /\
                 (n_micros (world s') <= n_micros w + 80)%nat).
    { rewrite (read_known fuel o w Hty) in H.
      destruct (wait_for_read fuel (mkSys (delay_set o) w)) as [r s1] eqn:Eg.
      destruct (wait_for_read_line _ _ _ _ _ Eg) as (L0 & M0).
      destruct r as [[] | rv' | ]; [ | | discriminate].
      - destruct (_read_polls _ _ _ H) as (L1 & M1). lia.
      - injection H as _ <-. lia. }
    split; [lia | split; [lia | ]]. intros _. exact Hb.
Qed.

(** X22: a [read()] that waits, on a concrete variant, never comes back
    without having asked the sensor: whenever it returns, it has sent exactly
    one wake-up pulse, of the length of the object's wake-up delay, and has
    stored a time that the clock showed after the gate had looked at it for
    the first time. *)
Theorem X22_waiting_read_asks_the_sensor fuel o w rv s' :
  _type o <> Unknown ->
  _waitForRead o = true ->
  read fuel (mkSys o w) = (Value rv, s') ->
  wakeup_pulses (trace (world s')) =
    u32 (_wakeupDelay o * 1100) :: wakeup_pulses (trace w) /\
  exists k, (1 <= k)%nat /\
            _lastRead (this s') = u32 (millis_clock w (n_millis w + k)).
Proof.
  intros Hty Hw H.
  destruct (read_known_keeps _ _ _ _ _ Hty H) as (_ & _ & Hp).
  rewrite read_known in H by assumption.
  destruct (delay_set_keeps o) as (_ & _ & _ & Hwf & _).
  destruct (wait_for_read fuel (mkSys (delay_set o) w)) as [r s1] eqn:Eg.
  assert (Hr : r <> OutOfFuel) by (intros ->; discriminate).
  destruct (wait_for_read_keeps _ _ _ _ _ Eg Hr) as (Hthis & (evs & Htr & Hevs) & Hret).
  destruct r as [[] | rv' | ]; [ | | contradiction].
  - destruct (_read_keeps _ _ _ H) as (_ & Hpulse).
    split.
    + destruct Hp as [Hp | Hp]; [ | exact Hp].
      rewrite Hp in Hpulse. exfalso.
      assert (Hlen : length (wakeup_pulses (trace (world s1)))
                     = length (wakeup_pulses (trace w))).
      { rewrite Htr. clear - Hevs. induction evs as [ | e evs IH]; [reflexivity | ].
        apply andb_prop in Hevs as [He Hevs].
        destruct e; try discriminate; cbn; auto. }
      apply (f_equal (@length Z)) in Hpulse. cbn [length] in Hpulse. lia.
    + destruct (_read_spec s1) as (rv0 & s2 & _ & Hpol & _ & _ & E).
      rewrite E in H. injection H as _ <-. cbn [this].
      assert (Hgate : exists k, (1 <= k)%nat /\
                                millis_clock (world s1) = millis_clock w /\
                                n_millis (world s1) = (n_millis w + k)%nat).
      { clear - Eg. revert Eg. generalize (delay_set o) as o0. revert w.
        induction fuel as [ | fuel IH]; intros w o0 Eg.
        - cbn in Eg. discriminate.
        - destruct (elapsed o0 w <? _readDelay o0) eqn:El.
          + destruct (_waitForRead o0) eqn:Ew.
            * rewrite wait_for_read_again in Eg by assumption.
              destruct (IH _ _ Eg) as (k & Hk & Hm & Hn).
              exists (S k). cbn [log clock_read millis_clock n_millis] in *.
              split; [lia | split; [exact Hm | lia]].
            * rewrite wait_for_read_throttled in Eg by assumption. discriminate.
          + rewrite wait_for_read_open in Eg by assumption.
            injection Eg as <-. exists 1%nat. cbn.
            split; [lia | split; [reflexivity | lia]]. }
      destruct Hgate as (k & Hk & Hm & Hn). exists k. split; [exact Hk | ].
      assert (Ht : time_of_read s2 = u32 (millis_clock w (n_millis w + k))).
      { rewrite (time_of_read_polled _ _ Hpol), Hm, Hn. reflexivity. }
      destruct (status_eqb rv0 DHTLIB_OK).
      * unfold interpreted. rewrite Ht. reflexivity.
      * unfold invalidated. rewrite Ht.
        destruct (_suppressError (this s2)); reflexivity.
  - destruct (Hret rv' eq_refl) as (_ & Hf). rewrite Hwf in Hf. congruence.
Qed.

End Coverage.

(** * The properties above on concrete inputs *)

Section CoverageIEEE.

#[local] Existing Instance ieee_arith.
#[local] Existing Instance ieee_macros.

(** No sensor on the line. *)
Lemma X1_idle_line_witness :
  fst (_readSensor (mkSys lockedB (idle_world (clock_at 9000))))
  = Value DHTLIB_ERROR_SENSOR_NOT_READY /\
  fst (_read (mkSys lockedB (idle_world (clock_at 9000))))
  = Value DHTLIB_ERROR_SENSOR_NOT_READY.
Proof.
  destruct (X1_sensor_not_ready (mkSys lockedB (idle_world (clock_at 9000))))
    as (H1 & H2 & _).
  - intros j Hj. reflexivity.
  - split; [exact H1 | exact H2].
Defined.

(** A line that is stuck low. *)
Lemma X2_stuck_low_witness :
  fst (_read (mkSys lockedB (scripted_world [] LOW (clock_at 9000))))
  = Value DHTLIB_ERROR_TIMEOUT_A.
Proof.
  destruct (X2_timeout_A (mkSys lockedB (scripted_world [] LOW (clock_at 9000))) 0)
    as (_ & H2 & _).
  - vm_compute. lia.
  - intros j Hj. lia.
  - reflexivity.
  - intros j Hj. reflexivity.
  - exact H2.
Defined.

(** A sensor that pulls the line low for one poll and then lets go. *)
Lemma X3_short_low_witness :
  fst (_read (mkSys lockedB (scripted_world [LOW] HIGH (clock_at 9000))))
  = Value DHTLIB_ERROR_TIMEOUT_B.
Proof.
  destruct (X3_timeout_B (mkSys lockedB (scripted_world [LOW] HIGH (clock_at 9000)))
              0 0) as (_ & H2 & _).
  - vm_compute. lia.
  - vm_compute. lia.
  - intros j Hj. lia.
  - reflexivity.
  - intros j Hj. lia.
  - reflexivity.
  - intros j Hj. reflexivity.
  - exact H2.
Defined.

(** The frame of a sensor that answers. *)
Lemma X4_frame_witness :
  _bits (this (snd (_readSensor
                      (mkSys lockedB (sensor_world good_frame (clock_at 6000))))))
  = map (assemble (sampled_bit (sensor_world good_frame (clock_at 6000))))
        [0; 1; 2; 3; 4]%nat.
Proof.
  apply (X4_frame_assembly
           (mkSys lockedB (sensor_world good_frame (clock_at 6000))) DHTLIB_OK).
  - vm_compute. reflexivity.
  - apply outcome_eq. vm_compute. reflexivity.
  - reflexivity.
Defined.

(** A buffer that held other bytes before. *)
Lemma X5_stale_buffer_witness :
  _readSensor (mkSys (set_bits [1; 2; 3; 4; 5]
                        (this (mkSys lockedB (idle_world (clock_at 9000)))))
                     (world (mkSys lockedB (idle_world (clock_at 9000)))))
  = _readSensor (mkSys lockedB (idle_world (clock_at 9000))).
Proof.
  apply (X5_buffer_emptied (mkSys lockedB (idle_world (clock_at 9000)))
           [1; 2; 3; 4; 5]).
  - vm_compute. reflexivity.
  - reflexivity.
Defined.

(** The last wait of a transport that went well. *)
Lemma X7_last_wait_witness :
  exists s2,
    _readSensor (mkSys lockedB (sensor_world good_frame (clock_at 6000))) =
      (Value (if Z.testbit
                   (byte_at 0
                      (_bits (this (snd (handshake_and_bits
                                           (polling_start
                                              (mkSys lockedB
                                                 (sensor_world good_frame
                                                    (clock_at 6000)))))))))
                   7
              then DHTLIB_ERROR_BIT_SHIFT else DHTLIB_OK), s2).
Proof.
  destruct (X7_last_wait_never_fails
              (mkSys lockedB (sensor_world good_frame (clock_at 6000)))
              (snd (handshake_and_bits
                      (polling_start
                         (mkSys lockedB (sensor_world good_frame (clock_at 6000)))))))
    as (s2 & H & _).
  - apply outcome_eq. vm_compute. reflexivity.
  - exists s2. exact H.
Defined.

(** A fresh object without a sensor. *)
Lemma X9_no_sensor_witness :
  fst (read 0 (mkSys mySensor (idle_world (clock_at 0))))
  = Value DHTLIB_ERROR_SENSOR_NOT_READY /\
  _type (this (snd (read 0 (mkSys mySensor (idle_world (clock_at 0)))))) = Unknown.
Proof.
  destruct (X9_detection_without_sensor 0 mySensor (idle_world (clock_at 0)))
    as (H1 & H2 & _).
  - reflexivity.
  - intros j Hj. reflexivity.
  - split; [exact H1 | exact H2].
Defined.

(** A read that fails on an object whose read delay is 2000. *)
Lemma X10_settings_witness :
  _readDelay (this (snd (read 1 (mkSys lockedB (idle_world (clock_at 9000))))))
  = _readDelay (delay_set lockedB).
Proof.
  destruct (X10_reads_keep_settings lockedB DHTLIB_ERROR_SENSOR_NOT_READY []
              (this (snd (read 1 (mkSys lockedB (idle_world (clock_at 9000)))))))
    as (_ & _ & _ & _ & _ & H & _).
  - apply reads_one. vm_compute. reflexivity.
  - exact H.
Defined.

(** A read that waits, 1000 milliseconds after the last one, with a clock
    that shows 6000 at the second look. *)
Lemma X11_blocking_witness :
  read 2 (mkSys (set_waitForRead true lockedB)
                (sensor_world good_frame
                   (fun n => match n with O => 4000 | S _ => 6000 end)))
  = _read (mkSys (delay_set (set_waitForRead true lockedB))
                 (clock_read
                    (gate_polls 1
                       (sensor_world good_frame
                          (fun n => match n with O => 4000 | S _ => 6000 end))))).
Proof.
  destruct (X11_blocking_read 1 2 (set_waitForRead true lockedB)
              (sensor_world good_frame
                 (fun n => match n with O => 4000 | S _ => 6000 end)))
    as (H & _).
  - vm_compute. discriminate.
  - reflexivity.
  - intros j Hj. destruct j; [vm_compute; reflexivity | lia].
  - vm_compute. reflexivity.
  - lia.
  - exact H.
Defined.

(** The last read took place 296 milliseconds before the clock wrapped
    around, and the clock shows 204. *)
Lemma X12_wrapped_clock_witness :
  elapsed (set_lastRead 4294967000 lockedB)
          (sensor_world good_frame (clock_at 204)) = 500.
Proof.
  destruct (X12_gate_survives_clock_wrap 0 (set_lastRead 4294967000 lockedB)
              (sensor_world good_frame (clock_at 204)) 500) as (H & _).
  - vm_compute. discriminate.
  - vm_compute. reflexivity.
  - simpl. lia.
  - lia.
  - reflexivity.
  - exact H.
Defined.

(** A power cycle 1000 milliseconds after the last read. *)
Lemma X13_power_cycle_witness :
  bind powerDown (fun _ => powerUp 1)
       (mkSys lockedB (sensor_world good_frame (clock_at 4000))) =
  (Value tt,
   mkSys (delay_set lockedB)
         (clock_read (log (EvDigitalWrite (_dataPin lockedB) HIGH)
                        (log (EvDigitalWrite (_dataPin lockedB) LOW)
                           (sensor_world good_frame (clock_at 4000)))))).
Proof.
  apply (X13_power_cycle_within_delay 0 lockedB
           (sensor_world good_frame (clock_at 4000))).
  - vm_compute. discriminate.
  - vm_compute. reflexivity.
  - vm_compute. reflexivity.
Defined.

(** [setType(11)] on an object that was detected as VariantB. *)
Lemma X14_setType_witness :
  _type (this (snd (read 1 (snd (setType VariantA
           (mkSys lockedB (sensor_world good_frame (clock_at 4000))))))))
  = VariantA /\
  _wakeupDelay (this (snd (read 1 (snd (setType VariantA
           (mkSys lockedB (sensor_world good_frame (clock_at 4000))))))))
  = _wakeupDelay lockedB.
Proof.
  destruct (X14_setType_then_read 1 VariantA lockedB
              (sensor_world good_frame (clock_at 4000)) DHTLIB_OK
              (snd (read 1 (snd (setType VariantA
                 (mkSys lockedB (sensor_world good_frame (clock_at 4000))))))))
    as (H1 & H2 & _).
  - left. reflexivity.
  - apply outcome_eq. vm_compute. reflexivity.
  - split; [exact H1 | exact H2].
Defined.

(** A line that is stuck low when a bit should start. *)
Lemma X16_bit_stuck_low_witness :
  read_bits 1 128 0 (mkSys lockedB (scripted_world [] LOW (clock_at 0))) =
  (Return DHTLIB_ERROR_TIMEOUT_C,
   mkSys lockedB (poll_n (_dataPin lockedB) timeout_polls
                    (scripted_world [] LOW (clock_at 0)))).
Proof.
  apply (X16_timeout_C 0 128 0 lockedB (scripted_world [] LOW (clock_at 0))).
  intros j Hj. destruct j; reflexivity.
Defined.

(** A line that is stuck high during a bit. *)
Lemma X17_bit_stuck_high_witness :
  fst (read_bits 1 128 0 (mkSys lockedB (scripted_world [] HIGH (clock_at 0))))
  = Return DHTLIB_ERROR_TIMEOUT_D.
Proof.
  destruct (X17_timeout_D 0 128 0 lockedB (scripted_world [] HIGH (clock_at 0)) 0)
    as (H & _).
  - vm_compute. lia.
  - intros j Hj. lia.
  - reflexivity.
  - intros j Hj. reflexivity.
  - exact H.
Defined.

(** The good frame with its byte 3 changed from 4 to 5. *)
Lemma X18_wrong_byte_witness :
  fst (_read (mkSys lockedB (sensor_world [2; 92; 1; 5; 99] (clock_at 6000))))
  = Value DHTLIB_ERROR_CHECKSUM.
Proof.
  apply (X18_single_byte_error_is_detected
           (mkSys lockedB (sensor_world good_frame (clock_at 6000)))
           (mkSys lockedB (sensor_world [2; 92; 1; 5; 99] (clock_at 6000)))
           (snd (_readSensor
                   (mkSys lockedB (sensor_world good_frame (clock_at 6000)))))
           (snd (_readSensor
                   (mkSys lockedB (sensor_world [2; 92; 1; 5; 99] (clock_at 6000)))))
           3 5).
  - vm_compute. reflexivity.
  - vm_compute. reflexivity.
  - apply outcome_eq. vm_compute. reflexivity.
  - apply outcome_eq. vm_compute. reflexivity.
  - lia.
  - vm_compute. discriminate.
  - vm_compute. reflexivity.
  - vm_compute. reflexivity.
Defined.

(** The integers of the good frame. *)
Lemma X19_good_frame_witness :
  0 <= byte_at 0 (_bits (this (snd (_read
         (mkSys lockedB (sensor_world good_frame (clock_at 6000))))))) * 256
       + byte_at 1 (_bits (this (snd (_read
         (mkSys lockedB (sensor_world good_frame (clock_at 6000)))))))
    <= 32767.
Proof.
  destruct (X19_decoding_fits_16_bits
              (mkSys lockedB (sensor_world good_frame (clock_at 6000))))
    as (H & _).
  - vm_compute. reflexivity.
  - left. vm_compute. reflexivity.
  - exact H.
Defined.

(** No sensor, on the board with the watch crystal. *)
Lemma X20_watch_crystal_witness :
  fst (_read (MC := watch_crystal_macros) (mkSys mySensor (idle_world (clock_at 0))))
  = Value DHTLIB_ERROR_SENSOR_NOT_READY.
Proof.
  destruct (X20_zero_timeout_wraps (MC := watch_crystal_macros)
              (mkSys mySensor (idle_world (clock_at 0)))) as (H & _).
  - simpl. lia.
  - intros j Hj. reflexivity.
  - exact H.
Defined.

(** A detection without a sensor. *)
Lemma X21_bounded_witness :
  (n_line (world (snd (read 0 (mkSys mySensor (idle_world (clock_at 0))))))
   <= n_line (idle_world (clock_at 0)) + 168 * timeout_polls)%nat.
Proof.
  destruct (X21_read_is_bounded 0 mySensor (idle_world (clock_at 0))
              DHTLIB_ERROR_SENSOR_NOT_READY
              (snd (read 0 (mkSys mySensor (idle_world (clock_at 0))))))
    as (H & _).
  - apply outcome_eq. vm_compute. reflexivity.
  - exact H.
Defined.

(** The read that waited until the clock showed 6000. *)
Lemma X22_waiting_witness :
  wakeup_pulses
    (trace (world (snd (read 2
       (mkSys (set_waitForRead true lockedB)
              (sensor_world good_frame
                 (fun n => match n with O => 4000 | S _ => 6000 end)))))))
  = u32 (_wakeupDelay (set_waitForRead true lockedB) * 1100)
    :: wakeup_pulses
         (trace (sensor_world good_frame
                   (fun n => match n with O => 4000 | S _ => 6000 end))).
Proof.
  destruct (X22_waiting_read_asks_the_sensor 2 (set_waitForRead true lockedB)
              (sensor_world good_frame
                 (fun n => match n with O => 4000 | S _ => 6000 end))
              DHTLIB_OK
              (snd (read 2
                 (mkSys (set_waitForRead true lockedB)
                        (sensor_world good_frame
                           (fun n => match n with O => 4000 | S _ => 6000 end))))))
    as (H & _).
  - vm_compute. discriminate.
  - reflexivity.
  - apply outcome_eq. vm_compute. reflexivity.
  - exact H.
Defined.

End CoverageIEEE.
